(** * Verification of the geo-aggregation pipeline of the NASA dashboards

    The development embeds, function by function, the data-transformation
    routines of the dashboards repository:

    - [docs/shared/js/utils.js]: [parseCSV], [parseCSVLine], [parseCurrency],
      [formatCurrency], [getGeoidFromDistrict], [groupBy], [sumBy];
    - [docs/shared/js/constants.js]: [STATE_FIPS_MAP], [COLORS];
    - [docs/shared/js/components/choropleth-map.js]: [getSteppedColor];
    - [docs/cancellations/js/app.js]: class [CancellationsDashboard];
    - [.github/workflows/sync-spending-data.yml]: [get_choropleth_color].

    Modelling conventions.

    - A JavaScript or Python string is a [string] of code units below 256
      (Latin-1).  White space ([trim], [parseInt], [parseFloat], the class
      [\s], [int]) and the case mappings are those of the languages on these
      code units, but for the three letters whose capital is not one code
      unit below 256 (the micro sign, the sharp s and y with diaeresis),
      which [toUpperCase] leaves as they are; no text they are compared
      with here contains them or their capitals.
    - A JavaScript number is a binary64 value, [spec_float] with precision 53
      and maximal exponent 1024; arithmetic is the IEEE arithmetic of
      [SpecFloat] (round to nearest, ties to even).
    - A JavaScript object used as a dictionary is a [gmap] when only lookups
      matter, and an association list in property-creation order when the
      code enumerates it with [Object.entries].
    - A thrown [TypeError] is the result [None] of an [option]-valued
      function; [null] is [None] where the source returns [string|null] or
      [number|null]. *)

From Stdlib Require Import ZArith NArith List String Ascii Bool Lia.
From Stdlib Require Import Permutation Sorting.Sorted.
From Stdlib Require Import Floats.SpecFloat.
From Stdlib Require Import Reals Lra.
From stdpp Require Import gmap strings.

Local Open Scope Z_scope.

(** ** ECMAScript primitives *)

Module JS.

(** *** Numbers *)

Definition number : Type := spec_float.

Definition prec : Z := 53.
Definition emax : Z := 1024.

(** The number [0]. *)
Definition posZero : number := S754_zero false.
Definition ofZ (z : Z) : number := binary_normalize prec emax z 0 false.

Definition add : number -> number -> number := SFadd prec emax.
Definition sub : number -> number -> number := SFsub prec emax.
Definition mul : number -> number -> number := SFmul prec emax.
Definition div : number -> number -> number := SFdiv prec emax.

Definition lt : number -> number -> bool := SFltb.
Definition le : number -> number -> bool := SFleb.
Definition gt (x y : number) : bool := SFltb y x.
Definition ge (x y : number) : bool := SFleb y x.
(** [x === y] on numbers. *)
Definition strictEq : number -> number -> bool := SFeqb.

Definition isNaN (x : number) : bool :=
  match x with S754_nan => true | _ => false end.

(** [ToBoolean] of a number: [0], [-0] and [NaN] are falsy. *)
Definition truthy (x : number) : bool :=
  match x with
  | S754_zero _ | S754_nan => false
  | _ => true
  end.

(** The number denoted by the decimal numeral [m * 10^e], correctly
    rounded ([StringToNumber]). *)
Definition ofDecimal (neg : bool) (m : N) (e : Z) : number :=
  match m with
  | N0 => S754_zero neg
  | Npos p =>
      match e with
      | Zneg k => div (S754_finite neg p 0) (S754_finite false (10 ^ k)%positive 0)
      | _ => binary_normalize prec emax (if neg then Z.neg p * 10 ^ e else Z.pos p * 10 ^ e) 0 neg
      end
  end.

(** *** Values *)

Inductive value : Type :=
| Undefined
| Null
| Num (n : number)
| Str (s : string).

(** *** Strings *)

Definition code (c : ascii) : N := N_of_ascii c.

(** White space and line terminators among the code units below 256: tab,
    line feed, vertical tab, form feed, carriage return, space and the
    no-break space; the characters removed by [trim], skipped by [parseInt]
    and [parseFloat], and matched by [\s]. *)
Definition isWhiteSpace (c : ascii) : bool :=
  ((9 <=? code c) && (code c <=? 13) || (code c =? 32) || (code c =? 160))%N.

Definition isDigit (c : ascii) : bool :=
  ((48 <=? code c) && (code c <=? 57))%N.

Definition digitValue (c : ascii) : N := (code c - 48)%N.

(** The letters a to z, and the Latin-1 letters from a with grave to thorn
    (the division sign, 247, is no letter). *)
Definition toUpperChar (c : ascii) : ascii :=
  if ((97 <=? code c) && (code c <=? 122)
      || (224 <=? code c) && (code c <=? 254) && negb (code c =? 247))%N
  then ascii_of_N (code c - 32) else c.

(** The letters A to Z, and the Latin-1 letters from A with grave to Thorn
    (the multiplication sign, 215, is no letter). *)
Definition toLowerChar (c : ascii) : ascii :=
  if ((65 <=? code c) && (code c <=? 90)
      || (192 <=? code c) && (code c <=? 222) && negb (code c =? 215))%N
  then ascii_of_N (code c + 32) else c.

Fixpoint mapChars (f : ascii -> ascii) (s : string) : string :=
  match s with
  | EmptyString => EmptyString
  | String c r => String (f c) (mapChars f r)
  end.

Definition toUpperCase : string -> string := mapChars toUpperChar.
Definition toLowerCase : string -> string := mapChars toLowerChar.

Fixpoint trimStart (s : string) : string :=
  match s with
  | String c r => if isWhiteSpace c then trimStart r else s
  | EmptyString => EmptyString
  end.

Fixpoint trimEnd (s : string) : string :=
  match s with
  | EmptyString => EmptyString
  | String c r =>
      match trimEnd r with
      | EmptyString => if isWhiteSpace c then EmptyString else String c EmptyString
      | r' => String c r'
      end
  end.

Definition trim (s : string) : string := trimEnd (trimStart s).

(** [s.includes(c)] for a one-character search string. *)
Fixpoint includes (s : string) (c : ascii) : bool :=
  match s with
  | EmptyString => false
  | String d r => Ascii.eqb d c || includes r c
  end.

(** [s.split(sep)] for a one-character separator. *)
Fixpoint split (sep : ascii) (s : string) : list string :=
  match s with
  | EmptyString => [EmptyString]
  | String c r =>
      if Ascii.eqb c sep then EmptyString :: split sep r
      else match split sep r with
           | h :: t => String c h :: t
           | [] => [String c EmptyString]
           end
  end.

(** [s.replace(/[...]/g, '')]: delete every character of a class. *)
Fixpoint removeChars (cls : ascii -> bool) (s : string) : string :=
  match s with
  | EmptyString => EmptyString
  | String c r => if cls c then removeChars cls r else String c (removeChars cls r)
  end.

Fixpoint repeatChar (c : ascii) (n : nat) : string :=
  match n with
  | O => EmptyString
  | S k => String c (repeatChar c k)
  end.

(** [s.padStart(targetLength, c)] for a one-character filler. *)
Definition padStart (targetLength : nat) (c : ascii) (s : string) : string :=
  repeatChar c (targetLength - String.length s) +:+ s.

(** The longest prefix of decimal digits, and what follows it. *)
Fixpoint spanDigits (s : string) : string * string :=
  match s with
  | String c r =>
      if isDigit c then let '(ds, rest) := spanDigits r in (String c ds, rest)
      else (EmptyString, s)
  | EmptyString => (EmptyString, EmptyString)
  end.

Fixpoint decimalValueFrom (acc : N) (ds : string) : N :=
  match ds with
  | EmptyString => acc
  | String c r => decimalValueFrom (10 * acc + digitValue c)%N r
  end.

(** The value of a string of decimal digits. *)
Definition decimalValue (ds : string) : N := decimalValueFrom 0%N ds.

(** An optional sign: whether it is [-], and what follows it. *)
Definition spanSign (s : string) : bool * string :=
  match s with
  | String c r =>
      if Ascii.eqb c "-" then (true, r)
      else if Ascii.eqb c "+" then (false, r)
      else (false, s)
  | EmptyString => (false, s)
  end.

(** [parseInt(s, 10)]; [None] is [NaN].  The result is the mathematical
    integer read, which is the number returned for magnitudes below 2^53. *)
Definition parseInt (s : string) : option Z :=
  let '(neg, body) := spanSign (trimStart s) in
  let '(ds, _) := spanDigits body in
  match ds with
  | EmptyString => None
  | _ => Some (if neg then - Z.of_N (decimalValue ds) else Z.of_N (decimalValue ds))
  end.

Definition digitChar (d : N) : ascii := ascii_of_N (48 + d).

(** The decimal digits of [n], most significant first, in front of [acc]. *)
Fixpoint digitsOf (fuel : nat) (n : N) (acc : string) : string :=
  match fuel with
  | O => acc
  | S f =>
      let acc' := String (digitChar (n mod 10)) acc in
      if (n <? 10)%N then acc' else digitsOf f (n / 10) acc'
  end.

(** The decimal numeral of a natural number. *)
Definition numeralOf (n : N) : string :=
  digitsOf (S (N.to_nat (N.log2 n))) n EmptyString.

(** [Number.prototype.toString] on an integer value (magnitude below 2^53). *)
Definition integerToString (z : Z) : string :=
  if z <? 0 then String "-" (numeralOf (Z.abs_N z)) else numeralOf (Z.abs_N z).

Fixpoint allDigits (s : string) : bool :=
  match s with
  | EmptyString => true
  | String c r => isDigit c && allDigits r
  end.

(** A numeral: a non-empty string of decimal digits. *)
Definition isNumeral (s : string) : bool :=
  negb (String.eqb s EmptyString) && allDigits s.

(** *** parseFloat *)

(** What the longest prefix that is a [StrDecimalLiteral] denotes. *)
Inductive numeral : Type :=
| NotNumeric
| Infinite (neg : bool)
| Decimal (neg : bool) (m : N) (e : Z).

Definition isExponentIndicator (c : ascii) : bool :=
  Ascii.eqb c "e" || Ascii.eqb c "E".

(** The value of an optional [ExponentPart]; an indicator that is not
    followed by a signed integer is not part of the literal. *)
Definition scanExponent (s : string) : Z :=
  match s with
  | String c r =>
      if isExponentIndicator c then
        let '(neg, body) := spanSign r in
        let '(ds, _) := spanDigits body in
        match ds with
        | EmptyString => 0
        | _ => if neg then - Z.of_N (decimalValue ds) else Z.of_N (decimalValue ds)
        end
      else 0
  | EmptyString => 0
  end.

(** What follows a decimal point, when the string starts with one. *)
Definition afterPoint (s : string) : option string :=
  match s with
  | String c r => if Ascii.eqb c "." then Some r else None
  | EmptyString => None
  end.

Definition scanUnsignedDecimal (neg : bool) (body : string) : numeral :=
  if String.prefix "Infinity" body then Infinite neg
  else
    let '(ip, r1) := spanDigits body in
    match afterPoint r1 with
    | Some r2 =>
        let '(fp, r3) := spanDigits r2 in
        match ip +:+ fp with
        | EmptyString => NotNumeric
        | ds => Decimal neg (decimalValue ds) (scanExponent r3 - Z.of_nat (String.length fp))
        end
    | None =>
        match ip with
        | EmptyString => NotNumeric
        | _ => Decimal neg (decimalValue ip) (scanExponent r1)
        end
    end.

Definition scanDecimal (s : string) : numeral :=
  let '(neg, body) := spanSign s in scanUnsignedDecimal neg body.

Definition numeralToNumber (n : numeral) : number :=
  match n with
  | NotNumeric => S754_nan
  | Infinite neg => S754_infinity neg
  | Decimal neg m e => ofDecimal neg m e
  end.

Definition parseFloat (s : string) : number :=
  numeralToNumber (scanDecimal (trimStart s)).

(** *** Objects and arrays *)

(** The property names every object inherits from [Object.prototype]; each
    is bound to a function or an object, hence truthy, and none has a
    [push] method. *)
Definition objectPrototypeKeys : list string :=
  [ "constructor"; "hasOwnProperty"; "isPrototypeOf"; "propertyIsEnumerable";
    "toLocaleString"; "toString"; "valueOf"; "__proto__";
    "__defineGetter__"; "__defineSetter__"; "__lookupGetter__"; "__lookupSetter__" ]%string.

Definition isInherited (k : string) : bool :=
  existsb (String.eqb k) objectPrototypeKeys.

(** Own properties of an object, in creation order. *)
Fixpoint assoc {V : Type} (k : string) (o : list (string * V)) : option V :=
  match o with
  | [] => None
  | (k', v) :: r => if String.eqb k k' then Some v else assoc k r
  end.

(** Whether a property key is an array index: the canonical numeral of an
    integer below 2^32 - 1. *)
Definition arrayIndex (k : string) : option N :=
  match k with
  | String c r =>
      if isNumeral k && (negb (Ascii.eqb c "0") || String.eqb r EmptyString)
         && (decimalValue k <? 4294967295)%N
      then Some (decimalValue k) else None
  | EmptyString => None
  end.

Fixpoint insertByIndex {V : Type} (i : N) (kv : string * V)
    (l : list (N * (string * V))) : list (N * (string * V)) :=
  match l with
  | [] => [(i, kv)]
  | (j, kv') :: r => if (i <? j)%N then (i, kv) :: l else (j, kv') :: insertByIndex i kv r
  end.

Fixpoint indexedEntries {V : Type} (o : list (string * V)) : list (N * (string * V)) :=
  match o with
  | [] => []
  | kv :: r =>
      match arrayIndex (fst kv) with
      | Some i => insertByIndex i kv (indexedEntries r)
      | None => indexedEntries r
      end
  end.

(** [Object.entries(o)]: array-index keys in ascending numeric order, then
    the other keys in creation order. *)
Definition entries {V : Type} (o : list (string * V)) : list (string * V) :=
  map snd (indexedEntries o)
  ++ List.filter (fun kv => match arrayIndex (fst kv) with Some _ => false | None => true end) o.

(** [Array.prototype.sort(comparefn)], which is stable.  [after a b] tells
    whether [comparefn(a, b) > 0], that is whether [a] has to come after
    [b]; for a consistent comparison function every stable sort returns the
    list computed here. *)
Fixpoint sortInsert {A : Type} (after : A -> A -> bool) (x : A) (l : list A) : list A :=
  match l with
  | [] => [x]
  | y :: r => if after x y then y :: sortInsert after x r else x :: l
  end.

Definition sort {A : Type} (after : A -> A -> bool) (l : list A) : list A :=
  fold_right (sortInsert after) [] l.

Fixpoint join (sep : string) (l : list string) : string :=
  match l with
  | [] => EmptyString
  | [x] => x
  | x :: r => x +:+ sep +:+ join sep r
  end.

(** *** Substrings, searches and sets *)

Fixpoint takeChars (n : nat) (s : string) : string :=
  match n, s with
  | S k, String c r => String c (takeChars k r)
  | _, _ => EmptyString
  end.

Fixpoint dropChars (n : nat) (s : string) : string :=
  match n, s with
  | S k, String _ r => dropChars k r
  | _, _ => s
  end.

(** [s.substring(indexStart, indexEnd)]: the characters from the smaller to
    the larger of the two positions. *)
Definition substring (s : string) (indexStart indexEnd : nat) : string :=
  takeChars (Nat.max indexStart indexEnd - Nat.min indexStart indexEnd)
    (dropChars (Nat.min indexStart indexEnd) s).

(** [s.substring(indexStart)] *)
Definition substringFrom (s : string) (indexStart : nat) : string := dropChars indexStart s.

(** [s.lastIndexOf(c)] for a one-character search string, counting
    positions from [i]; [None] is -1. *)
Fixpoint lastIndexOf_from (i : nat) (s : string) (c : ascii) : option nat :=
  match s with
  | EmptyString => None
  | String d r =>
      match lastIndexOf_from (S i) r c with
      | Some j => Some j
      | None => if Ascii.eqb d c then Some i else None
      end
  end.

Definition lastIndexOf (s : string) (c : ascii) : option nat := lastIndexOf_from 0 s c.

(** The comparison of [Set] and [Map]: [SameValueZero]. *)
Definition sameValueZero (x y : value) : bool :=
  match x, y with
  | Undefined, Undefined | Null, Null => true
  | Str a, Str b => String.eqb a b
  | Num a, Num b => (isNaN a && isNaN b) || strictEq a b
  | _, _ => false
  end.

(** [set.add(v)] on the elements of a set in insertion order. *)
Definition setAdd (set : list value) (v : value) : list value :=
  if existsb (sameValueZero v) set then set else set ++ [v].

(** [new Set(iterable)] *)
Definition setOf (iterable : list value) : list value := fold_left setAdd iterable [].

(** [Math.max(a, b)] on two numbers, and [Math.max(...values)]. *)
Definition max2 (a b : number) : number :=
  if isNaN a || isNaN b then S754_nan
  else if lt a b then b
  else if lt b a then a
  else match a with
       | S754_zero true => b
       | _ => a
       end.

Definition mathMax (values : list number) : number :=
  fold_left max2 values (S754_infinity true).

End JS.

(** ** docs/shared/js/constants.js *)

Module Constants.

Definition STATE_FIPS_entries : list (string * string) :=
  [ ("AL", "01"); ("AK", "02"); ("AZ", "04"); ("AR", "05"); ("CA", "06"); ("CO", "08");
    ("CT", "09"); ("DE", "10"); ("DC", "11"); ("FL", "12"); ("GA", "13"); ("HI", "15");
    ("ID", "16"); ("IL", "17"); ("IN", "18"); ("IA", "19"); ("KS", "20"); ("KY", "21");
    ("LA", "22"); ("ME", "23"); ("MD", "24"); ("MA", "25"); ("MI", "26"); ("MN", "27");
    ("MS", "28"); ("MO", "29"); ("MT", "30"); ("NE", "31"); ("NV", "32"); ("NH", "33");
    ("NJ", "34"); ("NM", "35"); ("NY", "36"); ("NC", "37"); ("ND", "38"); ("OH", "39");
    ("OK", "40"); ("OR", "41"); ("PA", "42"); ("RI", "44"); ("SC", "45"); ("SD", "46");
    ("TN", "47"); ("TX", "48"); ("UT", "49"); ("VT", "50"); ("VA", "51"); ("WA", "53");
    ("WV", "54"); ("WI", "55"); ("WY", "56"); ("AS", "60"); ("GU", "66"); ("MP", "69");
    ("PR", "72"); ("VI", "78") ]%string.

(** The object literal [STATE_FIPS_MAP].  Its keys are upper-case, so a
    lookup with an upper-cased key never reaches a property inherited from
    [Object.prototype] (all of whose names contain a lower-case letter). *)
Definition STATE_FIPS_MAP : gmap string string := list_to_map STATE_FIPS_entries.

(** An entry of a stepped colour scale. *)
Record Step : Type := { threshold : JS.number; color : string; label : string }.

(** A colour configuration of [COLORS.choropleth]; a property the object
    literal does not have is [None]. *)
Record Colors : Type := { zero : option string; low : option string; high : option string }.

Definition Infinity : JS.number := S754_infinity false.

Definition spending : Colors :=
  {| zero := Some "#FFFFFF"; low := Some "#ACCCDE"; high := Some "#037CC2" |}%string.
Definition cancellations : Colors :=
  {| zero := Some "#FFFFFF"; low := Some "#FF5D47"; high := Some "#FF5D47" |}%string.
Definition science : Colors :=
  {| zero := Some "#f0f0f0"; low := None; high := None |}%string.
Definition missions : Colors :=
  {| zero := Some "#f0f0f0"; low := None; high := None |}%string.

Definition spendingSteps : list Step :=
  [ {| threshold := JS.ofZ 500000; color := "#fdfde6"; label := "< $500K" |};
    {| threshold := JS.ofZ 5000000; color := "#d6ebca"; label := "$500K to $5M" |};
    {| threshold := JS.ofZ 50000000; color := "#7fcdbb"; label := "$5M to $50M" |};
    {| threshold := JS.ofZ 250000000; color := "#41b6c4"; label := "$50M to $250M" |};
    {| threshold := JS.ofZ 1000000000; color := "#2c7fb8"; label := "$250M to $1B" |};
    {| threshold := Infinity; color := "#253494"; label := "$1B+" |} ]%string.

Definition scienceSteps : list Step :=
  [ {| threshold := JS.ofZ 500000; color := "#f7fbff"; label := "< $500K" |};
    {| threshold := JS.ofZ 5000000; color := "#deebf7"; label := "$500K to $5M" |};
    {| threshold := JS.ofZ 50000000; color := "#9ecae1"; label := "$5M to $50M" |};
    {| threshold := JS.ofZ 250000000; color := "#4292c6"; label := "$50M to $250M" |};
    {| threshold := JS.ofZ 1000000000; color := "#2171b5"; label := "$250M to $1B" |};
    {| threshold := Infinity; color := "#084594"; label := "$1B+" |} ]%string.

(** [FIPS_STATE_MAP]: [Object.fromEntries] of the swapped entries, where a
    later entry replaces an earlier one with the same key. *)
Definition FIPS_STATE_MAP : gmap string string :=
  fold_left (fun m kv => <[snd kv := fst kv]> m) STATE_FIPS_entries ∅.

End Constants.

(** ** docs/shared/js/utils.js *)

Module Utils.
Import JS Constants.

Definition getGeoidFromDistrict (districtStr : value) : option string :=
  match districtStr with
  | Str s =>
      if String.eqb s EmptyString || negb (includes s "-") then None
      else
        match split "-" s with
        | [part0; part1] =>
            let stateAbbr := toUpperCase part0 in
            let districtNum := toUpperCase part1 in
            match STATE_FIPS_MAP !! stateAbbr with
            | None => None
            | Some stateFips =>
                if String.eqb stateFips EmptyString then None
                else if String.eqb districtNum "ZZ" || String.eqb districtNum "00"
                then Some (stateFips +:+ districtNum)
                else
                  match parseInt districtNum with
                  | None => None
                  | Some parsed => Some (stateFips +:+ padStart 2 "0" (integerToString parsed))
                  end
            end
        | _ => None
        end
  | _ => None
  end.

(** [parseCSVLine]: the loop over the characters of the line, with the
    fields pushed so far, the field being read and the quote state. *)
Fixpoint parseCSVLine_from (line : string) (result : list string) (current : string)
    (inQuotes : bool) : list string :=
  match line with
  | EmptyString => result ++ [current]
  | String char rest =>
      if Ascii.eqb char "034" then
        match rest with
        | String nextChar rest' =>
            if inQuotes && Ascii.eqb nextChar "034"
            then parseCSVLine_from rest' result (current +:+ String "034" EmptyString) inQuotes
            else parseCSVLine_from rest result current (negb inQuotes)
        | EmptyString => parseCSVLine_from rest result current (negb inQuotes)
        end
      else if Ascii.eqb char "," && negb inQuotes
      then parseCSVLine_from rest (result ++ [current]) EmptyString inQuotes
      else parseCSVLine_from rest result (current +:+ String char EmptyString) inQuotes
  end.

Definition parseCSVLine (line : string) : list string :=
  parseCSVLine_from line [] EmptyString false.

(** [values[index]?.trim() || ''] *)
Definition fieldAt (values : list string) (index : nat) : string :=
  match nth_error values index with
  | Some v => trim v
  | None => EmptyString
  end.

(** [headers.forEach((header, index) => row[header.trim()] = ...)], from
    position [index] on.  On the plain object [row] the name [__proto__] is
    the accessor inherited from [Object.prototype], whose setter ignores a
    string: that assignment creates no property. *)
Fixpoint fillRow (headers : list string) (index : nat) (values : list string)
    (row : gmap string string) : gmap string string :=
  match headers with
  | [] => row
  | header :: rest =>
      fillRow rest (S index) values
        (if String.eqb (trim header) "__proto__" then row
         else <[trim header := fieldAt values index]> row)
  end.

Fixpoint parseCSV_rows (headers : list string) (lines : list string)
    (rows : list (gmap string string)) : list (gmap string string) :=
  match lines with
  | [] => rows
  | l :: rest =>
      let line := trim l in
      match line with
      | EmptyString => parseCSV_rows headers rest rows
      | _ => parseCSV_rows headers rest (rows ++ [fillRow headers 0 (parseCSVLine line) ∅])
      end
  end.

Definition parseCSV (csvText : string) : list (gmap string string) :=
  match split "010" (trim csvText) with
  | [] => []
  | line0 :: lines => parseCSV_rows (parseCSVLine line0) lines []
  end.

(** The class [[$,\s]] of the currency clean-up. *)
Definition isCurrencyNoise (c : ascii) : bool :=
  Ascii.eqb c "$" || Ascii.eqb c "," || isWhiteSpace c.

Definition cleanCurrency (s : string) : string := removeChars isCurrencyNoise s.

Definition parseCurrency (v : value) : option number :=
  match v with
  | Null | Undefined => None
  | Num n => if isNaN n then None else Some n
  | Str EmptyString => None
  | Str s =>
      let cleaned := cleanCurrency s in
      let num := parseFloat cleaned in
      if isNaN num then None else Some num
  end.

Section Formatting.

(** [Number.prototype.toFixed(digits)] and
    [toLocaleString('en-US', {minimumFractionDigits: 0, maximumFractionDigits: 0})]
    are built-ins of the host.  [toFixed] accepts from 0 to 100 digits and
    throws a [RangeError] for more: [formatCurrency] is modelled for a
    number of [decimals] in that range, as every call in the dashboards
    is (they leave the default of one decimal). *)
Variable toFixed : number -> nat -> string.
Variable toLocaleString : number -> string.

Definition formatCurrency (v : value) (abbreviated : bool) (decimals : nat) : string :=
  let num := match v with
             | Str _ => parseCurrency v
             | Num n => Some n
             | Null | Undefined => None
             end in
  match num with
  | None => "N/A"
  | Some num =>
      if isNaN num || lt num posZero then "N/A"
      else if strictEq num posZero then "$0"
      else if abbreviated then
        if ge num (ofZ 1000000000) then "$" +:+ toFixed (div num (ofZ 1000000000)) decimals +:+ "B"
        else if ge num (ofZ 1000000) then "$" +:+ toFixed (div num (ofZ 1000000)) decimals +:+ "M"
        else if ge num (ofZ 1000) then "$" +:+ toFixed (div num (ofZ 1000)) decimals +:+ "K"
        else "$" +:+ toFixed num 0
      else "$" +:+ toLocaleString num
  end.

End Formatting.

(** [groupBy(array, key)].  [key] gives the property key [item[key]] turns
    into; the result lists the groups in creation order, and [None] is the
    [TypeError] raised by [push] when the key names an inherited property. *)
Fixpoint pushTo {A : Type} (k : string) (item : A) (o : list (string * list A))
    : list (string * list A) :=
  match o with
  | [] => []
  | (k', items) :: r =>
      if String.eqb k k' then (k', items ++ [item]) :: r else (k', items) :: pushTo k item r
  end.

Fixpoint groupBy_from {A : Type} (key : A -> string) (result : list (string * list A))
    (array : list A) : option (list (string * list A)) :=
  match array with
  | [] => Some result
  | item :: rest =>
      let groupKey := key item in
      match assoc groupKey result with
      | Some _ => groupBy_from key (pushTo groupKey item result) rest
      | None =>
          if isInherited groupKey then None
          else groupBy_from key (pushTo groupKey item (result ++ [(groupKey, [])])) rest
      end
  end.

Definition groupBy {A : Type} (array : list A) (key : A -> string)
    : option (list (string * list A)) :=
  groupBy_from key [] array.

(** [value || 0] on the result of [parseCurrency] or a number. *)
Definition orZero (v : option number) : number :=
  match v with
  | Some n => if truthy n then n else posZero
  | None => posZero
  end.

(** [sumBy(array, key)], with [field] the property read. *)
Definition sumBy {A : Type} (array : list A) (field : A -> value) : number :=
  fold_left (fun sum item =>
               let v := match field item with
                        | Num n => Some n
                        | other => parseCurrency other
                        end in
               add sum (orZero v)) array posZero.

(** [truncateText(text, maxLength)] for a length [maxLength]; [None] is the
    [TypeError] of calling [substring] on a number. *)
Definition truncateText (text : value) (maxLength : nat) : option string :=
  match text with
  | Str s =>
      if String.eqb s EmptyString || (String.length s <=? maxLength)%nat then Some s
      else
        let truncated := substring s 0 maxLength in
        let cutPoint := match lastIndexOf truncated " " with
                        | Some (S i) => S i
                        | _ => maxLength
                        end in
        Some (substring s 0 cutPoint +:+ "...")
  | Num n => if truthy n then None else Some EmptyString
  | Null | Undefined => Some EmptyString
  end.

(** [getStateFips(stateAbbr)].  No key of the table is read through the
    prototype: an upper-cased string names no inherited property. *)
Definition getStateFips (stateAbbr : value) : option string :=
  match stateAbbr with
  | Str s =>
      if String.eqb s EmptyString then None
      else
        match STATE_FIPS_MAP !! toUpperCase s with
        | Some fips => if String.eqb fips EmptyString then None else Some fips
        | None => None
        end
  | _ => None
  end.

(** [getDistrictFromGeoid(geoid, fipsToState)] on a string, with the own
    properties of [fipsToState]; a two-character key names no inherited
    property. *)
Definition getDistrictFromGeoid (geoid : string) (fipsToState : gmap string string) : string :=
  if String.eqb geoid EmptyString || (String.length geoid <? 4)%nat then geoid
  else
    let stateFips := substring geoid 0 2 in
    let districtNum := substringFrom geoid 2 in
    match fipsToState !! stateFips with
    | Some stateAbbr =>
        if String.eqb stateAbbr EmptyString then geoid
        else stateAbbr +:+ "-" +:+ districtNum
    | None => geoid
    end.

(** [countUnique(array, key)], with [field] the property read. *)
Definition countUnique {A : Type} (array : list A) (field : A -> value) : nat :=
  length (setOf (map field array)).

End Utils.

(** ** docs/shared/js/components/choropleth-map.js *)

Module ChoroplethMap.
Import JS Constants.

(** The fields of a map instance the colour scale reads. *)
Record t : Type := { colors : Colors; steppedScale : option (list Step) }.

(** What [this.colors] is when [COLORS.choropleth[colorScale]] is one of the
    two step arrays or a property inherited from [Object.prototype]: an
    object without [zero], [low] or [high]. *)
Definition noColors : Colors := {| zero := None; low := None; high := None |}.

(** The constructor, for a [colorScale] option that is a string and no
    custom colours: the option defaults to [spending] when empty,
    [this.colors] is [COLORS.choropleth[colorScale] || spending] and
    [this.steppedScale] is [COLORS.choropleth[colorScale + 'Steps'] || null]. *)
Definition create (colorScale : string) : t :=
  let colorScale := if String.eqb colorScale EmptyString then "spending"%string else colorScale in
  {| colors :=
       if String.eqb colorScale "spending" then spending
       else if String.eqb colorScale "cancellations" then cancellations
       else if String.eqb colorScale "science" then science
       else if String.eqb colorScale "missions" then missions
       else if String.eqb colorScale "spendingSteps" || String.eqb colorScale "scienceSteps"
               || isInherited colorScale
       then noColors
       else spending;
     steppedScale :=
       if String.eqb (colorScale +:+ "Steps") "spendingSteps" then Some spendingSteps
       else if String.eqb (colorScale +:+ "Steps") "scienceSteps" then Some scienceSteps
       else None |}.

(** [a || d] for an optional string. *)
Definition orElse (a : option string) (d : string) : string :=
  match a with
  | Some EmptyString | None => d
  | Some c => c
  end.

(** The loop [for (const step of this.steppedScale)]. *)
Fixpoint firstBelow (value : number) (scale : list Step) : option string :=
  match scale with
  | [] => None
  | step :: rest =>
      if lt value (threshold step) then Some (color step) else firstBelow value rest
  end.

(** [getSteppedColor(value)]; [None] is the [TypeError] of reading the
    colour of the last entry of an empty scale. *)
Definition getSteppedColor (this : t) (value : number) : option string :=
  if negb (truthy value) || le value posZero then Some (orElse (zero (colors this)) "#f0f0f0")
  else
    match steppedScale this with
    | None => Some (orElse (high (colors this)) "#037CC2")
    | Some scale =>
        match firstBelow value scale with
        | Some c => Some c
        | None => option_map color (last scale)
        end
    end.

(** [setData(dataMap, hoverInfo, maxValue)]: the value [this.maxValue]
    receives, for a [dataMap] of numbers given by its own properties in
    creation order; [maxValue] is [None] for [null]. *)
Definition setData_maxValue (dataMap : list (string * number)) (maxValue : option number)
    : number :=
  match maxValue with
  | Some m => m
  | None =>
      let values := List.filter (fun v => gt v posZero) (map snd (entries dataMap)) in
      if (0 <? length values)%nat then mathMax values else ofZ 1
  end.

End ChoroplethMap.

(** ** docs/cancellations/js/app.js *)

Module CancellationsDashboard.
Import JS Constants Utils.

(** A row of [rawData]: the object [parseCSV] builds. *)
Abbreviation Row := (gmap string string).

(** [row[name]] *)
Definition prop (row : Row) (name : string) : value :=
  match row !! name with
  | Some s => Str s
  | None => Undefined
  end.

(** [row[name]] turned into a string, in a template literal or as a
    property key. *)
Definition text (row : Row) (name : string) : string :=
  match row !! name with
  | Some s => s
  | None => "undefined"
  end.

(** A row of [cleanedData]: [{...row, totalObligations, totalOutlays, geoid}]. *)
Record CleanRow : Type := {
  raw : Row;
  totalObligations : option number;
  totalOutlays : option number;
  geoid : option string
}.

(** The method [parseCurrency(value)].  A truthy number is returned as it
    is, [String(value)] being read back by [parseFloat]. *)
Definition parseCurrency (v : value) : option number :=
  match v with
  | Undefined | Null => None
  | Num n => if truthy n then Some n else None
  | Str EmptyString => None
  | Str s =>
      let cleaned := removeChars isCurrencyNoise s in
      let num := parseFloat cleaned in
      if isNaN num then None else Some num
  end.

(** [row['Nominal End Date'] || ''] *)
Definition endDate (row : Row) : string :=
  match row !! "Nominal End Date" with
  | Some s => s
  | None => EmptyString
  end.

Definition notTotal (row : Row) : bool :=
  negb (String.eqb (toLowerCase (endDate row)) "total").

Definition clean (row : Row) : CleanRow :=
  {| raw := row;
     totalObligations := parseCurrency (prop row "Total Obligations");
     totalOutlays := parseCurrency (prop row "Total Outlays");
     geoid := getGeoidFromDistrict (prop row "District") |}.

Definition processData (rawData : list Row) : list CleanRow :=
  List.filter (fun row => match totalObligations row with Some _ => true | None => false end)
    (map clean (List.filter notTotal rawData)).

(** [text.substring(0, n)] *)
Fixpoint substring0 (n : nat) (s : string) : string :=
  match n, s with
  | S k, String c r => String c (substring0 k r)
  | _, _ => EmptyString
  end.

(** [s.lastIndexOf(' ')], from position [i] on; [None] is -1. *)
Fixpoint lastIndexOfSpace (i : nat) (s : string) : option nat :=
  match s with
  | EmptyString => None
  | String c r =>
      match lastIndexOfSpace (S i) r with
      | Some j => Some j
      | None => if Ascii.eqb c " " then Some i else None
      end
  end.

(** The method [truncateText(text, maxLength)]. *)
Definition truncateText (v : value) (maxLength : nat) : value :=
  match v with
  | Str s =>
      if String.eqb s EmptyString || (String.length s <=? maxLength)%nat then v
      else
        let truncated := substring0 maxLength s in
        let cutPoint := match lastIndexOfSpace 0 truncated with
                        | Some (S i) => S i
                        | _ => maxLength
                        end in
        Str (substring0 cutPoint s +:+ "...")
  | _ => v
  end.

(** The value [item.geoid] or [item[name]] contributes as a group key. *)
Definition geoidKey (row : CleanRow) : string :=
  match geoid row with
  | Some g => g
  | None => "null"
  end.

Definition hasGeoid (row : CleanRow) : bool :=
  match geoid row with
  | Some g => negb (String.eqb g EmptyString)
  | None => false
  end.

Definition obligations (row : CleanRow) : value :=
  match totalObligations row with
  | Some n => Num n
  | None => Null
  end.

Definition outlays (row : CleanRow) : value :=
  match totalOutlays row with
  | Some n => Num n
  | None => Null
  end.

(** The fields [calculateDistrictData] assigns. *)
Record DistrictData : Type := {
  districtCounts : gmap string nat;
  hoverInfo : gmap string string;
  maxContracts : nat
}.

(** An element of [districtData] in [renderDistrictsTable]. *)
Record DistrictEntry : Type := {
  district : string;
  districtContractCount : nat;
  rawObligations : number;
  districtTotalObligations : string
}.

(** An element of [recipientData] in [renderRecipientsTable]. *)
Record RecipientEntry : Type := {
  recipient : string;
  recipientContractCount : nat;
  recipientTotalObligations : string
}.

Section Rendering.

Variable toFixed : number -> nat -> string.
Variable toLocaleString : number -> string.

Definition formatCurrency : value -> bool -> nat -> string :=
  Utils.formatCurrency toFixed toLocaleString.

Definition hoverLine (contract : CleanRow) : string :=
  let amt := formatCurrency (obligations contract) false 1 in
  "<b>" +:+ text (raw contract) "Recipient" +:+ "</b><br>" +:+ amt
  +:+ " (Award ID: " +:+ text (raw contract) "Award ID" +:+ ")".

(** The body of the [forEach] over [Object.entries(districtGroups)]. *)
Definition recordDistrict (this : DistrictData) (entry : string * list CleanRow)
    : DistrictData :=
  let '(geoid, contracts) := entry in
  let count := length contracts in
  let header := "<b>Number of awards: " +:+ integerToString (Z.of_nat count) +:+ "</b>" in
  let lines := map hoverLine contracts in
  {| districtCounts := <[geoid := count]> (districtCounts this);
     maxContracts := if (maxContracts this <? count)%nat then count else maxContracts this;
     hoverInfo := <[geoid := header +:+ "<br><br>" +:+ join "<br>" lines]> (hoverInfo this) |}.

Definition calculateDistrictData (cleanedData : list CleanRow) : option DistrictData :=
  match groupBy (List.filter hasGeoid cleanedData) geoidKey with
  | None => None
  | Some districtGroups =>
      Some (fold_left recordDistrict (entries districtGroups)
              {| districtCounts := ∅; hoverInfo := ∅; maxContracts := 1 |})
  end.

(** [districtData] of [renderDistrictsTable]: aggregated by district and
    sorted by total obligations, descending. *)
Definition districtData (cleanedData : list CleanRow) : option (list DistrictEntry) :=
  match groupBy cleanedData (fun row => text (raw row) "District") with
  | None => None
  | Some districtGroups =>
      Some (sort (fun a b => gt (sub (rawObligations b) (rawObligations a)) posZero)
              (map (fun entry : string * list CleanRow =>
                      let rawTotal := sumBy (snd entry) obligations in
                      {| district := fst entry;
                         districtContractCount := length (snd entry);
                         rawObligations := rawTotal;
                         districtTotalObligations := formatCurrency (Num rawTotal) false 1 |})
                 (entries districtGroups)))
  end.

(** The rows [renderDistrictsTable] hands to the table. *)
Definition renderDistrictsTable (cleanedData : list CleanRow)
    : option (list (string * nat * string)) :=
  option_map (map (fun row => (district row, districtContractCount row, districtTotalObligations row)))
    (districtData cleanedData).

(** [recipientData] of [renderRecipientsTable]: aggregated by recipient and
    sorted by number of contracts, descending.  The counts are array
    lengths, on which the subtraction of the comparison function is exact. *)
Definition recipientData (cleanedData : list CleanRow) : option (list RecipientEntry) :=
  match groupBy cleanedData (fun row => text (raw row) "Recipient") with
  | None => None
  | Some recipientGroups =>
      Some (sort (fun a b => 0 <? Z.of_nat (recipientContractCount b) - Z.of_nat (recipientContractCount a))
              (map (fun entry : string * list CleanRow =>
                      {| recipient := fst entry;
                         recipientContractCount := length (snd entry);
                         recipientTotalObligations :=
                           formatCurrency (Num (sumBy (snd entry) obligations)) false 1 |})
                 (entries recipientGroups)))
  end.

Definition renderRecipientsTable (cleanedData : list CleanRow)
    : option (list (string * nat * string)) :=
  option_map (map (fun row => (recipient row, recipientContractCount row, recipientTotalObligations row)))
    (recipientData cleanedData).

(** The rows [renderContractsTable] hands to the table. *)
Definition renderContractsTable (cleanedData : list CleanRow) : list (list value) :=
  map (fun row =>
         [ prop (raw row) "Award ID"; prop (raw row) "Source"; prop (raw row) "District";
           prop (raw row) "Recipient"; prop (raw row) "Start Date";
           prop (raw row) "Nominal End Date";
           Str (formatCurrency (obligations row) false 1);
           Str (formatCurrency (outlays row) false 1);
           truncateText (prop (raw row) "Description") 200;
           prop (raw row) "URL" ])
    cleanedData.

(** The object [getSummaryStats] returns. *)
Record SummaryStats : Type := {
  totalContracts : nat;
  summaryTotalObligations : string;
  uniqueRecipients : nat;
  uniqueDistricts : nat
}.

Definition getSummaryStats (cleanedData : list CleanRow) : SummaryStats :=
  {| totalContracts := length cleanedData;
     summaryTotalObligations := formatCurrency (Num (sumBy cleanedData obligations)) true 1;
     uniqueRecipients := countUnique cleanedData (fun row => prop (raw row) "Recipient");
     uniqueDistricts := countUnique cleanedData (fun row => prop (raw row) "District") |}.

End Rendering.

End CancellationsDashboard.

(** ** The NASA science dashboard

    The class [NASAScienceDashboard] in the version that names the fiscal
    years 2022 to 2024 in [processData]. *)

Module NASAScienceDashboard.
Import JS Constants Utils.

(** A row of [districtRawData]: the object [parseCSV] builds. *)
Abbreviation Row := (gmap string string).

(** [parseFloat(row[name]) || 0]; a missing column reads [undefined], which
    [parseFloat] turns into NaN. *)
Definition amount (row : Row) (name : string) : number :=
  let n := match row !! name with
           | Some s => parseFloat s
           | None => S754_nan
           end in
  if truthy n then n else posZero.

(** An element of [districtData]. *)
Record DistrictRow : Type := {
  state : value;
  district : value;
  fy2024 : number;
  fy2023 : number;
  fy2022 : number;
  average : number;
  geoid : option string
}.

(** The callback of [districtRawData.map] in [processData]. *)
Definition districtRow (row : Row) : DistrictRow :=
  let fy2024 := amount row "fy_2024_obligations" in
  let fy2023 := amount row "fy_2023_obligations" in
  let fy2022 := amount row "fy_2022_obligations" in
  let average := div (add (add fy2024 fy2023) fy2022) (ofZ 3) in
  let geoid := getGeoidFromDistrict (CancellationsDashboard.prop row "district") in
  {| state := CancellationsDashboard.prop row "state";
     district := CancellationsDashboard.prop row "district";
     fy2024 := fy2024; fy2023 := fy2023; fy2022 := fy2022;
     average := average;
     geoid := geoid |}.

(** [row.geoid] as a condition: [null] and the empty string are falsy. *)
Definition hasGeoid (row : DistrictRow) : bool :=
  match geoid row with
  | Some g => negb (String.eqb g EmptyString)
  | None => false
  end.

(** [processData()]: the value [this.districtData] receives. *)
Definition processData (districtRawData : list Row) : list DistrictRow :=
  List.filter hasGeoid (map districtRow districtRawData).

(** [buildDistrictMapData()]: the value [this.districtDataMap] receives. *)
Definition buildDistrictMapData (districtData : list DistrictRow) : gmap string number :=
  fold_left (fun districtDataMap row =>
               match geoid row with
               | Some g =>
                   if negb (String.eqb g EmptyString)
                   then <[g := average row]> districtDataMap
                   else districtDataMap
               | None => districtDataMap
               end) districtData ∅.

End NASAScienceDashboard.

(** ** .github/workflows/sync-spending-data.yml (Python) *)

Module SyncSpendingData.
Import JS Constants.

(** White space as [int] strips it: tab to carriage return and space, and
    the next-line and no-break-space characters, which [int] turns into
    spaces first. *)
Definition isSpace (c : ascii) : bool :=
  ((9 <=? code c) && (code c <=? 13) || (code c =? 32) || (code c =? 133) || (code c =? 160))%N.

Fixpoint lstrip (s : string) : string :=
  match s with
  | String c r => if isSpace c then lstrip r else s
  | EmptyString => EmptyString
  end.

Fixpoint rstrip (s : string) : string :=
  match s with
  | EmptyString => EmptyString
  | String c r =>
      match rstrip r with
      | EmptyString => if isSpace c then EmptyString else String c EmptyString
      | r' => String c r'
      end
  end.

(** Decimal digits, with single underscores between digits. *)
Fixpoint intDigits (s : string) (acc : N) (afterDigit : bool) : option N :=
  match s with
  | EmptyString => if afterDigit then Some acc else None
  | String c r =>
      if isDigit c then intDigits r (10 * acc + digitValue c)%N true
      else if Ascii.eqb c "_" && afterDigit then intDigits r acc false
      else None
  end.

(** [int(s)]; [None] is [ValueError]. *)
Definition int (s : string) : option Z :=
  let '(neg, body) := spanSign (rstrip (lstrip s)) in
  match intDigits body 0%N false with
  | Some n => Some (if neg then - Z.of_N n else Z.of_N n)
  | None => None
  end.

(** The format [{:02d}]. *)
Definition format_02d (z : Z) : string :=
  if z <? 0 then String "-" (padStart 1 "0" (numeralOf (Z.abs_N z)))
  else padStart 2 "0" (numeralOf (Z.abs_N z)).

Definition get_geoid_from_district (district_str : value) : option string :=
  match district_str with
  | Str s =>
      if negb (includes s "-") then None
      else
        match split "-" s with
        | part0 :: part1 :: _ =>
            let state_abbr := toUpperCase part0 in
            let district_num_str := toUpperCase part1 in
            match STATE_FIPS_MAP !! state_abbr with
            | None => None
            | Some state_fips =>
                if String.eqb state_fips EmptyString then None
                else if String.eqb district_num_str "ZZ" then Some (state_fips +:+ "ZZ")
                else
                  match int district_num_str with
                  | Some n => Some (state_fips +:+ format_02d n)
                  | None => None
                  end
            end
        | _ => None
        end
  | _ => None
  end.

(** [df_cleaned]: the rows before the first one whose end date is Total,
    or all rows when there is none.  A missing cell reads nan, which is not
    Total either. *)
Fixpoint df_cleaned (df : list (gmap string string)) : list (gmap string string) :=
  match df with
  | [] => []
  | row :: rest =>
      if String.eqb (CancellationsDashboard.endDate row) "Total" then []
      else row :: df_cleaned rest
  end.

(** *** Colour scale *)

Definition hexDigitValue (c : ascii) : option Z :=
  if isDigit c then Some (Z.of_N (code c - 48))
  else if ((97 <=? code c) && (code c <=? 102))%N then Some (Z.of_N (code c - 87))
  else if ((65 <=? code c) && (code c <=? 70))%N then Some (Z.of_N (code c - 55))
  else None.

(** [int(s, 16)] on two hexadecimal digits. *)
Definition int16 (c d : ascii) : option Z :=
  match hexDigitValue c, hexDigitValue d with
  | Some h, Some l => Some (16 * h + l)
  | _, _ => None
  end.

Fixpoint lstripHash (s : string) : string :=
  match s with
  | String c r => if Ascii.eqb c "#" then lstripHash r else s
  | EmptyString => EmptyString
  end.

Definition hex_to_rgb (hex_color : string) : option (Z * Z * Z) :=
  match lstripHash hex_color with
  | String r1 (String r2 (String g1 (String g2 (String b1 (String b2 _))))) =>
      match int16 r1 r2, int16 g1 g2, int16 b1 b2 with
      | Some r, Some g, Some b => Some (r, g, b)
      | _, _, _ => None
      end
  | _ => None
  end.

Definition hexChar (d : N) : ascii :=
  if (d <? 10)%N then ascii_of_N (48 + d) else ascii_of_N (87 + d).

Fixpoint hexDigitsOf (fuel : nat) (n : N) (acc : string) : string :=
  match fuel with
  | O => acc
  | S f =>
      let acc' := String (hexChar (n mod 16)) acc in
      if (n <? 16)%N then acc' else hexDigitsOf f (n / 16) acc'
  end.

(** The format [{:02x}]. *)
Definition format_02x (z : Z) : string :=
  let digits := hexDigitsOf (S (N.to_nat (N.log2 (Z.abs_N z)))) (Z.abs_N z) EmptyString in
  if z <? 0 then String "-" (padStart 1 "0" digits) else padStart 2 "0" digits.

Definition rgb_to_hex (rgb_tuple : Z * Z * Z) : string :=
  let '(r, g, b) := rgb_tuple in
  "#" +:+ format_02x r +:+ format_02x g +:+ format_02x b.

Definition color_zero : Z * Z * Z := (255, 255, 255).
Definition color_one : Z * Z * Z := (209, 150, 144).
Definition color_max : Z * Z * Z := (156, 26, 14).

Definition channel (i : nat) (rgb : Z * Z * Z) : Z :=
  let '(r, g, b) := rgb in
  match i with
  | O => r
  | S O => g
  | _ => b
  end.

(** A Python number: an [int] or a [float]. *)
Inductive pynum : Type :=
| PyInt (z : Z)
| PyFloat (x : number).

(** An [int] as an exact operand of true division. *)
Definition exact (z : Z) : number :=
  match z with
  | Z0 => S754_zero false
  | Zpos p => S754_finite false p 0
  | Zneg p => S754_finite true p 0
  end.

(** [a / b] on [int]s: the quotient, correctly rounded; [None] is the
    error raised when [b] is zero or the quotient is too large for a
    [float]. *)
Definition true_div (a b : Z) : option number :=
  match div (exact a) (exact b) with
  | S754_infinity _ | S754_nan => None
  | q => Some q
  end.

(** [min(1, t)] and [max(0, t)]: the first argument unless the second is
    smaller, respectively larger. *)
Definition min_1 (t : pynum) : pynum :=
  match t with
  | PyInt z => if z <? 1 then t else PyInt 1
  | PyFloat x => if lt x (ofZ 1) then t else PyInt 1
  end.

Definition max_0 (t : pynum) : pynum :=
  match t with
  | PyInt z => if 0 <? z then t else PyInt 0
  | PyFloat x => if gt x posZero then t else PyInt 0
  end.

Definition mul_int (d : Z) (t : pynum) : pynum :=
  match t with
  | PyInt z => PyInt (d * z)
  | PyFloat x => PyFloat (mul (ofZ d) x)
  end.

Definition add_int (c : Z) (t : pynum) : pynum :=
  match t with
  | PyInt z => PyInt (c + z)
  | PyFloat x => PyFloat (add (ofZ c) x)
  end.

(** [round(x)] on a [float]: the nearest integer, ties to even; [None] is
    the error raised on an infinity or a NaN. *)
Definition round_float (x : number) : option Z :=
  match x with
  | S754_zero _ => Some 0
  | S754_finite s m e =>
      let a := match e with
               | Zneg k =>
                   let q := Z.pos m / 2 ^ Z.pos k in
                   let r := Z.pos m mod 2 ^ Z.pos k in
                   match 2 * r ?= 2 ^ Z.pos k with
                   | Lt => q
                   | Gt => q + 1
                   | Eq => if Z.even q then q else q + 1
                   end
               | _ => Z.pos m * 2 ^ e
               end in
      Some (if s then - a else a)
  | _ => None
  end.

Definition round (t : pynum) : option Z :=
  match t with
  | PyInt z => Some z
  | PyFloat x => round_float x
  end.

(** [color_one[i] + (color_max[i] - color_one[i]) * t] *)
Definition interpolate (i : nat) (t : pynum) : pynum :=
  add_int (channel i color_one) (mul_int (channel i color_max - channel i color_one) t).

(** [t = max(0, min(1, t))] *)
Definition clamp (t : pynum) : pynum := max_0 (min_1 t).

(** [get_choropleth_color(count, max_count)] on [int]s; [None] is an error
    raised by the division or by [round]. *)
Definition get_choropleth_color (count max_count : Z) : option string :=
  if count <=? 0 then Some (rgb_to_hex color_zero)
  else if count =? 1 then Some (rgb_to_hex color_one)
  else if max_count <=? 1 then Some (rgb_to_hex color_one)
  else
    match true_div (count - 1) (max_count - 1) with
    | None => None
    | Some q =>
        let t := clamp (PyFloat q) in
        match round (interpolate 0 t), round (interpolate 1 t), round (interpolate 2 t) with
        | Some r, Some g, Some b => Some (rgb_to_hex (r, g, b))
        | _, _, _ => None
        end
    end.

End SyncSpendingData.

(** ** Specification vocabulary *)

Module Spec.
Import JS Constants Utils.

(** Number of occurrences of a character (the separators of a district
    string). *)
Fixpoint countChar (c : ascii) (s : string) : nat :=
  match s with
  | EmptyString => O
  | String d r => if Ascii.eqb d c then S (countChar c r) else countChar c r
  end.

(** SS of a district string: one of the 56 abbreviations, in any case. *)
Definition isKnownState (ss : string) : bool :=
  match STATE_FIPS_MAP !! toUpperCase ss with
  | Some _ => true
  | None => false
  end.

(** DD of a district string: the numeral of an integer in [0,99], or the
    literal ZZ in any case. *)
Definition isDistrictNumber (dd : string) : bool :=
  String.eqb (toUpperCase dd) "ZZ"
  || (isNumeral dd && (decimalValue dd <=? 99)%N).

(** A district string of the form SS-DD. *)
Definition isValidDistrict (s : string) : bool :=
  match split "-" s with
  | [ss; dd] => isKnownState ss && isDistrictNumber dd
  | _ => false
  end.

(** The two-digit, zero-padded numeral of an integer below 100. *)
Definition twoDigits (n : N) : string :=
  String (digitChar (n / 10)) (String (digitChar (n mod 10)) EmptyString).

(** The last two characters of the GEOID of a valid district string. *)
Definition districtSuffix (dd : string) : string :=
  if String.eqb (toUpperCase dd) "ZZ" then "ZZ" else twoDigits (decimalValue dd).









(** The position of the first entry of a scale whose threshold strictly
    exceeds the value. *)
Fixpoint firstBelowIndex (value : number) (scale : list Step) : option nat :=
  match scale with
  | [] => None
  | step :: rest =>
      if lt value (threshold step) then Some O
      else option_map S (firstBelowIndex value rest)
  end.




(** The rule for positive values as the specification words it: on a scale
    whose last threshold is positive infinity, every positive value gets
    the colour of the first entry whose threshold strictly exceeds it. *)
Definition positive_gets_first_exceeding : Prop :=
  forall (this : ChoroplethMap.t) (scale : list Step) (v : number),
    ChoroplethMap.steppedScale this = Some scale ->
    (exists step, last scale = Some step /\ threshold step = Infinity) ->
    gt v posZero = true ->
    exists i step,
      scale !! i = Some step /\ lt v (threshold step) = true /\
      (forall j step', (j < i)%nat -> scale !! j = Some step' -> lt v (threshold step') = false) /\
      ChoroplethMap.getSteppedColor this v = Some (color step).

(** *** Grouping *)

(** The items of an array that carry a given key, in array order. *)
Definition groupOf {A : Type} (key : A -> string) (k : string) (array : list A) : list A :=
  List.filter (fun item => String.eqb (key item) k) array.

(** The distinct keys of a sequence, in order of first occurrence. *)
Fixpoint firstKeys (keys : list string) : list string :=
  match keys with
  | [] => []
  | k :: r => k :: List.filter (fun x => negb (String.eqb x k)) (firstKeys r)
  end.

Definition hasKey (k : string) (keys : list string) : bool :=
  existsb (String.eqb k) keys.

(** The groups of an array: one per distinct key, in order of first
    occurrence, each with its items in array order. *)
Definition groupsOf {A : Type} (key : A -> string) (array : list A) : list (string * list A) :=
  map (fun k => (k, groupOf key k array)) (firstKeys (map key array)).

(** No item has a key that names a property inherited from
    [Object.prototype]. *)
Definition safeKeys {A : Type} (key : A -> string) (array : list A) : bool :=
  forallb (fun item => negb (isInherited (key item))) array.

(** The records whose [geoid] field is the GEOID [g], in data order, and
    their number; no record belongs to the empty GEOID. *)
Definition geoidRows (g : string) (data : list CancellationsDashboard.CleanRow)
    : list CancellationsDashboard.CleanRow :=
  List.filter (fun row => match CancellationsDashboard.geoid row with
                          | Some g' => String.eqb g' g && negb (String.eqb g EmptyString)
                          | None => false
                          end) data.

Definition geoidCount (g : string) (data : list CancellationsDashboard.CleanRow) : nat :=
  length (geoidRows g data).

(** The keys of the district and recipient groupings. *)
Definition districtKey (row : CancellationsDashboard.CleanRow) : string :=
  CancellationsDashboard.text (CancellationsDashboard.raw row) "District".

Definition recipientKey (row : CancellationsDashboard.CleanRow) : string :=
  CancellationsDashboard.text (CancellationsDashboard.raw row) "Recipient".

(** The obligation sum of the records of a key, added in array order. *)
Definition sumOf (key : CancellationsDashboard.CleanRow -> string) (k : string)
    (data : list CancellationsDashboard.CleanRow) : number :=
  Utils.sumBy (groupOf key k data) CancellationsDashboard.obligations.

(** The per-key mappings a table carries, as lists of pairs. *)
Definition districtCountsOf (table : option (list CancellationsDashboard.DistrictEntry))
    : list (string * nat) :=
  match table with
  | Some l => map (fun e => (CancellationsDashboard.district e,
                             CancellationsDashboard.districtContractCount e)) l
  | None => []
  end.

Definition districtSumsOf (table : option (list CancellationsDashboard.DistrictEntry))
    : list (string * number) :=
  match table with
  | Some l => map (fun e => (CancellationsDashboard.district e,
                             CancellationsDashboard.rawObligations e)) l
  | None => []
  end.

Definition recipientCountsOf (table : option (list CancellationsDashboard.RecipientEntry))
    : list (string * nat) :=
  match table with
  | Some l => map (fun e => (CancellationsDashboard.recipient e,
                             CancellationsDashboard.recipientContractCount e)) l
  | None => []
  end.

Definition recipientTotalsOf (table : option (list CancellationsDashboard.RecipientEntry))
    : list (string * string) :=
  match table with
  | Some l => map (fun e => (CancellationsDashboard.recipient e,
                             CancellationsDashboard.recipientTotalObligations e)) l
  | None => []
  end.

(** Two lists of pairs that are the same mapping. *)
Definition sameMapping {K V : Type} (m m' : list (K * V)) : Prop :=
  forall k v, In (k, v) m <-> In (k, v) m'.

(** The groups [groupBy_from] returns, from the groups [result] built so
    far: the old groups extended, then the groups of the new keys. *)
Definition extendGroups {A : Type} (key : A -> string) (result : list (string * list A))
    (array : list A) : list (string * list A) :=
  map (fun g => (fst g, snd g ++ groupOf key (fst g) array)) result
  ++ map (fun k => (k, groupOf key k array))
       (List.filter (fun k => negb (hasKey k (map fst result))) (firstKeys (map key array))).

Definition isIndexKey {V : Type} (kv : string * V) : bool :=
  match arrayIndex (fst kv) with Some _ => true | None => false end.

Definition relabel {V W : Type} (f : string * V -> W) (kv : string * V) : string * W :=
  (fst kv, f kv).

Definition emptyDistrictData : CancellationsDashboard.DistrictData :=
  {| CancellationsDashboard.districtCounts := ∅;
     CancellationsDashboard.hoverInfo := ∅;
     CancellationsDashboard.maxContracts := 1 |}.

Section TableEntries.
Import CancellationsDashboard.

Variable toFixed : number -> nat -> string.
Variable toLocaleString : number -> string.

(** The table entry of a group, and the tests of the two comparison
    functions. *)
Definition districtEntryOf (entry : string * list CleanRow) : DistrictEntry :=
  {| district := fst entry;
     districtContractCount := length (snd entry);
     rawObligations := sumBy (snd entry) obligations;
     districtTotalObligations :=
       formatCurrency toFixed toLocaleString (Num (sumBy (snd entry) obligations)) false 1 |}.

Definition recipientEntryOf (entry : string * list CleanRow) : RecipientEntry :=
  {| recipient := fst entry;
     recipientContractCount := length (snd entry);
     recipientTotalObligations :=
       formatCurrency toFixed toLocaleString (Num (sumBy (snd entry) obligations)) false 1 |}.

Definition districtAfter (a b : DistrictEntry) : bool :=
  gt (sub (rawObligations b) (rawObligations a)) posZero.

Definition recipientAfter (a b : RecipientEntry) : bool :=
  0 <? Z.of_nat (recipientContractCount b) - Z.of_nat (recipientContractCount a).

End TableEntries.

(** The full rendering of an amount as the specification has it: N/A for
    an amount that is missing, not a number or negative, $0 for zero, and a
    dollar sign followed by the amount in the whole-number format of the
    host for a positive one. *)
Definition fullAmount (toLocaleString : number -> string) (v : option number) : string :=
  match v with
  | Some n =>
      if gt n posZero then "$" +:+ toLocaleString n
      else if strictEq n posZero then "$0"
      else "N/A"
  | None => "N/A"
  end.




(** Two numbers that are the same binary64 value. *)
Definition sameNumber (x y : number) : bool :=
  match x, y with
  | S754_zero a, S754_zero b => Bool.eqb a b
  | S754_infinity a, S754_infinity b => Bool.eqb a b
  | S754_nan, S754_nan => true
  | S754_finite a m e, S754_finite b m' e' => Bool.eqb a b && Pos.eqb m m' && Z.eqb e e'
  | _, _ => false
  end.

(** A raw row with the columns the aggregation reads. *)
Definition sampleRow (district recipient obligations endDate : string) : gmap string string :=
  <["District" := district]> (<["Recipient" := recipient]>
    (<["Total Obligations" := obligations]> (<["Nominal End Date" := endDate]> ∅))).

(** Commutativity of the aggregation as the specification words it: a
    permutation of the records leaves every per-key count and sum
    unchanged. *)
Definition aggregation_commutes : Prop :=
  forall (toFixed : number -> nat -> string) (toLocaleString : number -> string)
         (data data' : list CancellationsDashboard.CleanRow),
    Permutation data data' ->
    option_map CancellationsDashboard.districtCounts
      (CancellationsDashboard.calculateDistrictData toFixed toLocaleString data)
    = option_map CancellationsDashboard.districtCounts
        (CancellationsDashboard.calculateDistrictData toFixed toLocaleString data') /\
    sameMapping
      (districtCountsOf (CancellationsDashboard.districtData toFixed toLocaleString data))
      (districtCountsOf (CancellationsDashboard.districtData toFixed toLocaleString data')) /\
    sameMapping
      (districtSumsOf (CancellationsDashboard.districtData toFixed toLocaleString data))
      (districtSumsOf (CancellationsDashboard.districtData toFixed toLocaleString data')) /\
    sameMapping
      (recipientCountsOf (CancellationsDashboard.recipientData toFixed toLocaleString data))
      (recipientCountsOf (CancellationsDashboard.recipientData toFixed toLocaleString data')).


(** A row whose end-date field reads Total, compared case-insensitively. *)
Definition isTotalRow (row : gmap string string) : bool :=
  String.eqb (toLowerCase (CancellationsDashboard.endDate row)) (toLowerCase "Total").

(** The exclusion of total rows as the specification words it, for the two
    programs that clean the data: no row that reads Total in any case
    survives. *)
Definition total_rows_excluded : Prop :=
  (forall rawData row, In row (CancellationsDashboard.processData rawData) ->
     isTotalRow (CancellationsDashboard.raw row) = false) /\
  (forall df row, In row (SyncSpendingData.df_cleaned df) -> isTotalRow row = false).

(** *** Delimited text *)










(** The mapping of a data line: the object [parseCSV] fills from the
    headers and the fields of the line. *)
Definition rowOf (headers values : list string) : gmap string string :=
  Utils.fillRow headers 0 values ∅.




(** ** Binary64 magnitudes and the colour scale *)






(** *** Rounding and real values *)




(** The real number a float stands for (0 for what is not finite). *)
Definition valueOf (x : number) : R :=
  match x with
  | S754_finite s m e => (IZR (cond_Zopp s (Z.pos m)) * powerRZ 2 e)%R
  | _ => 0%R
  end.



End Spec.

(** ** Notions of the sums *)

Module Notions.
Import JS Constants Utils.

(** What an item adds to the sum of [sumBy]: its number, or 0 when the
    value is missing, not numeric or zero. *)
Definition addend {A : Type} (field : A -> value) (item : A) : number :=
  orZero (match field item with
          | Num n => Some n
          | other => parseCurrency other
          end).

(** An item that adds +0. *)
Definition addsNothing {A : Type} (field : A -> value) (item : A) : bool :=
  match addend field item with
  | S754_zero false => true
  | _ => false
  end.

(** The same number, the two zeros taken as one. *)
Definition alike (x y : number) : Prop :=
  x = y \/ (exists a b, x = S754_zero a /\ y = S754_zero b).

End Notions.

(** * Properties *)

Import JS Constants Utils Spec.

Example geoid_CA_37 : getGeoidFromDistrict (Str "CA-37") = Some "0637"%string.
Proof. vm_compute. reflexivity. Qed.

(** ** Strings: concatenation, splitting and scanning *)

Section StringFacts.

Lemma append_nil s : EmptyString +:+ s = s.
Proof. reflexivity. Qed.

Lemma append_cons c a b : String c a +:+ b = String c (a +:+ b).
Proof. reflexivity. Qed.

Lemma append_nil_r s : s +:+ EmptyString = s.
Proof. induction s as [|c r IH]; [reflexivity|]. rewrite append_cons, IH. reflexivity. Qed.

Lemma append_assoc a b c : (a +:+ b) +:+ c = a +:+ (b +:+ c).
Proof. induction a as [|d r IH]; [reflexivity|]. rewrite !append_cons, IH. reflexivity. Qed.

Lemma append_length a b : String.length (a +:+ b) = (String.length a + String.length b)%nat.
Proof. induction a as [|d r IH]; [reflexivity|]. rewrite append_cons. simpl. now rewrite IH. Qed.

Lemma mapChars_length f s : String.length (mapChars f s) = String.length s.
Proof. induction s; simpl; congruence. Qed.

Lemma includes_countChar s c : includes s c = negb (Nat.eqb (countChar c s) 0).
Proof.
  induction s as [|d r IH]; simpl; [reflexivity|].
  destruct (Ascii.eqb d c); simpl; [reflexivity | exact IH].
Qed.

Lemma split_nonempty c s : split c s <> [].
Proof.
  destruct s as [|d r]; simpl; [discriminate|].
  destruct (Ascii.eqb d c); [discriminate|].
  destruct (split c r); discriminate.
Qed.

Lemma split_length c s : length (split c s) = S (countChar c s).
Proof.
  induction s as [|d r IH]; simpl; [reflexivity|].
  destruct (Ascii.eqb d c); simpl; [now rewrite IH|].
  destruct (split c r) as [|h t] eqn:E; [now apply split_nonempty in E|].
  simpl in *. exact IH.
Qed.

Lemma split_without c s : includes s c = false -> split c s = [s].
Proof.
  induction s as [|d r IH]; simpl; [reflexivity|].
  destruct (Ascii.eqb d c); simpl; [discriminate|].
  intros H. now rewrite (IH H).
Qed.

Lemma split_app c a b :
  includes a c = false -> split c (a +:+ String c b) = a :: split c b.
Proof.
  induction a as [|d r IH]; rewrite ?append_nil, ?append_cons; simpl.
  - intros _. now rewrite Ascii.eqb_refl.
  - destruct (Ascii.eqb d c); simpl; [discriminate|].
    intros H. now rewrite (IH H).
Qed.

Lemma split_one_inv c s p : split c s = [p] -> s = p /\ includes s c = false.
Proof.
  intros H. pose proof (split_length c s) as HL. rewrite H in HL. simpl in HL.
  assert (Hi : includes s c = false)
    by (rewrite includes_countChar; destruct (countChar c s); [reflexivity | discriminate]).
  rewrite (split_without _ _ Hi) in H. now injection H.
Qed.

Lemma split_two_inv c s p q :
  split c s = [p; q] ->
  s = p +:+ String c q /\ includes p c = false /\ includes q c = false.
Proof.
  revert p q. induction s as [|d r IH]; simpl; intros p q; [discriminate|].
  destruct (Ascii.eqb_spec d c) as [->|Hne].
  - intros [= <- Hq]. apply split_one_inv in Hq as [-> Hq].
    rewrite append_nil. now repeat split.
  - destruct (split c r) as [|h t] eqn:E; [intros [= <- <-]|].
    intros [= <- ->]. destruct (IH h q eq_refl) as (-> & Hp & Hq).
    rewrite append_cons. split; [reflexivity|]. split; [|exact Hq].
    simpl. destruct (Ascii.eqb_spec d c); [contradiction | exact Hp].
Qed.

End StringFacts.

(** ** Binary64 arithmetic *)

Section Binary64.

Lemma iter_pos_invariant {A : Type} (P : A -> Prop) (f : A -> A) :
  (forall x, P x -> P (f x)) -> forall p x, P x -> P (SpecFloat.iter_pos f p x).
Proof. intros Hf. induction p as [p IH|p IH|]; simpl; auto. Qed.

Lemma shr_1_nonneg mrs : 0 <= shr_m mrs -> 0 <= shr_m (shr_1 mrs).
Proof. destruct mrs as [m r s]. destruct m as [|[p|p|]|[p|p|]]; simpl; lia. Qed.

Lemma shr_nonneg mrs e n : 0 <= shr_m mrs -> 0 <= shr_m (fst (shr mrs e n)).
Proof.
  intros H. unfold shr. destruct n; simpl; try assumption.
  now apply (iter_pos_invariant (fun x => 0 <= shr_m x)); [apply shr_1_nonneg|].
Qed.

Lemma shr_fexp_nonneg p x m e l : 0 <= m -> 0 <= shr_m (fst (shr_fexp p x m e l)).
Proof.
  intros H. unfold shr_fexp. apply shr_nonneg.
  destruct l as [|[]]; simpl; assumption.
Qed.

Lemma round_nearest_even_nonneg m l : 0 <= m -> 0 <= round_nearest_even m l.
Proof.
  intros H. unfold round_nearest_even.
  destruct l as [|[]]; try lia. destruct (Z.even m); lia.
Qed.

Lemma binary_round_aux_not_nan p x sx mx ex lx :
  0 <= mx -> isNaN (binary_round_aux p x sx mx ex lx) = false.
Proof.
  intros H. unfold binary_round_aux.
  pose proof (shr_fexp_nonneg p x mx ex lx H) as H1.
  destruct (shr_fexp p x mx ex lx) as [mrs' e']. simpl in H1.
  pose proof (round_nearest_even_nonneg (shr_m mrs') (loc_of_shr_record mrs') H1) as H2.
  pose proof (shr_fexp_nonneg p x _ e' loc_Exact H2) as H3.
  destruct (shr_fexp p x (round_nearest_even (shr_m mrs') (loc_of_shr_record mrs')) e' loc_Exact)
    as [mrs'' e'']. simpl in H3.
  destruct (shr_m mrs''); [reflexivity | | lia].
  destruct (e'' <=? x - p); reflexivity.
Qed.

Ltac compare_cases :=
  repeat match goal with
    | H : context [Z.compare ?a ?b] |- _ => destruct (Z.compare_spec a b); simpl in H
    | H : context [Pos.compare ?a ?b] |- _ => destruct (Pos.compare_spec a b); simpl in H
    | |- context [Z.compare ?a ?b] => destruct (Z.compare_spec a b); simpl
    | |- context [Pos.compare ?a ?b] => destruct (Pos.compare_spec a b); simpl
    end;
  try discriminate; try reflexivity; try lia.


Lemma le_trans x y z : le x y = true -> le y z = true -> le x z = true.
Proof.
  unfold le, SFleb, SFcompare.
  destruct x as [[]|[]| |[] mx ex], y as [[]|[]| |[] my ey], z as [[]|[]| |[] mz ez];
    simpl; try discriminate; try reflexivity;
    change (Pos.compare_cont Eq) with Pos.compare; intros H1 H2; compare_cases.
Qed.

Lemma div_eucl_div_mod a b : Z.div_eucl a b = (a / b, a mod b).
Proof. unfold Z.div, Z.modulo. now destruct (Z.div_eucl a b). Qed.

Lemma SFdiv_finite_not_nan p x sx mx ex sy my ey :
  isNaN (SFdiv p x (S754_finite sx mx ex) (S754_finite sy my ey)) = false.
Proof.
  unfold SFdiv, SFdiv_core_binary. rewrite div_eucl_div_mod.
  apply binary_round_aux_not_nan. apply Z.div_pos; [|lia].
  destruct (ex - ey - _) eqn:E; try lia. apply Z.shiftl_nonneg. lia.
Qed.

Lemma binary_normalize_not_nan p x m e sz : isNaN (binary_normalize p x m e sz) = false.
Proof.
  unfold binary_normalize, binary_round. destruct m as [|q|q]; [reflexivity | |].
  - destruct (shl_align q e _). now apply binary_round_aux_not_nan.
  - destruct (shl_align q e _). now apply binary_round_aux_not_nan.
Qed.

Lemma ofDecimal_not_nan neg m e : isNaN (ofDecimal neg m e) = false.
Proof.
  unfold ofDecimal. destruct m as [|q]; [reflexivity|].
  destruct e; try apply binary_normalize_not_nan. apply SFdiv_finite_not_nan.
Qed.

Lemma ofZ_not_nan z : isNaN (ofZ z) = false.
Proof. apply binary_normalize_not_nan. Qed.

End Binary64.

(** ** GEOID derivation *)

Section Geoid.

Lemma STATE_FIPS_MAP_lookup k v :
  STATE_FIPS_MAP !! k = Some v -> (k, v) ∈ STATE_FIPS_entries.
Proof. apply elem_of_list_to_map_2. Qed.

Lemma STATE_FIPS_count : length STATE_FIPS_entries = 56%nat /\ NoDup (map fst STATE_FIPS_entries).
Proof. split; [reflexivity|]. apply (bool_decide_unpack _). vm_compute. reflexivity. Qed.

Lemma STATE_FIPS_values k v :
  STATE_FIPS_MAP !! k = Some v ->
  String.length v = 2%nat /\ allDigits v = true /\ includes k "-" = false.
Proof.
  intros H%STATE_FIPS_MAP_lookup.
  assert (Hall : Forall (fun kv : string * string =>
            String.length kv.2 = 2%nat /\ allDigits kv.2 = true /\ includes kv.1 "-" = false)
            STATE_FIPS_entries) by (repeat constructor).
  rewrite Forall_forall in Hall. exact (Hall _ H).
Qed.

Lemma toUpperChar_class c :
  isWhiteSpace (toUpperChar c) = isWhiteSpace c /\
  isDigit (toUpperChar c) = isDigit c /\
  Ascii.eqb (toUpperChar c) "-" = Ascii.eqb c "-" /\
  Ascii.eqb (toUpperChar c) "+" = Ascii.eqb c "+".
Proof. destruct c as [[] [] [] [] [] [] [] []]; vm_compute; repeat split. Qed.

Lemma isDigit_class c :
  isDigit c = true ->
  toUpperChar c = c /\ isWhiteSpace c = false /\ Ascii.eqb c "-" = false /\ Ascii.eqb c "+" = false.
Proof. destruct c as [[] [] [] [] [] [] [] []]; vm_compute; intros; repeat split; congruence. Qed.

Lemma includes_toUpperCase s : includes (toUpperCase s) "-" = includes s "-".
Proof.
  induction s as [|c r IH]; [reflexivity|]. simpl.
  destruct (toUpperChar_class c) as (_ & _ & -> & _). now rewrite <- IH.
Qed.

Lemma toUpperCase_digits ds : allDigits ds = true -> toUpperCase ds = ds.
Proof.
  induction ds as [|c r IH]; [reflexivity|]. simpl.
  intros [Hc Hr]%andb_prop. destruct (isDigit_class c Hc) as (Hu & _).
  unfold toUpperCase in *. simpl. rewrite Hu, (IH Hr). reflexivity.
Qed.

Lemma spanDigits_all ds : allDigits ds = true -> spanDigits ds = (ds, EmptyString).
Proof.
  induction ds as [|c r IH]; [reflexivity|]. simpl.
  intros [Hc Hr]%andb_prop. rewrite Hc, (IH Hr). reflexivity.
Qed.

Lemma parseInt_numeral ds :
  isNumeral ds = true -> parseInt ds = Some (Z.of_N (decimalValue ds)).
Proof.
  unfold isNumeral. intros [Hne Hall]%andb_prop.
  destruct ds as [|c r]; [discriminate|].
  pose proof Hall as Hall'. simpl in Hall'. apply andb_prop in Hall' as [Hc _].
  destruct (isDigit_class c Hc) as (_ & Hw & Hm & Hp).
  unfold parseInt. simpl trimStart. rewrite Hw.
  assert (Hs : spanSign (String c r) = (false, String c r)).
  { unfold spanSign. destruct (Ascii.eqb_spec c "-") as [->|]; [discriminate|].
    destruct (Ascii.eqb_spec c "+") as [->|]; [discriminate|].
    destruct c as [[] [] [] [] [] [] [] []]; try reflexivity; congruence. }
  rewrite Hs, (spanDigits_all _ Hall). reflexivity.
Qed.



Lemma padStart_twoDigits n :
  (n <= 99)%N -> padStart 2 "0" (integerToString (Z.of_N n)) = twoDigits n.
Proof.
  intros Hn.
  assert (Hall : forallb (fun k => String.eqb
                   (padStart 2 "0" (integerToString (Z.of_N (N.of_nat k))))
                   (twoDigits (N.of_nat k))) (seq 0 100) = true)
    by (vm_compute; reflexivity).
  rewrite forallb_forall in Hall.
  specialize (Hall (N.to_nat n)). rewrite N2Nat.id in Hall.
  apply String.eqb_eq, Hall, in_seq. lia.
Qed.

(** The body of [getGeoidFromDistrict] once the string has split in two. *)
Lemma getGeoidFromDistrict_two s ss dd :
  split "-" s = [ss; dd] ->
  getGeoidFromDistrict (Str s) =
    match STATE_FIPS_MAP !! toUpperCase ss with
    | None => None
    | Some stateFips =>
        if String.eqb (toUpperCase dd) "ZZ" || String.eqb (toUpperCase dd) "00"
        then Some (stateFips +:+ toUpperCase dd)
        else match parseInt (toUpperCase dd) with
             | None => None
             | Some parsed => Some (stateFips +:+ padStart 2 "0" (integerToString parsed))
             end
    end.
Proof.
  intros Hs. unfold getGeoidFromDistrict.
  pose proof (split_length "-" s) as HL. rewrite Hs in HL. simpl in HL.
  assert (Hi : includes s "-" = true)
    by (rewrite includes_countChar; destruct (countChar "-" s); [discriminate | reflexivity]).
  rewrite Hi. destruct s as [|c r]; [discriminate|].
  simpl String.eqb. simpl orb. cbv iota. rewrite Hs.
  destruct (STATE_FIPS_MAP !! toUpperCase ss) as [fips|] eqn:E; [|reflexivity].
  destruct (STATE_FIPS_values _ _ E) as (Hlen & _).
  destruct fips; [discriminate | reflexivity].
Qed.

Lemma getGeoidFromDistrict_not_two s :
  countChar "-" s <> 1%nat -> getGeoidFromDistrict (Str s) = None.
Proof.
  intros Hc. unfold getGeoidFromDistrict.
  destruct (String.eqb s EmptyString || negb (includes s "-")); [reflexivity|].
  pose proof (split_length "-" s) as HL.
  destruct (split "-" s) as [|a [|b [|? ?]]]; try reflexivity.
  simpl in HL. congruence.
Qed.

Lemma getGeoidFromDistrict_valid s :
  isValidDistrict s = true ->
  exists ss dd fips,
    s = ss +:+ "-" +:+ dd /\
    STATE_FIPS_MAP !! toUpperCase ss = Some fips /\
    getGeoidFromDistrict (Str s) = Some (fips +:+ districtSuffix dd) /\
    String.length (fips +:+ districtSuffix dd) = 4%nat.
Proof.
  unfold isValidDistrict.
  destruct (split "-" s) as [|ss [|dd [|? ?]]] eqn:Hs; try discriminate.
  intros [Hk Hd]%andb_prop. exists ss, dd.
  unfold isKnownState in Hk.
  destruct (STATE_FIPS_MAP !! toUpperCase ss) as [fips|] eqn:E; [|discriminate].
  exists fips. destruct (split_two_inv _ _ _ _ Hs) as (Heq & _).
  destruct (STATE_FIPS_values _ _ E) as (Hlen & _).
  split; [exact Heq|]. split; [reflexivity|].
  rewrite (getGeoidFromDistrict_two _ _ _ Hs), E. unfold districtSuffix.
  unfold isDistrictNumber in Hd.
  destruct (String.eqb_spec (toUpperCase dd) "ZZ") as [HZ|HZ].
  - rewrite HZ. simpl. split; [reflexivity|]. rewrite append_length, Hlen. reflexivity.
  - simpl in Hd. apply andb_prop in Hd as [Hnum Hle]. apply N.leb_le in Hle.
    pose proof Hnum as Hnum'. unfold isNumeral in Hnum'. apply andb_prop in Hnum' as [_ Hall].
    rewrite (toUpperCase_digits _ Hall) in *.
    split; [|rewrite append_length, Hlen; reflexivity].
    simpl orb. destruct (String.eqb_spec dd "00") as [->|_]; [reflexivity|].
    rewrite (parseInt_numeral _ Hnum), (padStart_twoDigits _ Hle). reflexivity.
Qed.


End Geoid.

(** ** GEOID derivation in the map build *)

Section GeoidMapBuild.

Import SyncSpendingData.







Example get_geoid_from_district_samples :
  map (fun s => get_geoid_from_district (Str s)) ["CA-37"; "CA-0"; "ZZ-ZZ"; "CA-100"; "CA"] =
  [Some "0637"; Some "0600"; None; Some "06100"; None].
Proof. vm_compute. reflexivity. Qed.

End GeoidMapBuild.

Section GeoidClaim.




End GeoidClaim.

(** ** Currency parsing *)

Section Currency.

















Lemma numeralToNumber_nan n : isNaN (numeralToNumber n) = true <-> n = NotNumeric.
Proof.
  destruct n as [|neg|neg m e]; simpl; [tauto | split; discriminate |].
  rewrite ofDecimal_not_nan. split; discriminate.
Qed.








End Currency.

Section CurrencyClaim.




End CurrencyClaim.

(** ** Currency formatting *)

Section FormatCurrency.

Variable toFixed : number -> nat -> string.
Variable toLocaleString : number -> string.

Lemma number_sign_cases n :
  isNaN n = true \/ lt n posZero = true \/ strictEq n posZero = true \/ gt n posZero = true.
Proof. destruct n as [s|[]| |[] m e]; simpl; auto. Qed.

Lemma number_positive n :
  gt n posZero = true -> isNaN n = false /\ lt n posZero = false /\ strictEq n posZero = false.
Proof. destruct n as [s|[]| |[] m e]; simpl; auto; discriminate. Qed.

Lemma number_zero n :
  strictEq n posZero = true -> isNaN n = false /\ lt n posZero = false.
Proof. destruct n as [s|[]| |[] m e]; simpl; auto; discriminate. Qed.

Lemma formatCurrency_Str s abbreviated decimals :
  Utils.formatCurrency toFixed toLocaleString (Str s) abbreviated decimals =
    match parseCurrency (Str s) with
    | None => "N/A"%string
    | Some n => Utils.formatCurrency toFixed toLocaleString (Num n) abbreviated decimals
    end.
Proof. unfold Utils.formatCurrency. now destruct (parseCurrency (Str s)). Qed.

Lemma formatCurrency_invalid n abbreviated decimals :
  isNaN n = true \/ lt n posZero = true ->
  Utils.formatCurrency toFixed toLocaleString (Num n) abbreviated decimals = "N/A"%string.
Proof.
  intros H. unfold Utils.formatCurrency.
  destruct H as [-> | ->]; [reflexivity | now rewrite orb_true_r].
Qed.

Lemma formatCurrency_zero n abbreviated decimals :
  strictEq n posZero = true ->
  Utils.formatCurrency toFixed toLocaleString (Num n) abbreviated decimals = "$0"%string.
Proof.
  intros H. destruct (number_zero n H) as [H1 H2].
  unfold Utils.formatCurrency. now rewrite H1, H2, H.
Qed.

Lemma formatCurrency_positive n abbreviated decimals :
  gt n posZero = true ->
  Utils.formatCurrency toFixed toLocaleString (Num n) abbreviated decimals =
    "$" +:+
    (if abbreviated then
       if ge n (ofZ 1000000000) then toFixed (div n (ofZ 1000000000)) decimals +:+ "B"
       else if ge n (ofZ 1000000) then toFixed (div n (ofZ 1000000)) decimals +:+ "M"
       else if ge n (ofZ 1000) then toFixed (div n (ofZ 1000)) decimals +:+ "K"
       else toFixed n 0%nat
     else toLocaleString n).
Proof.
  intros H. destruct (number_positive n H) as (H1 & H2 & H3).
  unfold Utils.formatCurrency. rewrite H1, H2, H3. simpl orb. cbv iota.
  destruct abbreviated; [|reflexivity].
  repeat match goal with |- context [if ?b then _ else _] => destruct b end; reflexivity.
Qed.

End FormatCurrency.


(** ** Stepped colour scale *)

Section SteppedColor.
Import ChoroplethMap.





Lemma firstBelowIndex_None v scale :
  firstBelowIndex v scale = None ->
  forall step, In step scale -> lt v (threshold step) = false.
Proof.
  induction scale as [|st rest IH]; simpl; [contradiction|].
  destruct (lt v (threshold st)) eqn:E; [discriminate|].
  destruct (firstBelowIndex v rest); [discriminate|].
  intros _ step [<-|Hin]; [assumption | now apply IH].
Qed.

Lemma firstBelowIndex_unbounded v scale step :
  last scale = Some step -> threshold step = Infinity -> lt v Infinity = true ->
  firstBelowIndex v scale <> None.
Proof.
  intros Hlast Hthr Hv Hnone.
  assert (Hin : In step scale).
  { apply list_elem_of_In. rewrite last_lookup in Hlast. eapply list_elem_of_lookup_2, Hlast. }
  pose proof (firstBelowIndex_None _ _ Hnone _ Hin) as H. congruence.
Qed.




Lemma Infinity_not_below x : lt Infinity x = false.
Proof. destruct x as [s|[]| |[] m e]; reflexivity. Qed.




End SteppedColor.

Section SteppedColorClaim.
Import ChoroplethMap.



(** C6, counterexample to the claim as stated: positive infinity is a
    positive value, no threshold of the spending scale strictly exceeds it,
    and it gets the colour of the last entry. *)
Lemma getSteppedColor_infinity :
  gt Infinity posZero = true /\
  (forall step, In step spendingSteps -> lt Infinity (threshold step) = false) /\
  getSteppedColor (create "spending") Infinity = Some "#253494"%string /\
  ~ positive_gets_first_exceeding.
Proof.
  split; [reflexivity|].
  split; [intros step _; apply Infinity_not_below|].
  split; [vm_compute; reflexivity|].
  intros H.
  destruct (H (create "spending") spendingSteps Infinity eq_refl) as (i & step & _ & Hlt & _).
  - eexists. split; reflexivity.
  - reflexivity.
  - rewrite Infinity_not_below in Hlt. discriminate Hlt.
Qed.

Example getSteppedColor_spending :
  map (getSteppedColor (create "spending"))
    [ofZ (-3); posZero; ofZ 499999; ofZ 500000; ofZ 999999999; ofZ 1000000000; Infinity; S754_nan]
  = [Some "#FFFFFF"; Some "#FFFFFF"; Some "#fdfde6"; Some "#d6ebca"; Some "#2c7fb8";
     Some "#253494"; Some "#253494"; Some "#FFFFFF"]%string.
Proof. vm_compute. reflexivity. Qed.

End SteppedColorClaim.

(** ** Grouping, enumeration and sorting *)

Section Grouping.

Context {A : Type}.
Variable key : A -> string.

Lemma assoc_None {V : Type} k (o : list (string * V)) :
  assoc k o = None <-> hasKey k (map fst o) = false.
Proof.
  induction o as [|[k' v] r IH]; simpl; [tauto|].
  destruct (String.eqb k k'); simpl; [split; discriminate | exact IH].
Qed.

Lemma pushTo_app k (item : A) o items o' :
  assoc k o = None ->
  pushTo k item (o ++ (k, items) :: o') = o ++ (k, items ++ [item]) :: o'.
Proof.
  induction o as [|[k' v] r IH]; simpl.
  - now rewrite String.eqb_refl.
  - destruct (String.eqb k k'); [discriminate|]. intros H. now rewrite (IH H).
Qed.

Lemma assoc_split {V : Type} k (o : list (string * V)) v :
  assoc k o = Some v ->
  exists o1 o2, o = o1 ++ (k, v) :: o2 /\ assoc k o1 = None.
Proof.
  induction o as [|[k' v'] r IH]; simpl; [discriminate|].
  destruct (String.eqb_spec k k') as [<-|Hne].
  - intros [= ->]. exists [], r. split; reflexivity.
  - intros H. destruct (IH H) as (o1 & o2 & -> & Hn).
    exists ((k', v') :: o1), o2. simpl.
    destruct (String.eqb_spec k k'); [contradiction|]. split; [reflexivity | exact Hn].
Qed.

Lemma groupOf_cons_eq k item array :
  key item = k -> groupOf key k (item :: array) = item :: groupOf key k array.
Proof. intros <-. unfold groupOf. simpl. now rewrite String.eqb_refl. Qed.

Lemma groupOf_cons_ne k item array :
  key item <> k -> groupOf key k (item :: array) = groupOf key k array.
Proof. intros H. unfold groupOf. simpl. now apply String.eqb_neq in H as ->. Qed.

Lemma hasKey_app k l l' : hasKey k (l ++ l') = hasKey k l || hasKey k l'.
Proof. apply existsb_app. Qed.

Lemma hasKey_In k l : hasKey k l = true <-> In k l.
Proof.
  unfold hasKey. rewrite existsb_exists. split.
  - intros (x & Hin & ->%String.eqb_eq). exact Hin.
  - intros H. exists k. split; [exact H | apply String.eqb_refl].
Qed.

Lemma hasKey_false k l : hasKey k l = false <-> ~ In k l.
Proof. rewrite <- hasKey_In. destruct (hasKey k l); split; congruence. Qed.


Lemma filter_ext_in' {B : Type} (p q : B -> bool) l :
  (forall x, In x l -> p x = q x) -> List.filter p l = List.filter q l.
Proof.
  induction l as [|x r IH]; [reflexivity|]. simpl. intros H.
  rewrite (H x (or_introl eq_refl)), IH; [reflexivity|]. intros y Hy. apply H. now right.
Qed.

Lemma filter_filter_and {B : Type} (p q : B -> bool) l :
  List.filter p (List.filter q l) = List.filter (fun x => q x && p x) l.
Proof.
  induction l as [|x r IH]; [reflexivity|]. simpl.
  destruct (q x); simpl; [destruct (p x)|]; now rewrite IH.
Qed.

Lemma filter_unseen_old k0 seen l :
  hasKey k0 seen = true ->
  List.filter (fun k => negb (hasKey k seen)) (List.filter (fun x => negb (String.eqb x k0)) l)
  = List.filter (fun k => negb (hasKey k seen)) l.
Proof.
  intros H. rewrite filter_filter_and. apply filter_ext_in'. intros x _.
  destruct (String.eqb_spec x k0) as [->|]; [now rewrite H | reflexivity].
Qed.

Lemma filter_unseen_new k0 seen l :
  List.filter (fun k => negb (hasKey k seen)) (List.filter (fun x => negb (String.eqb x k0)) l)
  = List.filter (fun k => negb (hasKey k (seen ++ [k0]))) l.
Proof.
  rewrite filter_filter_and. apply filter_ext_in'. intros x _.
  rewrite hasKey_app. unfold hasKey at 3. simpl.
  rewrite orb_false_r, negb_orb. apply andb_comm.
Qed.

(** Groups are extended alike by arrays that group alike. *)
Lemma extendGroups_cons_old result item rest :
  In (key item) (map fst result) ->
  NoDup (map fst result) ->
  forall o1 items o2, result = o1 ++ (key item, items) :: o2 ->
  extendGroups key (o1 ++ (key item, items ++ [item]) :: o2) rest = extendGroups key result (item :: rest).
Proof.
  intros Hin Hnd o1 items o2 ->. unfold extendGroups.
  rewrite !map_app. cbn [map fst snd]. rewrite <- !app_assoc. cbn [app].
  rewrite map_app in Hnd. cbn [map fst] in Hnd.
  apply NoDup_app in Hnd as (Hnd1 & Hdis & Hnd2).
  inversion Hnd2 as [|? ? Hnotin Hnd3]; subst.
  f_equal; [|f_equal; [|f_equal]].
  - apply map_ext_in. intros [k v] Hk. cbn [fst snd]. do 2 f_equal.
    symmetry. apply groupOf_cons_ne. intros Heq.
    apply (Hdis (key item)); [|now left].
    apply list_elem_of_In. rewrite Heq. now apply (in_map fst) in Hk.
  - now rewrite (groupOf_cons_eq _ _ _ eq_refl).
  - apply map_ext_in. intros [k v] Hk. cbn [fst snd]. do 2 f_equal.
    symmetry. apply groupOf_cons_ne. intros Heq.
    apply Hnotin, list_elem_of_In. rewrite Heq. now apply (in_map fst) in Hk.
  - cbn [map firstKeys List.filter].
    assert (Hk : hasKey (key item) (map fst o1 ++ key item :: map fst o2) = true)
      by (apply hasKey_In, in_or_app; right; now left).
    rewrite Hk. cbn [negb]. rewrite (filter_unseen_old _ _ _ Hk).
    apply map_ext_in. intros k Hin'. f_equal. symmetry. apply groupOf_cons_ne.
    intros Heq. apply filter_In in Hin' as [_ Hin']. rewrite <- Heq, Hk in Hin'.
    discriminate Hin'.
Qed.

Lemma extendGroups_cons_new result item rest :
  hasKey (key item) (map fst result) = false ->
  extendGroups key (result ++ [(key item, [item])]) rest = extendGroups key result (item :: rest).
Proof.
  intros E. unfold extendGroups.
  rewrite !map_app. cbn [map fst snd app]. rewrite <- !app_assoc. cbn [app].
  f_equal; [|cbn [firstKeys List.filter]; rewrite E; cbn [negb map]; f_equal].
  - apply map_ext_in. intros [k v] Hin. cbn [fst snd]. do 2 f_equal.
    symmetry. apply groupOf_cons_ne. intros Heq.
    apply (in_map fst) in Hin. cbn [fst] in Hin. rewrite <- Heq in Hin.
    apply hasKey_In in Hin. congruence.
  - now rewrite (groupOf_cons_eq _ _ _ eq_refl).
  - rewrite filter_unseen_new.
    apply map_ext_in. intros k Hin. f_equal. symmetry. apply groupOf_cons_ne.
    intros Heq. apply filter_In in Hin as [_ Hin]. rewrite hasKey_app in Hin.
    rewrite <- Heq in Hin. unfold hasKey at 2 in Hin. simpl in Hin.
    rewrite String.eqb_refl, orb_true_r in Hin. discriminate Hin.
Qed.

Lemma extendGroups_nil result : extendGroups key result [] = result.
Proof.
  unfold extendGroups. simpl. rewrite app_nil_r.
  induction result as [|[k v] r IHr]; [reflexivity|]. cbn [map fst snd].
  now rewrite app_nil_r, IHr.
Qed.

Lemma groupBy_from_spec array : forall result,
  NoDup (map fst result) ->
  Forall (fun item => isInherited (key item) = false) array ->
  groupBy_from key result array = Some (extendGroups key result array).
Proof.
  induction array as [|item rest IH]; intros result Hnd Hsafe.
  - simpl. now rewrite extendGroups_nil.
  - inversion Hsafe as [|? ? Hitem Hrest]; subst. cbn [groupBy_from].
    destruct (assoc (key item) result) as [items|] eqn:E.
    + destruct (assoc_split _ _ _ E) as (o1 & o2 & Hres & Hn).
      rewrite Hres at 1. rewrite (pushTo_app _ _ _ _ _ Hn).
      rewrite IH; [| |assumption].
      * f_equal. apply (extendGroups_cons_old result); try assumption.
        rewrite Hres, map_app. apply in_or_app. right. now left.
      * rewrite Hres in Hnd. now rewrite map_app in *.
    + rewrite Hitem. rewrite (pushTo_app _ item result [] []) by assumption. cbn [app].
      apply assoc_None in E.
      rewrite IH; [| |assumption].
      * f_equal. now apply extendGroups_cons_new.
      * rewrite map_app. cbn [map fst]. apply NoDup_app. split; [assumption|].
        split; [|apply NoDup_singleton].
        intros k Hk Hk'. apply list_elem_of_In in Hk.
        apply list_elem_of_In in Hk'. destruct Hk' as [<-|[]].
        apply hasKey_In in Hk. congruence.
Qed.

Lemma filter_true {B : Type} (p : B -> bool) l :
  (forall x, p x = true) -> List.filter p l = l.
Proof. intros H. induction l as [|x r IH]; [reflexivity|]. simpl. now rewrite H, IH. Qed.

(** [groupBy] raises exactly when a key names an inherited property, and
    otherwise returns the groups in order of first occurrence. *)
Lemma groupBy_correct array :
  groupBy array key =
    if safeKeys key array then Some (groupsOf key array) else None.
Proof.
  unfold groupBy. destruct (safeKeys key array) eqn:E.
  - rewrite groupBy_from_spec; [|apply NoDup_nil_2|].
    + unfold extendGroups, groupsOf. simpl. now rewrite filter_true.
    + unfold safeKeys in E. rewrite forallb_forall in E. apply Forall_forall.
      intros x Hx%list_elem_of_In. apply E in Hx. now apply negb_true_iff in Hx.
  - assert (G : forall result,
               (forall k, In k (map fst result) -> isInherited k = false) ->
               groupBy_from key result array = None); [|apply G; intros k []].
    induction array as [|item rest IH]; intros result Hres; [discriminate|].
    simpl in E. cbn [groupBy_from].
    destruct (assoc (key item) result) as [items|] eqn:Ea.
    + destruct (assoc_split _ _ _ Ea) as (o1 & o2 & Hr & Hn).
      assert (Hk : isInherited (key item) = false).
      { apply Hres. rewrite Hr, map_app. apply in_or_app. right. now left. }
      rewrite Hk in E. simpl in E.
      rewrite Hr at 1. rewrite (pushTo_app _ _ _ _ _ Hn). apply (IH E).
      intros k Hin. apply Hres. rewrite Hr. rewrite map_app in *. exact Hin.
    + destruct (isInherited (key item)) eqn:Hk; [reflexivity|]. simpl in E.
      rewrite (pushTo_app _ item result [] []) by assumption. apply (IH E).
      intros k Hin. rewrite map_app in Hin. apply in_app_or in Hin as [Hin|[<-|[]]]; auto.
Qed.

Lemma firstKeys_In k l : In k (firstKeys l) <-> In k l.
Proof.
  induction l as [|x r IH]; simpl; [tauto|].
  rewrite filter_In, IH, negb_true_iff, String.eqb_neq.
  destruct (string_dec x k); [subst|]; intuition congruence.
Qed.

Lemma NoDup_filter' {B : Type} (p : B -> bool) l : NoDup l -> NoDup (List.filter p l).
Proof.
  induction 1 as [|x r Hx Hr IH]; simpl; [constructor|].
  destruct (p x); [|exact IH]. constructor; [|exact IH].
  rewrite list_elem_of_In, filter_In, <- list_elem_of_In. tauto.
Qed.

Lemma firstKeys_NoDup l : NoDup (firstKeys l).
Proof.
  induction l as [|x r IH]; simpl; constructor.
  - rewrite list_elem_of_In, filter_In, String.eqb_refl. intros [_ H]. discriminate H.
  - now apply NoDup_filter'.
Qed.

Lemma groupsOf_keys array : map fst (groupsOf key array) = firstKeys (map key array).
Proof. unfold groupsOf. rewrite map_map. simpl. apply map_id. Qed.

Lemma groupsOf_In array k items :
  In (k, items) (groupsOf key array) <->
  In k (map key array) /\ items = groupOf key k array.
Proof.
  unfold groupsOf. rewrite in_map_iff. split.
  - intros (k' & [= -> ->] & Hin). now rewrite firstKeys_In in Hin.
  - intros [Hin ->]. exists k. now rewrite firstKeys_In.
Qed.

Lemma groupOf_nonempty array k : In k (map key array) -> groupOf key k array <> [].
Proof.
  intros (item & <- & Hin)%in_map_iff H.
  assert (Hf : In item (groupOf key (key item) array))
    by (apply filter_In; split; [assumption | apply String.eqb_refl]).
  rewrite H in Hf. contradiction.
Qed.

Lemma groupOf_Permutation array array' k :
  Permutation array array' -> Permutation (groupOf key k array) (groupOf key k array').
Proof.
  unfold groupOf. induction 1 as [|x l l' _ IH|x y l|l l' l'' _ IH1 _ IH2]; simpl.
  - constructor.
  - destruct (String.eqb (key x) k); [now constructor | exact IH].
  - destruct (String.eqb (key x) k), (String.eqb (key y) k);
      try reflexivity. apply perm_swap.
  - now transitivity (List.filter (fun item => String.eqb (key item) k) l').
Qed.

Lemma safeKeys_Permutation array array' :
  Permutation array array' -> safeKeys key array = safeKeys key array'.
Proof.
  unfold safeKeys. induction 1 as [|x l l' _ IH|x y l|l l' l'' _ IH1 _ IH2]; simpl.
  - reflexivity.
  - now rewrite IH.
  - now rewrite !andb_assoc, (andb_comm (negb (isInherited (key y)))).
  - congruence.
Qed.

End Grouping.

Section Enumeration.

Context {V : Type}.


Lemma entries_unfold (o : list (string * V)) :
  entries o = map snd (indexedEntries o) ++ List.filter (fun kv => negb (isIndexKey kv)) o.
Proof.
  unfold entries. f_equal. apply filter_ext_in'. intros kv _. unfold isIndexKey.
  now destruct (arrayIndex (fst kv)).
Qed.

Lemma insertByIndex_Permutation i (kv : string * V) l :
  Permutation (insertByIndex i kv l) ((i, kv) :: l).
Proof.
  induction l as [|[j kv'] r IH]; simpl; [reflexivity|].
  destruct (i <? j)%N; [reflexivity|].
  rewrite IH. apply perm_swap.
Qed.

Lemma indexedEntries_Permutation (o : list (string * V)) :
  Permutation (map snd (indexedEntries o)) (List.filter isIndexKey o).
Proof.
  induction o as [|kv r IH]; simpl; [reflexivity|]. unfold isIndexKey at 1.
  destruct (arrayIndex (fst kv)) as [i|]; [|exact IH].
  rewrite insertByIndex_Permutation. simpl. now constructor.
Qed.

Lemma filter_partition_Permutation {B : Type} (p : B -> bool) l :
  Permutation (List.filter p l ++ List.filter (fun x => negb (p x)) l) l.
Proof.
  induction l as [|x r IH]; simpl; [reflexivity|].
  destruct (p x); simpl; [now constructor|].
  rewrite <- Permutation_middle. now constructor.
Qed.

Lemma entries_Permutation (o : list (string * V)) : Permutation (entries o) o.
Proof.
  rewrite entries_unfold, indexedEntries_Permutation. apply filter_partition_Permutation.
Qed.

End Enumeration.

Section EnumerationMap.

Context {V W : Type}.
Variable f : string * V -> W.


Lemma insertByIndex_map i kv (l : list (N * (string * V))) :
  insertByIndex i (relabel f kv) (map (fun e => (fst e, relabel f (snd e))) l)
  = map (fun e => (fst e, relabel f (snd e))) (insertByIndex i kv l).
Proof.
  induction l as [|[j kv'] r IH]; simpl; [reflexivity|].
  destruct (i <? j)%N; simpl; [reflexivity|]. now rewrite IH.
Qed.

Lemma indexedEntries_map (o : list (string * V)) :
  indexedEntries (map (relabel f) o) = map (fun e => (fst e, relabel f (snd e))) (indexedEntries o).
Proof.
  induction o as [|kv r IH]; simpl; [reflexivity|].
  destruct (arrayIndex (fst kv)); [|exact IH].
  now rewrite IH, insertByIndex_map.
Qed.

(** [Object.entries] lists the keys in an order that depends on the keys
    only. *)
Lemma entries_map (o : list (string * V)) :
  entries (map (relabel f) o) = map (relabel f) (entries o).
Proof.
  unfold entries. rewrite indexedEntries_map, map_app, !map_map. f_equal.
  induction o as [|kv r IH]; simpl; [reflexivity|].
  destruct (arrayIndex (fst kv)); simpl; now rewrite IH.
Qed.

End EnumerationMap.

Section Sorting.

Context {B : Type}.
Variable after : B -> B -> bool.

Lemma sortInsert_Permutation x l : Permutation (sortInsert after x l) (x :: l).
Proof.
  induction l as [|y r IH]; simpl; [reflexivity|].
  destruct (after x y); [|reflexivity]. rewrite IH. apply perm_swap.
Qed.

Lemma sort_Permutation l : Permutation (sort after l) l.
Proof.
  induction l as [|x r IH]; simpl; [reflexivity|].
  rewrite sortInsert_Permutation. now constructor.
Qed.





End Sorting.

Section AssocFacts.

Context {V : Type}.

Lemma assoc_In k (v : V) o : NoDup (map fst o) -> (assoc k o = Some v <-> In (k, v) o).
Proof.
  induction o as [|[k' v'] r IH]; simpl; [intros _; split; [discriminate | contradiction]|].
  intros Hnd. inversion Hnd as [|? ? Hnotin Hnd']; subst.
  destruct (String.eqb_spec k k') as [->|Hne].
  - split; [intros [= ->]; now left|].
    intros [[= ->]|Hin]; [reflexivity|].
    exfalso. apply Hnotin, list_elem_of_In. now apply (in_map fst) in Hin.
  - rewrite (IH Hnd'). split; [now right|]. intros [[= -> ->]|Hin]; [contradiction | assumption].
Qed.

Lemma assoc_Permutation k (o o' : list (string * V)) :
  Permutation o o' -> NoDup (map fst o) -> assoc k o = assoc k o'.
Proof.
  intros HP Hnd.
  assert (Hnd' : NoDup (map fst o')) by (now rewrite <- HP).
  destruct (assoc k o) as [v|] eqn:E.
  - symmetry. apply assoc_In; [assumption|]. apply assoc_In in E; [|assumption].
    now rewrite <- HP.
  - destruct (assoc k o') as [v|] eqn:E'; [|reflexivity].
    apply assoc_In in E'; [|assumption]. rewrite <- HP in E'.
    apply assoc_In in E'; [congruence | assumption].
Qed.

End AssocFacts.

Section ListMax.

Lemma list_max_attained l : l <> [] -> In (list_max l) l.
Proof.
  induction l as [|x r IH]; [congruence|]. intros _. simpl.
  destruct r as [|y r']; [left; simpl; lia|].
  destruct (Nat.max_spec x (list_max (y :: r'))) as [[_ ->]|[_ ->]].
  - right. apply IH. discriminate.
  - now left.
Qed.

Lemma list_max_bound l x : In x l -> (x <= list_max l)%nat.
Proof.
  intros H. pose proof (proj1 (list_max_le l (list_max l)) (Nat.le_refl _)) as HF.
  rewrite List.Forall_forall in HF. now apply HF.
Qed.

End ListMax.

Section DistrictMap.
Import CancellationsDashboard.

Variable toFixed : number -> nat -> string.
Variable toLocaleString : number -> string.


Lemma fold_record_counts es : forall st,
  NoDup (map fst es) -> forall k,
  districtCounts (fold_left (recordDistrict toFixed toLocaleString) es st) !! k =
    match assoc k es with
    | Some contracts => Some (length contracts)
    | None => districtCounts st !! k
    end.
Proof.
  induction es as [|[g c] r IH]; intros st Hnd k; [reflexivity|].
  cbn [fold_left assoc]. inversion Hnd as [|? ? Hnotin Hnd']; subst.
  rewrite (IH _ Hnd').
  destruct (String.eqb_spec k g) as [->|Hne].
  - destruct (assoc g r) as [c'|] eqn:E.
    + exfalso. apply Hnotin, list_elem_of_In.
      apply assoc_In in E; [|assumption]. now apply (in_map fst) in E.
    + simpl. apply lookup_insert_eq.
  - destruct (assoc k r); [reflexivity|]. simpl. apply lookup_insert_ne. congruence.
Qed.

Lemma fold_record_hover es : forall st,
  dom (hoverInfo st) = dom (districtCounts st) ->
  dom (hoverInfo (fold_left (recordDistrict toFixed toLocaleString) es st)) = dom (districtCounts (fold_left (recordDistrict toFixed toLocaleString) es st)).
Proof.
  induction es as [|[g c] r IH]; intros st H; [exact H|].
  cbn [fold_left]. apply IH. simpl. rewrite !dom_insert_L. now rewrite H.
Qed.

Lemma fold_record_max es : forall st,
  maxContracts (fold_left (recordDistrict toFixed toLocaleString) es st)
  = Nat.max (maxContracts st) (list_max (map (fun e => length (snd e)) es)).
Proof.
  induction es as [|[g c] r IH]; intros st; cbn [fold_left map list_max fold_right].
  - lia.
  - rewrite IH. simpl. fold (list_max (map (fun e : string * list CleanRow => length (snd e)) r)).
    destruct (Nat.ltb_spec (maxContracts st) (length c)); lia.
Qed.


Lemma calculateDistrictData_unfold data :
  calculateDistrictData toFixed toLocaleString data =
    if safeKeys geoidKey (List.filter hasGeoid data)
    then Some (fold_left (recordDistrict toFixed toLocaleString) (entries (groupsOf geoidKey (List.filter hasGeoid data)))
                 emptyDistrictData)
    else None.
Proof.
  unfold calculateDistrictData. rewrite groupBy_correct.
  now destruct (safeKeys geoidKey (List.filter hasGeoid data)).
Qed.

Lemma groupOf_absent {A : Type} (key : A -> string) k array :
  ~ In k (map key array) -> groupOf key k array = [].
Proof.
  intros H. unfold groupOf. induction array as [|x r IH]; [reflexivity|]. simpl.
  destruct (String.eqb_spec (key x) k) as [E|_].
  - exfalso. apply H. left. exact E.
  - apply IH. intros Hin. apply H. now right.
Qed.

Lemma entries_NoDup {V : Type} (o : list (string * V)) :
  NoDup (map fst o) -> NoDup (map fst (entries o)).
Proof. intros H. now rewrite (entries_Permutation o). Qed.

Lemma assoc_groupsOf {A : Type} (key : A -> string) k array :
  assoc k (entries (groupsOf key array)) =
    match groupOf key k array with
    | [] => None
    | items => Some items
    end.
Proof.
  assert (Hnd : NoDup (map fst (groupsOf key array)))
    by (rewrite groupsOf_keys; apply firstKeys_NoDup).
  rewrite (assoc_Permutation k _ _ (entries_Permutation _)) by now apply entries_NoDup.
  destruct (in_dec string_dec k (map key array)) as [Hin|Hnin].
  - pose proof (groupOf_nonempty key array k Hin) as Hne.
    assert (E : assoc k (groupsOf key array) = Some (groupOf key k array))
      by (apply assoc_In; [assumption | now apply groupsOf_In]).
    rewrite E. destruct (groupOf key k array); [contradiction | reflexivity].
  - rewrite (groupOf_absent _ _ _ Hnin).
    destruct (assoc k (groupsOf key array)) as [v|] eqn:E; [|reflexivity].
    apply assoc_In in E; [|assumption]. apply groupsOf_In in E as [Hin _]. contradiction.
Qed.

Lemma geoidRows_groupOf g data :
  geoidRows g data = groupOf geoidKey g (List.filter hasGeoid data).
Proof.
  unfold geoidRows, groupOf. induction data as [|row rest IH]; [reflexivity|].
  cbn [List.filter]. rewrite IH. unfold hasGeoid, geoidKey.
  destruct (geoid row) as [g'|] eqn:Eg; [|reflexivity].
  destruct (String.eqb_spec g' g) as [->|Hne].
  - destruct (String.eqb g EmptyString); cbn [negb andb List.filter]; [reflexivity|].
    rewrite Eg, String.eqb_refl. reflexivity.
  - cbn [andb]. destruct (negb (String.eqb g' EmptyString)); [|reflexivity].
    cbn [List.filter]. rewrite Eg.
    destruct (String.eqb_spec g' g); [contradiction | reflexivity].
Qed.

Lemma calculateDistrictData_counts data dd :
  calculateDistrictData toFixed toLocaleString data = Some dd ->
  forall g, districtCounts dd !! g =
    if (geoidCount g data =? 0)%nat then None else Some (geoidCount g data).
Proof.
  rewrite calculateDistrictData_unfold.
  destruct (safeKeys geoidKey (List.filter hasGeoid data)); [|discriminate].
  intros [= <-] g. rewrite fold_record_counts.
  - rewrite assoc_groupsOf. unfold geoidCount. rewrite geoidRows_groupOf.
    destruct (groupOf geoidKey g (List.filter hasGeoid data)); reflexivity.
  - apply entries_NoDup. rewrite groupsOf_keys. apply firstKeys_NoDup.
Qed.

Lemma calculateDistrictData_max data dd :
  calculateDistrictData toFixed toLocaleString data = Some dd ->
  (List.filter hasGeoid data = [] -> maxContracts dd = 1%nat) /\
  (List.filter hasGeoid data <> [] ->
     (exists g, districtCounts dd !! g = Some (maxContracts dd)) /\
     (forall g n, districtCounts dd !! g = Some n -> (n <= maxContracts dd)%nat)).
Proof.
  intros H. pose proof (calculateDistrictData_counts _ _ H) as Hc.
  rewrite calculateDistrictData_unfold in H.
  destruct (safeKeys geoidKey (List.filter hasGeoid data)); [|discriminate].
  injection H as <-. rewrite fold_record_max in *. simpl maxContracts.
  set (groups := groupsOf geoidKey (List.filter hasGeoid data)) in *.
  set (lens := map (fun e : string * list CleanRow => length (snd e)) (entries groups)).
  assert (Hin : forall n, In n lens <-> exists g, In g (map geoidKey (List.filter hasGeoid data))
                           /\ n = geoidCount g data).
  { intros n. unfold lens. rewrite in_map_iff. split.
    - intros ([g items] & <- & Hg). rewrite (entries_Permutation groups) in Hg.
      apply groupsOf_In in Hg as [Hg ->]. exists g. split; [assumption|].
      unfold geoidCount. now rewrite geoidRows_groupOf.
    - intros (g & Hg & ->). exists (g, groupOf geoidKey g (List.filter hasGeoid data)).
      split; [unfold geoidCount; now rewrite geoidRows_groupOf|].
      rewrite (entries_Permutation groups). now apply groupsOf_In. }
  split.
  - intros E. unfold lens, groups. rewrite E. reflexivity.
  - intros Hne.
    assert (Hl : lens <> []).
    { destruct (List.filter hasGeoid data) as [|row rest] eqn:E; [congruence|].
      intros Hl.
      assert (Hx : In (geoidCount (geoidKey row) data) lens)
        by (apply Hin; exists (geoidKey row); split; [now left | reflexivity]).
      rewrite Hl in Hx. exact Hx. }
    pose proof (list_max_attained lens Hl) as Hatt.
    assert (Hpos : (1 <= list_max lens)%nat).
    { apply Hin in Hatt as (g & Hg & ->). unfold geoidCount. rewrite geoidRows_groupOf.
      pose proof (groupOf_nonempty geoidKey _ _ Hg).
      destruct (groupOf geoidKey g (List.filter hasGeoid data)); [contradiction | simpl; lia]. }
    rewrite Nat.max_r by exact Hpos. split.
    + apply Hin in Hatt as (g & Hg & Heq). exists g. rewrite Hc, Heq.
      rewrite Heq in Hpos. destruct (Nat.eqb_spec (geoidCount g data) 0); [lia | reflexivity].
    + intros g n Hg. rewrite Hc in Hg.
      destruct (Nat.eqb_spec (geoidCount g data) 0) as [|Hnz]; [discriminate|].
      injection Hg as <-. apply list_max_bound, Hin. exists g. split; [|reflexivity].
      destruct (in_dec string_dec g (map geoidKey (List.filter hasGeoid data))) as [|Hnin];
        [assumption|].
      unfold geoidCount in Hnz. rewrite geoidRows_groupOf, (groupOf_absent _ _ _ Hnin) in Hnz.
      now contradiction Hnz.
Qed.

End DistrictMap.

Section Tables.
Import CancellationsDashboard.

Variable toFixed : number -> nat -> string.
Variable toLocaleString : number -> string.


Lemma districtData_unfold data :
  districtData toFixed toLocaleString data =
    if safeKeys districtKey data
    then Some (sort districtAfter (map (districtEntryOf toFixed toLocaleString) (entries (groupsOf districtKey data))))
    else None.
Proof.
  unfold districtData. fold districtKey. rewrite groupBy_correct.
  now destruct (safeKeys districtKey data).
Qed.

Lemma recipientData_unfold data :
  recipientData toFixed toLocaleString data =
    if safeKeys recipientKey data
    then Some (sort recipientAfter (map (recipientEntryOf toFixed toLocaleString) (entries (groupsOf recipientKey data))))
    else None.
Proof.
  unfold recipientData. fold recipientKey. rewrite groupBy_correct.
  now destruct (safeKeys recipientKey data).
Qed.

Lemma districtData_In data e :
  In e (match districtData toFixed toLocaleString data with Some l => l | None => [] end) <->
  safeKeys districtKey data = true /\
  exists k, In k (map districtKey data) /\ e = (districtEntryOf toFixed toLocaleString) (k, groupOf districtKey k data).
Proof.
  rewrite districtData_unfold. destruct (safeKeys districtKey data).
  - rewrite (sort_Permutation districtAfter), in_map_iff. split.
    + intros ([k items] & <- & Hin). rewrite (entries_Permutation _) in Hin.
      apply groupsOf_In in Hin as [Hin ->]. split; [reflexivity|]. now exists k.
    + intros (_ & k & Hin & ->). exists (k, groupOf districtKey k data).
      split; [reflexivity|]. rewrite (entries_Permutation _). now apply groupsOf_In.
  - split; [contradiction | intros [H _]; discriminate H].
Qed.

Lemma recipientData_In data e :
  In e (match recipientData toFixed toLocaleString data with Some l => l | None => [] end) <->
  safeKeys recipientKey data = true /\
  exists k, In k (map recipientKey data) /\ e = (recipientEntryOf toFixed toLocaleString) (k, groupOf recipientKey k data).
Proof.
  rewrite recipientData_unfold. destruct (safeKeys recipientKey data).
  - rewrite (sort_Permutation recipientAfter), in_map_iff. split.
    + intros ([k items] & <- & Hin). rewrite (entries_Permutation _) in Hin.
      apply groupsOf_In in Hin as [Hin ->]. split; [reflexivity|]. now exists k.
    + intros (_ & k & Hin & ->). exists (k, groupOf recipientKey k data).
      split; [reflexivity|]. rewrite (entries_Permutation _). now apply groupsOf_In.
  - split; [contradiction | intros [H _]; discriminate H].
Qed.

Lemma districtCountsOf_In data k c :
  In (k, c) (districtCountsOf (districtData toFixed toLocaleString data)) <->
  safeKeys districtKey data = true /\ In k (map districtKey data) /\
  c = length (groupOf districtKey k data).
Proof.
  unfold districtCountsOf.
  transitivity (exists e, (district e, districtContractCount e) = (k, c) /\
      In e (match districtData toFixed toLocaleString data with Some l => l | None => [] end)).
  { destruct (districtData toFixed toLocaleString data); [apply in_map_iff|].
    split; [contradiction | intros (e & _ & [])]. }
  split.
  - intros (e & [= <- <-] & (Hs & k' & Hk & ->)%districtData_In). now repeat split.
  - intros (Hs & Hk & ->). exists (districtEntryOf toFixed toLocaleString (k, groupOf districtKey k data)).
    split; [reflexivity|]. apply districtData_In. split; [assumption|]. now exists k.
Qed.

Lemma districtSumsOf_In data k s :
  In (k, s) (districtSumsOf (districtData toFixed toLocaleString data)) <->
  safeKeys districtKey data = true /\ In k (map districtKey data) /\
  s = sumOf districtKey k data.
Proof.
  unfold districtSumsOf.
  transitivity (exists e, (district e, rawObligations e) = (k, s) /\
      In e (match districtData toFixed toLocaleString data with Some l => l | None => [] end)).
  { destruct (districtData toFixed toLocaleString data); [apply in_map_iff|].
    split; [contradiction | intros (e & _ & [])]. }
  split.
  - intros (e & [= <- <-] & (Hs & k' & Hk & ->)%districtData_In). now repeat split.
  - intros (Hs & Hk & ->). exists (districtEntryOf toFixed toLocaleString (k, groupOf districtKey k data)).
    split; [reflexivity|]. apply districtData_In. split; [assumption|]. now exists k.
Qed.

Lemma recipientCountsOf_In data k c :
  In (k, c) (recipientCountsOf (recipientData toFixed toLocaleString data)) <->
  safeKeys recipientKey data = true /\ In k (map recipientKey data) /\
  c = length (groupOf recipientKey k data).
Proof.
  unfold recipientCountsOf.
  transitivity (exists e, (recipient e, recipientContractCount e) = (k, c) /\
      In e (match recipientData toFixed toLocaleString data with Some l => l | None => [] end)).
  { destruct (recipientData toFixed toLocaleString data); [apply in_map_iff|].
    split; [contradiction | intros (e & _ & [])]. }
  split.
  - intros (e & [= <- <-] & (Hs & k' & Hk & ->)%recipientData_In). now repeat split.
  - intros (Hs & Hk & ->). exists (recipientEntryOf toFixed toLocaleString (k, groupOf recipientKey k data)).
    split; [reflexivity|]. apply recipientData_In. split; [assumption|]. now exists k.
Qed.

Lemma recipientTotalsOf_In data k s :
  In (k, s) (recipientTotalsOf (recipientData toFixed toLocaleString data)) <->
  safeKeys recipientKey data = true /\ In k (map recipientKey data) /\
  s = formatCurrency toFixed toLocaleString (Num (sumOf recipientKey k data)) false 1.
Proof.
  unfold recipientTotalsOf.
  transitivity (exists e, (recipient e, recipientTotalObligations e) = (k, s) /\
      In e (match recipientData toFixed toLocaleString data with Some l => l | None => [] end)).
  { destruct (recipientData toFixed toLocaleString data); [apply in_map_iff|].
    split; [contradiction | intros (e & _ & [])]. }
  split.
  - intros (e & [= <- <-] & (Hs & k' & Hk & ->)%recipientData_In). now repeat split.
  - intros (Hs & Hk & ->). exists (recipientEntryOf toFixed toLocaleString (k, groupOf recipientKey k data)).
    split; [reflexivity|]. apply recipientData_In. split; [assumption|]. now exists k.
Qed.

End Tables.

Section ProcessData.
Import CancellationsDashboard.

Lemma filter_Permutation' {B : Type} (p : B -> bool) l l' :
  Permutation l l' -> Permutation (List.filter p l) (List.filter p l').
Proof.
  induction 1 as [|x l l' _ IH|x y l|l l' l'' _ IH1 _ IH2]; simpl.
  - constructor.
  - destruct (p x); [now constructor | exact IH].
  - destruct (p x), (p y); try reflexivity. apply perm_swap.
  - now transitivity (List.filter p l').
Qed.

Lemma filter_idempotent {B : Type} (p : B -> bool) l :
  List.filter p (List.filter p l) = List.filter p l.
Proof.
  induction l as [|x r IH]; [reflexivity|]. simpl.
  destruct (p x) eqn:E; simpl; rewrite ?E, IH; reflexivity.
Qed.

Lemma getGeoidFromDistrict_first_digit v g :
  getGeoidFromDistrict v = Some g -> exists c r, g = String c r /\ isDigit c = true.
Proof.
  destruct v as [| |n|s]; try discriminate.
  destruct (Nat.eq_dec (countChar "-" s) 1%nat) as [Hc|Hc];
    [|now rewrite (getGeoidFromDistrict_not_two _ Hc)].
  pose proof (split_length "-" s) as HL. rewrite Hc in HL.
  destruct (split "-" s) as [|ss [|dd [|? ?]]] eqn:Hs; try discriminate.
  rewrite (getGeoidFromDistrict_two _ _ _ Hs).
  destruct (STATE_FIPS_MAP !! toUpperCase ss) as [fips|] eqn:E; [|discriminate].
  destruct (STATE_FIPS_values _ _ E) as (Hlen & Hall & _).
  destruct fips as [|c r]; [discriminate|].
  simpl in Hall. apply andb_prop in Hall as [Hd _].
  intros H. exists c.
  destruct (_ || _) in H.
  - injection H as <-. rewrite append_cons. eauto.
  - destruct (parseInt (toUpperCase dd)); [|discriminate].
    injection H as <-. rewrite append_cons. eauto.
Qed.

Lemma digit_key_not_inherited c r : isDigit c = true -> isInherited (String c r) = false.
Proof. destruct c as [[] [] [] [] [] [] [] []]; intros H; try discriminate H; reflexivity. Qed.

Lemma processData_In rawData row :
  In row (processData rawData) <->
  exists r, In r rawData /\ notTotal r = true /\ row = clean r /\ totalObligations row <> None.
Proof.
  unfold processData. rewrite filter_In, in_map_iff. split.
  - intros [(r & <- & Hr) Ho]. apply filter_In in Hr as [Hr Hn]. exists r.
    repeat split; try assumption. now destruct (totalObligations (clean r)).
  - intros (r & Hr & Hn & -> & Ho). split.
    + exists r. split; [reflexivity|]. now apply filter_In.
    + now destruct (totalObligations (clean r)).
Qed.

Lemma processData_geoid rawData row g :
  In row (processData rawData) -> geoid row = Some g ->
  hasGeoid row = true /\ isInherited (geoidKey row) = false.
Proof.
  intros (r & _ & _ & -> & _)%processData_In Hg. unfold hasGeoid, geoidKey. rewrite Hg.
  simpl in Hg. apply getGeoidFromDistrict_first_digit in Hg as (c & s & -> & Hc).
  split; [reflexivity | now apply digit_key_not_inherited].
Qed.

Lemma processData_safe rawData :
  safeKeys geoidKey (List.filter hasGeoid (processData rawData)) = true.
Proof.
  unfold safeKeys. apply forallb_forall. intros row [Hin Hg]%filter_In.
  unfold hasGeoid in Hg. destruct (geoid row) as [g|] eqn:E; [|discriminate].
  destruct (processData_geoid _ _ _ Hin E) as [_ ->]. reflexivity.
Qed.

Lemma processData_drops_totals rawData :
  processData (List.filter notTotal rawData) = processData rawData.
Proof. unfold processData. now rewrite filter_idempotent. Qed.

End ProcessData.

(** ** Per-district counts and the maximum *)

Section DistrictDataClaim.
Import CancellationsDashboard.

(** C5.  On the cleaned data of any raw data, [calculateDistrictData]
    returns.  The count it records for a GEOID is the number of records
    whose [geoid] field is that GEOID, and a GEOID of no record has no
    entry.  When no record has a GEOID (in particular when there is no
    record) the two mappings are empty and the maximum is 1; otherwise the
    maximum is the largest per-GEOID count: some GEOID has that many
    records and none has more.  The maximum is never 0. *)
Theorem calculateDistrictData_max_guard :
  forall (toFixed : number -> nat -> string) (toLocaleString : number -> string)
         (rawData : list (gmap string string)),
    let data := processData rawData in
    exists dd,
      calculateDistrictData toFixed toLocaleString data = Some dd /\
      (forall g, districtCounts dd !! g =
         if (geoidCount g data =? 0)%nat then None else Some (geoidCount g data)) /\
      ((forall row, In row data -> geoid row = None) ->
         districtCounts dd = ∅ /\ hoverInfo dd = ∅ /\ maxContracts dd = 1%nat) /\
      ((exists row, In row data /\ geoid row <> None) ->
         (exists g, geoidCount g data = maxContracts dd) /\
         (forall g, (geoidCount g data <= maxContracts dd)%nat) /\
         (exists g, districtCounts dd !! g = Some (maxContracts dd)) /\
         (forall g n, districtCounts dd !! g = Some n -> (n <= maxContracts dd)%nat)) /\
      (1 <= maxContracts dd)%nat.
Proof.
  intros toFixed toLocaleString rawData data.
  pose proof (calculateDistrictData_unfold toFixed toLocaleString data) as Hu.
  unfold data in Hu at 2. rewrite processData_safe in Hu. fold data in Hu.
  eexists. split; [exact Hu|].
  pose proof (calculateDistrictData_counts toFixed toLocaleString _ _ Hu) as Hc.
  split; [exact Hc|].
  destruct (calculateDistrictData_max toFixed toLocaleString _ _ Hu) as [Hempty Hsome].
  assert (Hone : (1 <= maxContracts
                         (fold_left (recordDistrict toFixed toLocaleString)
                            (entries (groupsOf geoidKey (List.filter hasGeoid data)))
                            emptyDistrictData))%nat)
    by (rewrite fold_record_max; simpl; lia).
  split; [|split].
  - intros Hnone.
    assert (E : List.filter hasGeoid data = []).
    { destruct (List.filter hasGeoid data) as [|row rest] eqn:E; [reflexivity|].
      assert (Hin : In row (List.filter hasGeoid data)) by (rewrite E; now left).
      apply filter_In in Hin as [Hin Hg]. unfold hasGeoid in Hg.
      now rewrite (Hnone _ Hin) in Hg. }
    rewrite E. repeat split.
  - intros (row & Hin & Hg).
    destruct Hsome as [[g Hmax] Hle].
    { destruct (geoid row) as [g|] eqn:E; [|congruence].
      destruct (processData_geoid _ _ _ Hin E) as [Hh _].
      intros Hnil.
      assert (Hf : In row (List.filter hasGeoid data)) by (apply filter_In; now split).
      now rewrite Hnil in Hf. }
    repeat split.
    + exists g. rewrite Hc in Hmax.
      destruct (geoidCount g data =? 0)%nat; [discriminate | now injection Hmax].
    + intros g'. destruct (Nat.eqb_spec (geoidCount g' data) 0) as [->|Hnz]; [lia|].
      apply (Hle g'). rewrite Hc. now destruct (Nat.eqb_spec (geoidCount g' data) 0).
    + now exists g.
    + exact Hle.
  - exact Hone.
Qed.

Lemma calculateDistrictData_max_guard_witness :
  (exists dd,
     calculateDistrictData (fun _ _ => EmptyString) (fun _ => EmptyString) (processData [])
     = Some dd /\
     districtCounts dd = ∅ /\ hoverInfo dd = ∅ /\ maxContracts dd = 1%nat) /\
  (exists dd,
     calculateDistrictData (fun _ _ => EmptyString) (fun _ => EmptyString)
       (processData [ sampleRow "CA-37" "Acme" "$1,000,000" "2025-01-01";
                      sampleRow "TX-07" "Beta" "$500,000" "2025-02-01";
                      sampleRow "ca-37" "Beta" "$250,000" "2025-03-01";
                      sampleRow "Total" "" "$1,750,000" "Total" ])
     = Some dd /\
     districtCounts dd !! "0637"%string = Some 2%nat /\
     districtCounts dd !! "4807"%string = Some 1%nat /\
     (2 <= maxContracts dd)%nat /\
     exists g, districtCounts dd !! g = Some (maxContracts dd)).
Proof.
  split.
  - destruct (calculateDistrictData_max_guard (fun _ _ => EmptyString) (fun _ => EmptyString) [])
      as (dd & H & _ & Hempty & _).
    exists dd. split; [exact H|]. apply Hempty. intros row [].
  - destruct (calculateDistrictData_max_guard (fun _ _ => EmptyString) (fun _ => EmptyString)
                [ sampleRow "CA-37" "Acme" "$1,000,000" "2025-01-01";
                  sampleRow "TX-07" "Beta" "$500,000" "2025-02-01";
                  sampleRow "ca-37" "Beta" "$250,000" "2025-03-01";
                  sampleRow "Total" "" "$1,750,000" "Total" ])
      as (dd & H & Hcount & _ & Hmax & _).
    exists dd. split; [exact H|].
    destruct Hmax as (_ & Hle & Hex & _).
    { eexists. split; [left; reflexivity|]. vm_compute. discriminate. }
    split; [rewrite Hcount; vm_compute; reflexivity|].
    split; [rewrite Hcount; vm_compute; reflexivity|].
    split; [|exact Hex].
    specialize (Hle "0637"%string). vm_compute in Hle. exact Hle.
Defined.

End DistrictDataClaim.

(** ** Aggregation under permutation *)

Section AggregationClaim.
Import CancellationsDashboard.

Lemma keys_Permutation {A : Type} (key : A -> string) (data data' : list A) k :
  Permutation data data' -> (In k (map key data) <-> In k (map key data')).
Proof.
  intros HP. split; apply Permutation_in; [|symmetry]; now apply Permutation_map.
Qed.

Lemma groupOf_length_Permutation {A : Type} (key : A -> string) (data data' : list A) k :
  Permutation data data' ->
  length (groupOf key k data) = length (groupOf key k data').
Proof. intros HP. now apply Permutation_length, groupOf_Permutation. Qed.

(** C4, as the code has it.  Under any permutation of the records, each of
    the three groupings fails or succeeds alike, the per-GEOID counts and
    the maximum are identical, and the per-district and per-recipient
    counts are identical.  The obligation sum of a key is identical
    whenever the records of that key keep their relative order; the sums
    are binary64 additions made in record order. *)
Theorem aggregation_permutation :
  forall (toFixed : number -> nat -> string) (toLocaleString : number -> string)
         (data data' : list CleanRow),
    Permutation data data' ->
    option_map districtCounts (calculateDistrictData toFixed toLocaleString data)
    = option_map districtCounts (calculateDistrictData toFixed toLocaleString data') /\
    option_map maxContracts (calculateDistrictData toFixed toLocaleString data)
    = option_map maxContracts (calculateDistrictData toFixed toLocaleString data') /\
    (districtData toFixed toLocaleString data = None <->
     districtData toFixed toLocaleString data' = None) /\
    (recipientData toFixed toLocaleString data = None <->
     recipientData toFixed toLocaleString data' = None) /\
    sameMapping (districtCountsOf (districtData toFixed toLocaleString data))
                (districtCountsOf (districtData toFixed toLocaleString data')) /\
    sameMapping (recipientCountsOf (recipientData toFixed toLocaleString data))
                (recipientCountsOf (recipientData toFixed toLocaleString data')) /\
    (forall k, groupOf districtKey k data = groupOf districtKey k data' ->
       forall s, In (k, s) (districtSumsOf (districtData toFixed toLocaleString data)) <->
                 In (k, s) (districtSumsOf (districtData toFixed toLocaleString data'))) /\
    (forall k, groupOf recipientKey k data = groupOf recipientKey k data' ->
       forall s, In (k, s) (recipientTotalsOf (recipientData toFixed toLocaleString data)) <->
                 In (k, s) (recipientTotalsOf (recipientData toFixed toLocaleString data'))).
Proof.
  intros toFixed toLocaleString data data' HP.
  pose proof (filter_Permutation' hasGeoid _ _ HP) as HPg.
  assert (Hcount : forall g, geoidCount g data = geoidCount g data')
    by (intros g; unfold geoidCount; rewrite !geoidRows_groupOf;
        now apply groupOf_length_Permutation).
  assert (Hmaps : option_map districtCounts (calculateDistrictData toFixed toLocaleString data)
    = option_map districtCounts (calculateDistrictData toFixed toLocaleString data')).
  { pose proof (calculateDistrictData_unfold toFixed toLocaleString data) as U.
    pose proof (calculateDistrictData_unfold toFixed toLocaleString data') as U'.
    rewrite (safeKeys_Permutation geoidKey _ _ HPg) in U.
    destruct (calculateDistrictData toFixed toLocaleString data) as [dd|] eqn:E;
      destruct (calculateDistrictData toFixed toLocaleString data') as [dd'|] eqn:E';
      destruct (safeKeys geoidKey (List.filter hasGeoid data')); try discriminate;
      [|reflexivity].
    simpl. f_equal. apply map_eq. intros g.
    rewrite (calculateDistrictData_counts _ _ _ _ E), (calculateDistrictData_counts _ _ _ _ E').
    now rewrite Hcount. }
  split; [exact Hmaps|]. split.
  { destruct (calculateDistrictData toFixed toLocaleString data) as [dd|] eqn:E;
      destruct (calculateDistrictData toFixed toLocaleString data') as [dd'|] eqn:E';
      try discriminate; [|reflexivity].
    simpl in *. injection Hmaps as Hm. f_equal.
    destruct (calculateDistrictData_max _ _ _ _ E) as [He Hs].
    destruct (calculateDistrictData_max _ _ _ _ E') as [He' Hs'].
    destruct (List.filter hasGeoid data) as [|row rest] eqn:F.
    - apply Permutation_nil in HPg. rewrite He, He'; auto.
    - assert (F' : List.filter hasGeoid data' <> [])
        by (intros F'; rewrite F' in HPg; symmetry in HPg; now apply Permutation_nil in HPg).
      destruct (Hs ltac:(discriminate)) as [[g Hg] Hb].
      destruct (Hs' F') as [[g' Hg'] Hb'].
      rewrite Hm in Hg, Hb. apply Nat.le_antisymm; [now apply (Hb' g) | now apply (Hb g')]. }
  split.
  { rewrite !districtData_unfold, (safeKeys_Permutation districtKey _ _ HP).
    now destruct (safeKeys districtKey data'). }
  split.
  { rewrite !recipientData_unfold, (safeKeys_Permutation recipientKey _ _ HP).
    now destruct (safeKeys recipientKey data'). }
  split.
  { intros k c. rewrite !districtCountsOf_In, (safeKeys_Permutation districtKey _ _ HP),
      (keys_Permutation districtKey _ _ k HP), (groupOf_length_Permutation districtKey _ _ k HP).
    reflexivity. }
  split.
  { intros k c. rewrite !recipientCountsOf_In, (safeKeys_Permutation recipientKey _ _ HP),
      (keys_Permutation recipientKey _ _ k HP), (groupOf_length_Permutation recipientKey _ _ k HP).
    reflexivity. }
  split.
  { intros k Hk s. rewrite !districtSumsOf_In, (safeKeys_Permutation districtKey _ _ HP),
      (keys_Permutation districtKey _ _ k HP). unfold sumOf. now rewrite Hk. }
  { intros k Hk s. rewrite !recipientTotalsOf_In, (safeKeys_Permutation recipientKey _ _ HP),
      (keys_Permutation recipientKey _ _ k HP). unfold sumOf. now rewrite Hk. }
Qed.

Lemma aggregation_permutation_witness :
  let a := clean (sampleRow "CA-37" "Acme" "$1,000,000" "2025-01-01") in
  let b := clean (sampleRow "TX-07" "Beta" "$500,000" "2025-02-01") in
  Permutation [a; b] [b; a] /\
  sameMapping
    (districtCountsOf (districtData (fun _ _ => EmptyString) (fun _ => EmptyString) [a; b]))
    (districtCountsOf (districtData (fun _ _ => EmptyString) (fun _ => EmptyString) [b; a])).
Proof.
  intros a b. split; [apply perm_swap|].
  apply (aggregation_permutation (fun _ _ => EmptyString) (fun _ => EmptyString) [a; b] [b; a]).
  apply perm_swap.
Defined.

(** C4, counterexample to the claim as stated: three records of one
    district with obligations 0.1, 0.2 and 0.3, and the same records in
    reverse order.  The district total is 0.6000000000000001 in the first
    order and 0.6 in the second. *)
Lemma aggregation_sum_depends_on_order :
  let data := [ clean (sampleRow "CA-37" "Acme" "0.1" "2025-01-01");
                clean (sampleRow "CA-37" "Acme" "0.2" "2025-01-01");
                clean (sampleRow "CA-37" "Acme" "0.3" "2025-01-01") ] in
  Permutation data (rev data) /\
  districtSumsOf (districtData (fun _ _ => EmptyString) (fun _ => EmptyString) data)
    = [("CA-37"%string, S754_finite false 5404319552844596 (-53))] /\
  districtSumsOf (districtData (fun _ _ => EmptyString) (fun _ => EmptyString) (rev data))
    = [("CA-37"%string, S754_finite false 5404319552844595 (-53))] /\
  ~ aggregation_commutes.
Proof.
  intros data.
  assert (H1 : districtSumsOf (districtData (fun _ _ => EmptyString) (fun _ => EmptyString) data)
               = [("CA-37"%string, S754_finite false 5404319552844596 (-53))])
    by (vm_compute; reflexivity).
  assert (H2 : districtSumsOf
                 (districtData (fun _ _ => EmptyString) (fun _ => EmptyString) (rev data))
               = [("CA-37"%string, S754_finite false 5404319552844595 (-53))])
    by (vm_compute; reflexivity).
  split; [apply Permutation_rev|]. split; [exact H1|]. split; [exact H2|].
  intros H.
  destruct (H (fun _ _ => EmptyString) (fun _ => EmptyString) data (rev data)
              (Permutation_rev data)) as (_ & _ & Hs & _).
  specialize (Hs "CA-37"%string (S754_finite false 5404319552844596 (-53))).
  rewrite H1, H2 in Hs. destruct Hs as [Hs _].
  destruct (Hs (or_introl eq_refl)) as [E|[]]. discriminate E.
Qed.

End AggregationClaim.

(** ** Sorted tables *)

(** *** The order of [Object.entries] *)

Section Canonical.









End Canonical.

Section Precedes.

Context {B : Type}.









End Precedes.




Section EntryOrder.

Context {V : Type}.





End EntryOrder.

Section SortedTables.
Import CancellationsDashboard.

Lemma sameNumber_eq x y : sameNumber x y = true -> x = y.
Proof.
  destruct x as [a|a| |a m e], y as [b|b| |b m' e']; simpl; try discriminate; try reflexivity.
  - now intros ->%Bool.eqb_prop.
  - now intros ->%Bool.eqb_prop.
  - intros [[->%Bool.eqb_prop ->%Pos.eqb_eq]%andb_prop ->%Z.eqb_eq]%andb_prop. reflexivity.
Qed.




Variable toFixed : number -> nat -> string.
Variable toLocaleString : number -> string.






End SortedTables.

Section SortedTablesClaim.
Import CancellationsDashboard.



(** Recipients named by array indices are listed in ascending numeric
    order before the others, whatever the order of the records. *)
Example recipients_named_by_indices :
  renderRecipientsTable (fun _ _ => EmptyString) (fun _ => "100"%string)
    [ clean (sampleRow "CA-01" "Beta" "$100" "2025-01-01");
      clean (sampleRow "CA-01" "10" "$100" "2025-01-01");
      clean (sampleRow "CA-01" "9" "$100" "2025-01-01");
      clean (sampleRow "CA-01" "Alpha" "$100" "2025-01-01") ]
  = Some [("9", 1%nat, "$100"); ("10", 1%nat, "$100"); ("Beta", 1%nat, "$100");
          ("Alpha", 1%nat, "$100")]%string.
Proof. vm_compute. reflexivity. Qed.


End SortedTablesClaim.

(** ** Amounts in the hover text and the tables *)

Section FormatCurrencyClaim.
Import CancellationsDashboard.

Lemma formatCurrency_fullAmount toFixed toLocaleString v decimals :
  Utils.formatCurrency toFixed toLocaleString
    (match v with Some n => Num n | None => Null end) false decimals
  = fullAmount toLocaleString v.
Proof. destruct v as [[s|[]| |[] m e]|]; reflexivity. Qed.

(** C10.  [formatCurrency] renders null, undefined, NaN and every strictly
    negative number as N/A, zero as $0, and every positive number as a
    dollar sign followed by the formatted amount (for a number of decimals
    [toFixed] accepts); a currency string is rendered as the number it
    parses to, N/A when it does not parse.  In the hover text, in the
    contracts table and in the totals of the districts and recipients
    tables an amount is shown as N/A when it is missing, not a number or
    negative, as $0 when it is zero and as a dollar sign followed by the
    host's rendering of the positive number otherwise: a negative amount is
    never handed to the host's number formatting. *)
Theorem formatCurrency_rendering :
  forall (toFixed : number -> nat -> string) (toLocaleString : number -> string)
         (abbreviated : bool) (decimals : nat),
    let format := fun v => Utils.formatCurrency toFixed toLocaleString v abbreviated decimals in
    format Null = "N/A"%string /\ format Undefined = "N/A"%string /\
    (forall n, isNaN n = true \/ lt n posZero = true -> format (Num n) = "N/A"%string) /\
    (forall n, strictEq n posZero = true -> format (Num n) = "$0"%string) /\
    (forall n, gt n posZero = true -> (decimals <= 100)%nat ->
       exists amount, format (Num n) = "$" +:+ amount /\
         amount =
           if abbreviated then
             if ge n (ofZ 1000000000) then toFixed (div n (ofZ 1000000000)) decimals +:+ "B"
             else if ge n (ofZ 1000000) then toFixed (div n (ofZ 1000000)) decimals +:+ "M"
             else if ge n (ofZ 1000) then toFixed (div n (ofZ 1000)) decimals +:+ "K"
             else toFixed n 0%nat
           else toLocaleString n) /\
    (forall n, isNaN n = true \/ lt n posZero = true \/
               strictEq n posZero = true \/ gt n posZero = true) /\
    (forall s, format (Str s) =
       match parseCurrency (Str s) with
       | None => "N/A"%string
       | Some n => format (Num n)
       end) /\
    (forall n, isNaN n = true \/ lt n posZero = true ->
       fullAmount toLocaleString (Some n) = "N/A"%string) /\
    (forall row : CleanRow,
       hoverLine toFixed toLocaleString row
       = "<b>" +:+ text (raw row) "Recipient" +:+ "</b><br>"
         +:+ fullAmount toLocaleString (totalObligations row)
         +:+ " (Award ID: " +:+ text (raw row) "Award ID" +:+ ")") /\
    (forall data cells, In cells (renderContractsTable toFixed toLocaleString data) ->
       exists row, In row data /\
         nth 6 cells Undefined = Str (fullAmount toLocaleString (totalObligations row)) /\
         nth 7 cells Undefined = Str (fullAmount toLocaleString (totalOutlays row))) /\
    (forall data table e,
       districtData toFixed toLocaleString data = Some table -> In e table ->
       rawObligations e = sumOf districtKey (district e) data /\
       districtTotalObligations e = fullAmount toLocaleString (Some (rawObligations e))) /\
    (forall data table e,
       recipientData toFixed toLocaleString data = Some table -> In e table ->
       recipientTotalObligations e
       = fullAmount toLocaleString (Some (sumOf recipientKey (recipient e) data))).
Proof.
  intros toFixed toLocaleString abbreviated decimals format. unfold format.
  split; [reflexivity|]. split; [reflexivity|].
  split; [intros n; apply formatCurrency_invalid|].
  split; [intros n; apply formatCurrency_zero|].
  split; [intros n H _; eexists; split; [now apply formatCurrency_positive | reflexivity]|].
  split; [exact number_sign_cases|].
  split; [intros s; apply formatCurrency_Str|].
  split.
  { intros n [H|H]; destruct n as [s|[]| |[] m e]; try discriminate H; reflexivity. }
  split.
  { intros row. unfold hoverLine, formatCurrency, obligations.
    now rewrite formatCurrency_fullAmount. }
  split.
  { intros data cells (row & <- & Hin)%in_map_iff. exists row. split; [exact Hin|].
    cbn [nth]. unfold formatCurrency, obligations, outlays.
    now rewrite !formatCurrency_fullAmount. }
  split.
  { intros data table e Ht Hin.
    pose proof (districtData_In toFixed toLocaleString data e) as H. rewrite Ht in H.
    apply H in Hin as (_ & k & _ & ->). cbn [rawObligations districtTotalObligations districtEntryOf
      district fst snd]. split; [reflexivity|].
    apply (formatCurrency_fullAmount toFixed toLocaleString (Some _)). }
  intros data table e Ht Hin.
  pose proof (recipientData_In toFixed toLocaleString data e) as H. rewrite Ht in H.
  apply H in Hin as (_ & k & _ & ->). cbn [recipientTotalObligations recipientEntryOf recipient
    fst snd].
  apply (formatCurrency_fullAmount toFixed toLocaleString (Some _)).
Qed.

Lemma formatCurrency_rendering_witness :
  (lt (ofZ (-5)) posZero = true /\
   Utils.formatCurrency (fun _ _ => EmptyString) (fun _ => EmptyString) (Num (ofZ (-5))) true 1
   = "N/A"%string) /\
  (gt (ofZ 1500) posZero = true /\
   exists amount,
     Utils.formatCurrency (fun _ _ => "1.5"%string) (fun _ => "1,500"%string) (Num (ofZ 1500)) true 1
     = "$" +:+ amount) /\
  hoverLine (fun _ _ => EmptyString) (fun _ => "5"%string)
    (clean (sampleRow "CA-37" "Acme" "-$5" "2025-01-01"))
  = "<b>Acme</b><br>N/A (Award ID: undefined)"%string.
Proof.
  split; [|split].
  - split; [reflexivity|].
    apply (proj1 (proj2 (proj2
             (formatCurrency_rendering (fun _ _ => EmptyString) (fun _ => EmptyString) true 1)))).
    right. reflexivity.
  - split; [reflexivity|].
    destruct (proj1 (proj2 (proj2 (proj2 (proj2
                (formatCurrency_rendering (fun _ _ => "1.5"%string) (fun _ => "1,500"%string)
                   true 1)))))
                (ofZ 1500) eq_refl ltac:(lia)) as (amount & H & _).
    now exists amount.
  - rewrite (proj1 (proj2 (proj2 (proj2 (proj2 (proj2 (proj2 (proj2 (proj2
               (formatCurrency_rendering (fun _ _ => EmptyString) (fun _ => "5"%string)
                  false 1)))))))))).
    vm_compute. reflexivity.
Defined.

End FormatCurrencyClaim.

(** ** Total rows *)

Section TotalRows.
Import CancellationsDashboard SyncSpendingData.

Lemma notTotal_isTotalRow row : notTotal row = negb (isTotalRow row).
Proof. reflexivity. Qed.

Lemma processData_app raw1 raw2 :
  processData (raw1 ++ raw2) = processData raw1 ++ processData raw2.
Proof. unfold processData. now rewrite !List.filter_app, map_app, List.filter_app. Qed.

Lemma df_cleaned_prefix df :
  exists rest, df = df_cleaned df ++ rest /\
    match rest with
    | [] => True
    | row :: _ => endDate row = "Total"%string
    end.
Proof.
  induction df as [|row r (rest & E & H)]; [now exists []|]. simpl.
  destruct (String.eqb_spec (endDate row) "Total") as [Ht|_].
  - now exists (row :: r).
  - exists rest. split; [simpl; now f_equal | exact H].
Qed.

Lemma df_cleaned_In df row : In row (df_cleaned df) -> endDate row <> "Total"%string.
Proof.
  induction df as [|r rest IH]; simpl; [contradiction|].
  destruct (String.eqb_spec (endDate r) "Total") as [|Hne]; [contradiction|].
  intros [<-|Hin]; [exact Hne | now apply IH].
Qed.

End TotalRows.

Section TotalRowsClaim.
Import CancellationsDashboard SyncSpendingData.

(** C2, as the code has it.  In the dashboard, [processData] drops every
    row whose end-date field reads Total in any case before anything is
    aggregated: no such row is in the cleaned data, and the cleaned data,
    and with it every count, sum, hover text and table, is what it is
    without those rows.  The report script compares with the exact text
    Total and keeps the rows before the first such row only. *)
Theorem total_rows_dropped :
  forall (toFixed : number -> nat -> string) (toLocaleString : number -> string)
         (rawData : list (gmap string string)),
    (forall row, In row (processData rawData) ->
       isTotalRow (raw row) = false /\ In (raw row) rawData) /\
    processData (List.filter (fun row => negb (isTotalRow row)) rawData) = processData rawData /\
    (forall raw1 raw2 total, isTotalRow total = true ->
       processData (raw1 ++ total :: raw2) = processData (raw1 ++ raw2)) /\
    calculateDistrictData toFixed toLocaleString
      (processData (List.filter (fun row => negb (isTotalRow row)) rawData))
    = calculateDistrictData toFixed toLocaleString (processData rawData) /\
    renderDistrictsTable toFixed toLocaleString
      (processData (List.filter (fun row => negb (isTotalRow row)) rawData))
    = renderDistrictsTable toFixed toLocaleString (processData rawData) /\
    renderRecipientsTable toFixed toLocaleString
      (processData (List.filter (fun row => negb (isTotalRow row)) rawData))
    = renderRecipientsTable toFixed toLocaleString (processData rawData) /\
    renderContractsTable toFixed toLocaleString
      (processData (List.filter (fun row => negb (isTotalRow row)) rawData))
    = renderContractsTable toFixed toLocaleString (processData rawData) /\
    (forall row, In row (df_cleaned rawData) -> endDate row <> "Total"%string) /\
    (exists rest, rawData = df_cleaned rawData ++ rest /\
       match rest with
       | [] => True
       | row :: _ => endDate row = "Total"%string
       end).
Proof.
  intros toFixed toLocaleString rawData.
  assert (E : processData (List.filter (fun row => negb (isTotalRow row)) rawData)
              = processData rawData) by apply processData_drops_totals.
  split.
  { intros row (r & Hr & Hn & -> & _)%processData_In. simpl.
    rewrite notTotal_isTotalRow in Hn. apply negb_true_iff in Hn. now split. }
  split; [exact E|]. split.
  { intros raw1 raw2 total Ht. rewrite !processData_app. f_equal.
    change (total :: raw2) with ([total] ++ raw2). rewrite processData_app.
    unfold processData at 1. simpl. rewrite notTotal_isTotalRow, Ht. reflexivity. }
  rewrite !E. repeat (split; [reflexivity|]).
  split; [intros row; apply df_cleaned_In | apply df_cleaned_prefix].
Qed.

Lemma total_rows_dropped_witness :
  let total := sampleRow "" "" "$1,500,000" "TOTAL" in
  let acme := sampleRow "CA-37" "Acme" "$1,000,000" "2025-01-01" in
  let beta := sampleRow "CA-37" "Beta" "$500,000" "2025-02-01" in
  isTotalRow total = true /\
  processData ([acme; beta] ++ total :: []) = processData ([acme; beta] ++ []).
Proof.
  intros total acme beta. split; [reflexivity|].
  apply (total_rows_dropped (fun _ _ => EmptyString) (fun _ => EmptyString) []).
  reflexivity.
Defined.

(** C2, counterexample to the claim as stated: the report script keeps a
    row whose end-date field reads total in lower case. *)
Lemma df_cleaned_keeps_lower_case_total :
  let row := sampleRow "" "" "$1,500,000" "total" in
  isTotalRow row = true /\
  df_cleaned [row] = [row] /\
  ~ total_rows_excluded.
Proof.
  intros row. split; [reflexivity|]. split; [reflexivity|].
  intros [_ H]. specialize (H [row] row (or_introl eq_refl)). discriminate H.
Qed.

Example end_to_end_scenario :
  let rawData := [ sampleRow "CA-37" "Acme" "$1,000,000" "2025-01-01";
                   sampleRow "CA-37" "Beta" "$500,000" "2025-02-01";
                   sampleRow "Total" "" "" "Total" ] in
  let data := processData rawData in
  length data = 2%nat /\
  option_map (fun dd => (districtCounts dd !! "0637"%string, maxContracts dd))
    (calculateDistrictData (fun _ _ => EmptyString) (fun _ => EmptyString) data)
  = Some (Some 2%nat, 2%nat) /\
  districtSumsOf (districtData (fun _ _ => EmptyString) (fun _ => EmptyString) data)
  = [("CA-37"%string, ofZ 1500000)].
Proof. vm_compute. repeat split. Qed.

End TotalRowsClaim.

(** ** Delimited text *)

Section CSV.








Lemma fillRow_proto headers : forall index values row,
  fillRow headers index values row !! "__proto__"%string = row !! "__proto__"%string.
Proof.
  induction headers as [|h rest IH]; intros index values row; [reflexivity|].
  cbn [fillRow]. rewrite IH.
  destruct (String.eqb_spec (trim h) "__proto__"); [reflexivity|].
  now apply lookup_insert_ne.
Qed.















End CSV.

Section CSVClaim.

(** C8, at a header row that names [__proto__].  The row built for the
    data line has no entry for that header: the only mapping is that of the
    second header, where the documentation of [parseCSV] promises row
    objects with the header keys. *)
Theorem parseCSV_proto_header :
  parseCSV ("__proto__,District" +:+ String "010" "x,CA-37")
  = [ <["District" := "CA-37"]> ∅ ]%string /\
  rowOf ["__proto__"; "District"]%string ["x"; "CA-37"]%string !! "__proto__"%string = None /\
  (forall headers values, rowOf headers values !! "__proto__"%string = None).
Proof.
  split; [vm_compute; reflexivity|]. split; [reflexivity|].
  intros headers values. apply fillRow_proto.
Qed.



Example parseCSV_sample :
  let nl := String "010" EmptyString in
  let dq := String "034" EmptyString in
  parseCSV ("District, Recipient ,Total Obligations" +:+ nl
               +:+ "CA-37," +:+ dq +:+ "Acme, " +:+ dq +:+ dq +:+ "Inc" +:+ dq +:+ dq +:+ dq
               +:+ "," +:+ dq +:+ "$1,000" +:+ dq +:+ nl
               +:+ "   " +:+ nl
               +:+ "TX-07,Beta" +:+ nl)
  = [ list_to_map [("District", "CA-37"); ("Recipient", "Acme, " +:+ dq +:+ "Inc" +:+ dq);
                   ("Total Obligations", "$1,000")];
      list_to_map [("District", "TX-07"); ("Recipient", "Beta");
                   ("Total Obligations", EmptyString)] ]%string.
Proof. vm_compute. reflexivity. Qed.

End CSVClaim.

(** ** The continuous colour scale of the map build *)

Import SyncSpendingData.

Section Binary64Bounds.




































End Binary64Bounds.

Section ChoroplethColor.



End ChoroplethColor.

Section Rounding.















Lemma pow2_pos x : 0 <= x -> 0 < 2 ^ x.
Proof. intros. apply Z.pow_pos_nonneg; lia. Qed.



End Rounding.

Section RealValue.
Local Open Scope R_scope.

Lemma IZR_pow2 k : (0 <= k)%Z -> IZR (2 ^ k) = powerRZ 2 k.
Proof.
  destruct k as [|p|p]; intros H; [reflexivity| |lia].
  change (2 ^ Z.pos p)%Z with (Z.pow_pos 2 p). apply Zpower_pos_powerRZ.
Qed.

Lemma pow2R_pos e : 0 < powerRZ 2 e.
Proof. apply powerRZ_lt. lra. Qed.

Lemma pow2R_add a b : powerRZ 2 (a + b) = powerRZ 2 a * powerRZ 2 b.
Proof. apply powerRZ_add. lra. Qed.

Lemma pow2R_le a b : (a <= b)%Z -> powerRZ 2 a <= powerRZ 2 b.
Proof.
  intros H. replace b with (a + (b - a))%Z by lia. rewrite pow2R_add.
  rewrite <- (IZR_pow2 (b - a)) by lia.
  assert (1 <= IZR (2 ^ (b - a))).
  { apply IZR_le. pose proof (pow2_pos (b - a) ltac:(lia)). lia. }
  pose proof (pow2R_pos a). nra.
Qed.




End RealValue.

Section RealError.
Local Open Scope R_scope.


Lemma valueOf_sign s m e :
  valueOf (S754_finite s m e) = IZR (cond_Zopp s 1) * (IZR (Z.pos m) * powerRZ 2 e).
Proof. destruct s; unfold valueOf, cond_Zopp; rewrite ?opp_IZR; ring. Qed.

Lemma Rabs_sign s : Rabs (IZR (cond_Zopp s 1)) = 1.
Proof.
  destruct s; unfold cond_Zopp; rewrite ?opp_IZR, ?Rabs_Ropp; apply Rabs_R1.
Qed.













Lemma small_exponent_value s m e :
  (Z.pos m < 2 ^ 53)%Z -> (e <= -52)%Z -> Rabs (valueOf (S754_finite s m e)) < 2.
Proof.
  intros Hm He. rewrite valueOf_sign, Rabs_mult, Rabs_sign, Rmult_1_l.
  pose proof (pow2R_pos e) as Hp.
  rewrite Rabs_right.
  2:{ apply Rle_ge, Rmult_le_pos; [apply IZR_le; lia|lra]. }
  apply IZR_lt in Hm. rewrite IZR_pow2 in Hm by lia.
  pose proof (pow2R_le e (-52) He) as Hle.
  assert (H53 : powerRZ 2 53 * powerRZ 2 (-52) = 2).
  { rewrite <- pow2R_add. change (powerRZ 2 (53 + -52)) with (2 * 1). ring. }
  assert (0 < IZR (Z.pos m)) by (apply IZR_lt; lia).
  nra.
Qed.





End RealError.

Section ChannelError.
Local Open Scope R_scope.




End ChannelError.

Section ChoroplethColorClaim.

Example get_choropleth_color_samples :
  map (fun count => get_choropleth_color count 5) [-3; 0; 1; 2; 3; 4; 5; 6] =
  map Some ["#ffffff"; "#ffffff"; "#d19690"; "#c47770"; "#b6584f"; "#a9392e";
            "#9c1a0e"; "#9c1a0e"] /\
  get_choropleth_color 7 1 = Some "#d19690" /\
  get_choropleth_color 7 0 = Some "#d19690" /\
  get_choropleth_color 0 0 = Some "#ffffff".
Proof. vm_compute. repeat split. Qed.



End ChoroplethColorClaim.

(** * The shared helpers and their callers *)

(** ** Truncated text *)

Section TruncateText.

Lemma takeChars_length n s : String.length (takeChars n s) = Nat.min n (String.length s).
Proof.
  revert s. induction n as [|n IH]; intros [|c r]; simpl; try reflexivity.
  now rewrite IH.
Qed.

Lemma takeChars_get n s j :
  String.get j (takeChars n s) = if (j <? n)%nat then String.get j s else None.
Proof.
  revert s j. induction n as [|n IH]; intros [|c r] j; simpl.
  - reflexivity.
  - reflexivity.
  - now destruct (j <? S n)%nat.
  - destruct j as [|j]; [reflexivity|]. rewrite IH. reflexivity.
Qed.

Lemma substring_0 s n : substring s 0 n = takeChars n s.
Proof.
  unfold substring. rewrite Nat.min_0_l, Nat.max_0_l, Nat.sub_0_r. now destruct s.
Qed.

Lemma get_None s j : (String.length s <= j)%nat -> String.get j s = None.
Proof.
  revert j. induction s as [|c r IH]; intros j H; [reflexivity|].
  destruct j as [|j]; simpl in *; [lia|]. apply IH. lia.
Qed.

(** The position [lastIndexOf] returns holds the character, and no later
    position does. *)
Lemma lastIndexOf_from_spec c s : forall i,
  match lastIndexOf_from i s c with
  | Some j => (i <= j < i + String.length s)%nat /\ String.get (j - i) s = Some c /\
              forall k, (j - i < k)%nat -> String.get k s <> Some c
  | None => forall k, String.get k s <> Some c
  end.
Proof.
  induction s as [|d r IH]; intros i; simpl.
  - intros k. now destruct k.
  - specialize (IH (S i)). destruct (lastIndexOf_from (S i) r c) as [j|].
    + destruct IH as (Hj & Hg & Hl). split; [lia|].
      replace (j - i)%nat with (S (j - S i)) by lia. split; [exact Hg|].
      intros k Hk. destruct k as [|k]; [lia|]. apply Hl. lia.
    + destruct (Ascii.eqb_spec d c) as [->|Hne].
      * split; [lia|]. rewrite Nat.sub_diag. split; [reflexivity|].
        intros k Hk. destruct k as [|k]; [lia|]. apply IH.
      * intros [|k]; [congruence|apply IH].
Qed.

(** X1. [truncateText] returns a string of at most [maxLength] characters
    unchanged; a longer one is cut to its first [cutPoint] characters
    followed by three dots, so the result has at most [maxLength + 3]
    characters; [cutPoint] is the position of the last space among the first
    [maxLength] characters when there is one after position 0, and it is
    [maxLength] only when no position from 1 to [maxLength - 1] holds a
    space. *)
Theorem truncateText_cut (s : string) (maxLength : nat) :
  exists r, truncateText (Str s) maxLength = Some r /\
    ((String.length s <= maxLength)%nat -> r = s) /\
    ((maxLength < String.length s)%nat ->
       exists cutPoint,
         r = substring s 0 cutPoint +:+ "..." /\
         String.length r = (cutPoint + 3)%nat /\
         (cutPoint <= maxLength)%nat /\
         (forall j, (cutPoint < j < maxLength)%nat -> String.get j s <> Some " "%char) /\
         ((cutPoint < maxLength)%nat ->
            (0 < cutPoint)%nat /\ String.get cutPoint s = Some " "%char) /\
         (cutPoint = maxLength ->
            forall j, (0 < j < maxLength)%nat -> String.get j s <> Some " "%char)).
Proof.
  unfold truncateText.
  destruct (String.eqb_spec s EmptyString) as [->|Hne]; simpl orb.
  { exists EmptyString. split; [reflexivity|]. split; [reflexivity|]. simpl. lia. }
  destruct (Nat.leb_spec (String.length s) maxLength) as [Hle|Hlt].
  { exists s. split; [reflexivity|]. split; [reflexivity|]. lia. }
  eexists. split; [reflexivity|]. split; [lia|]. intros _.
  rewrite !substring_0.
  pose proof (lastIndexOf_from_spec " " (takeChars maxLength s) 0) as Hspec.
  fold (lastIndexOf (takeChars maxLength s) " ") in Hspec.
  assert (Hlen : String.length (takeChars maxLength s) = maxLength)
    by (rewrite takeChars_length; lia).
  assert (Hshape : forall cut, (cut <= maxLength)%nat ->
            String.length (takeChars cut s +:+ "...") = (cut + 3)%nat).
  { intros cut Hc. rewrite append_length, takeChars_length. simpl. lia. }
  assert (Hget : forall k, (k < maxLength)%nat ->
            String.get k (takeChars maxLength s) = String.get k s).
  { intros k Hk. rewrite takeChars_get. destruct (Nat.ltb_spec k maxLength); [reflexivity|lia]. }
  destruct (lastIndexOf (takeChars maxLength s) " ") as [[|i]|].
  - destruct Hspec as (_ & _ & Hl). rewrite Nat.sub_0_r in Hl.
    exists maxLength. rewrite substring_0.
    split; [reflexivity|]. split; [now apply Hshape|]. split; [lia|].
    split; [intros j Hj; lia|]. split; [intros Hc; lia|].
    intros _ j Hj. rewrite <- Hget by lia. apply Hl. lia.
  - destruct Hspec as (Hj & Hg & Hl). rewrite Hlen in Hj. rewrite Nat.sub_0_r in Hg, Hl.
    exists (S i). rewrite substring_0.
    split; [reflexivity|]. split; [apply Hshape; lia|]. split; [lia|].
    split; [|split].
    + intros j Hj'. rewrite <- Hget by lia. apply Hl. lia.
    + intros _. split; [lia|]. rewrite <- Hget by lia. exact Hg.
    + intros Hc. lia.
  - exists maxLength. rewrite substring_0.
    split; [reflexivity|]. split; [now apply Hshape|]. split; [lia|].
    split; [intros j Hj; lia|]. split; [intros Hc; lia|].
    intros _ j Hj. rewrite <- Hget by lia. apply Hspec.
Qed.

Lemma truncateText_cut_witness :
  exists r, truncateText (Str "to the moon and back") 9 = Some r /\
    ((String.length "to the moon and back" <= 9)%nat -> r = "to the moon and back"%string) /\
    ((9 < String.length "to the moon and back")%nat ->
       exists cutPoint,
         r = substring "to the moon and back" 0 cutPoint +:+ "..." /\
         String.length r = (cutPoint + 3)%nat /\
         (cutPoint <= 9)%nat /\
         (forall j, (cutPoint < j < 9)%nat ->
            String.get j "to the moon and back" <> Some " "%char) /\
         ((cutPoint < 9)%nat ->
            (0 < cutPoint)%nat /\ String.get cutPoint "to the moon and back" = Some " "%char) /\
         (cutPoint = 9%nat ->
            forall j, (0 < j < 9)%nat -> String.get j "to the moon and back" <> Some " "%char)).
Proof. exact (truncateText_cut "to the moon and back" 9). Defined.

Example truncateText_samples :
  truncateText (Str "to the moon and back") 9 = Some "to the..."%string /\
  truncateText (Str "interplanetary") 5 = Some "inter..."%string /\
  truncateText (Str " interplanetary") 5 = Some " inte..."%string /\
  truncateText (Str "short") 200 = Some "short"%string /\
  truncateText Null 200 = Some EmptyString /\
  truncateText (Num (ofZ 7)) 200 = None.
Proof. vm_compute. repeat split. Qed.

Lemma substring0_takeChars n s : CancellationsDashboard.substring0 n s = takeChars n s.
Proof. revert s. induction n as [|n IH]; intros [|c r]; simpl; try reflexivity. Qed.

Lemma lastIndexOfSpace_lastIndexOf s : forall i,
  CancellationsDashboard.lastIndexOfSpace i s = lastIndexOf_from i s " ".
Proof.
  induction s as [|c r IH]; intros i; simpl; [reflexivity|]. rewrite IH. reflexivity.
Qed.

(** X2. On every string the dashboard's own [truncateText] method returns
    what the shared [truncateText] returns; on [null] and [undefined] the
    method hands the value back where the shared helper gives the empty
    string. *)
Theorem truncateText_method_agrees :
  (forall s maxLength,
     Some (CancellationsDashboard.truncateText (Str s) maxLength)
     = option_map Str (truncateText (Str s) maxLength)) /\
  (forall maxLength,
     CancellationsDashboard.truncateText Null maxLength = Null /\
     CancellationsDashboard.truncateText Undefined maxLength = Undefined /\
     truncateText Null maxLength = Some EmptyString /\
     truncateText Undefined maxLength = Some EmptyString).
Proof.
  split; [|repeat split].
  intros s maxLength. unfold CancellationsDashboard.truncateText, truncateText.
  destruct (String.eqb s EmptyString || (String.length s <=? maxLength)%nat); [reflexivity|].
  cbv zeta. rewrite !substring_0, !substring0_takeChars.
  unfold lastIndexOf. rewrite lastIndexOfSpace_lastIndexOf. reflexivity.
Qed.

End TruncateText.

(** ** District names and GEOIDs, both ways *)

Section DistrictNames.

Lemma takeChars_app a b : takeChars (String.length a) (a +:+ b) = a.
Proof. induction a as [|c r IH]; [now destruct b|]. rewrite append_cons. simpl. now rewrite IH. Qed.

Lemma dropChars_app a b : dropChars (String.length a) (a +:+ b) = b.
Proof. induction a as [|c r IH]; [now destruct b|]. rewrite append_cons. simpl. exact IH. Qed.

Lemma fold_insert_lookup (l : list (string * string)) : forall (m : gmap string string) v k,
  fold_left (fun m kv => <[snd kv := fst kv]> m) l m !! v = Some k ->
  In (k, v) l \/ m !! v = Some k.
Proof.
  induction l as [|[k' v'] r IH]; intros m v k H; simpl in *; [now right|].
  destruct (IH _ _ _ H) as [Hin|Hm]; [left; now right|].
  destruct (decide (v' = v)) as [->|Hne].
  - rewrite lookup_insert_eq in Hm. injection Hm as ->. left. now left.
  - rewrite lookup_insert_ne in Hm by assumption. now right.
Qed.

(** [FIPS_STATE_MAP] is the inverse of [STATE_FIPS_MAP]. *)
Lemma FIPS_STATE_MAP_inverse k v :
  FIPS_STATE_MAP !! v = Some k <-> STATE_FIPS_MAP !! k = Some v.
Proof.
  split.
  - intros H. apply fold_insert_lookup in H as [Hin|Hm]; [|now rewrite lookup_empty in Hm].
    apply elem_of_list_to_map_1; [apply STATE_FIPS_count|]. now apply list_elem_of_In.
  - intros H%STATE_FIPS_MAP_lookup%list_elem_of_In.
    assert (Hall : forallb (fun kv : string * string =>
                     match FIPS_STATE_MAP !! kv.2 with
                     | Some k' => String.eqb k' kv.1
                     | None => false
                     end) STATE_FIPS_entries = true) by (vm_compute; reflexivity).
    rewrite forallb_forall in Hall. specialize (Hall _ H). cbn [fst snd] in Hall.
    destruct (FIPS_STATE_MAP !! v) as [k'|]; [|discriminate].
    apply String.eqb_eq in Hall. now subst.
Qed.

Lemma STATE_FIPS_keys k v :
  STATE_FIPS_MAP !! k = Some v -> toUpperCase k = k /\ k <> EmptyString.
Proof.
  intros H%STATE_FIPS_MAP_lookup%list_elem_of_In.
  assert (Hall : forallb (fun kv : string * string =>
                   String.eqb (toUpperCase kv.1) kv.1 && negb (String.eqb kv.1 EmptyString))
                   STATE_FIPS_entries = true) by (vm_compute; reflexivity).
  rewrite forallb_forall in Hall. specialize (Hall _ H). cbn [fst snd] in Hall.
  apply andb_prop in Hall as [H1 H2]. apply String.eqb_eq in H1.
  split; [exact H1|]. intros ->. discriminate H2.
Qed.

Lemma districtSuffix_length dd : String.length (districtSuffix dd) = 2%nat.
Proof. unfold districtSuffix. destruct (String.eqb (toUpperCase dd) "ZZ"); reflexivity. Qed.

Lemma getDistrictFromGeoid_app fips suffix abbr :
  String.length fips = 2%nat -> String.length suffix = 2%nat ->
  FIPS_STATE_MAP !! fips = Some abbr ->
  getDistrictFromGeoid (fips +:+ suffix) FIPS_STATE_MAP = abbr +:+ "-" +:+ suffix.
Proof.
  intros Hf Hs Hm.
  assert (E1 : substring (fips +:+ suffix) 0 2 = fips).
  { rewrite <- Hf. unfold substring. rewrite Nat.min_0_l, Nat.max_0_l, Nat.sub_0_r.
    change (dropChars 0 (fips +:+ suffix)) with (fips +:+ suffix). apply takeChars_app. }
  assert (E2 : substringFrom (fips +:+ suffix) 2 = suffix).
  { rewrite <- Hf. apply dropChars_app. }
  unfold getDistrictFromGeoid. rewrite E1, E2.
  assert (Hlen : String.length (fips +:+ suffix) = 4%nat) by (rewrite append_length; lia).
  destruct (String.eqb_spec (fips +:+ suffix) EmptyString) as [E|_];
    [rewrite E in Hlen; discriminate Hlen|].
  rewrite Hlen. simpl orb. cbv iota.
  rewrite Hm. apply FIPS_STATE_MAP_inverse in Hm.
  destruct (STATE_FIPS_keys _ _ Hm) as [_ Hne].
  destruct (String.eqb_spec abbr EmptyString); [contradiction|reflexivity].
Qed.

(** X3. From a district name to its GEOID and back: for a district string
    SS-DD (SS a known abbreviation in any case, DD an integer in [0,99] or
    ZZ), [getStateFips] gives the FIPS code the GEOID starts with, and
    [getDistrictFromGeoid] turns the GEOID back into the district name in
    its canonical form, the abbreviation in upper case and the district
    number padded to two digits. *)
Theorem district_geoid_district (s : string) :
  isValidDistrict s = true ->
  exists ss dd fips,
    split "-" s = [ss; dd] /\
    getStateFips (Str ss) = Some fips /\
    getGeoidFromDistrict (Str s) = Some (fips +:+ districtSuffix dd) /\
    getDistrictFromGeoid (fips +:+ districtSuffix dd) FIPS_STATE_MAP
    = toUpperCase ss +:+ "-" +:+ districtSuffix dd.
Proof.
  intros Hv. destruct (getGeoidFromDistrict_valid s Hv) as (ss & dd & fips & Hs & Hm & Hg & _).
  exists ss, dd, fips.
  assert (Hsplit : split "-" s = [ss; dd]).
  { unfold isValidDistrict in Hv.
    destruct (split "-" s) as [|a [|b [|? ?]]] eqn:E; try discriminate.
    destruct (split_two_inv _ _ _ _ E) as (Heq & Ha & Hb).
    assert (E2 : split "-" s = [ss; dd]); [|congruence].
    rewrite Hs.
    destruct (STATE_FIPS_values _ _ Hm) as (_ & _ & Hi).
    rewrite includes_toUpperCase in Hi.
    change (ss +:+ "-" +:+ dd) with (ss +:+ String "-" dd).
    rewrite (split_app _ _ _ Hi).
    assert (Hd : includes dd "-" = false).
    { rewrite Hs in Heq. change (ss +:+ "-" +:+ dd) with (ss +:+ String "-" dd) in Heq.
      rewrite Hs in E. change (ss +:+ "-" +:+ dd) with (ss +:+ String "-" dd) in E.
      rewrite (split_app _ _ _ Hi) in E. injection E as _ E.
      now apply split_one_inv in E as [_ E]. }
    now rewrite (split_without _ _ Hd). }
  destruct (STATE_FIPS_values _ _ Hm) as (Hlen & _ & _).
  split; [exact Hsplit|]. split; [|split; [exact Hg|]].
  - unfold getStateFips. destruct (String.eqb_spec ss EmptyString) as [->|_].
    + now destruct (STATE_FIPS_keys _ _ Hm) as [_ Hne].
    + rewrite Hm. destruct (String.eqb_spec fips EmptyString) as [->|_]; [discriminate|reflexivity].
  - apply getDistrictFromGeoid_app; [exact Hlen|apply districtSuffix_length|].
    now apply FIPS_STATE_MAP_inverse.
Qed.

Lemma district_geoid_district_witness :
  isValidDistrict "ca-7" = true /\
  exists ss dd fips,
    split "-" "ca-7" = [ss; dd] /\
    getStateFips (Str ss) = Some fips /\
    getGeoidFromDistrict (Str "ca-7") = Some (fips +:+ districtSuffix dd) /\
    getDistrictFromGeoid (fips +:+ districtSuffix dd) FIPS_STATE_MAP
    = toUpperCase ss +:+ "-" +:+ districtSuffix dd.
Proof. split; [reflexivity|]. apply (district_geoid_district "ca-7"). reflexivity. Defined.

Example district_names_samples :
  getDistrictFromGeoid "0637" FIPS_STATE_MAP = "CA-37"%string /\
  getDistrictFromGeoid "06ZZ" FIPS_STATE_MAP = "CA-ZZ"%string /\
  getDistrictFromGeoid "9901" FIPS_STATE_MAP = "9901"%string /\
  getDistrictFromGeoid "063" FIPS_STATE_MAP = "063"%string /\
  getStateFips (Str "ca") = Some "06"%string /\
  getStateFips (Str "XX") = None /\ getStateFips Null = None.
Proof. vm_compute. repeat split. Qed.

Lemma digitValue_digitChar c : isDigit c = true -> digitChar (digitValue c) = c.
Proof. destruct c as [[] [] [] [] [] [] [] []]; vm_compute; congruence. Qed.

Lemma digitValue_bound c : isDigit c = true -> (digitValue c < 10)%N.
Proof. destruct c as [[] [] [] [] [] [] [] []]; vm_compute; congruence. Qed.

Lemma twoDigits_decimalValue dd :
  String.length dd = 2%nat -> allDigits dd = true ->
  twoDigits (decimalValue dd) = dd /\ (decimalValue dd <= 99)%N.
Proof.
  destruct dd as [|a [|b [|? ?]]]; try discriminate. intros _. simpl.
  intros [Ha [Hb _]%andb_prop]%andb_prop.
  pose proof (digitValue_bound a Ha) as Ba. pose proof (digitValue_bound b Hb) as Bb.
  unfold decimalValue, twoDigits. cbn [decimalValueFrom].
  replace (10 * (10 * 0 + digitValue a) + digitValue b)%N
    with (digitValue b + digitValue a * 10)%N by lia.
  rewrite N.div_add by lia. rewrite N.Div0.mod_add.
  rewrite N.div_small, N.mod_small by lia. rewrite N.add_0_l.
  rewrite (digitValue_digitChar a Ha), (digitValue_digitChar b Hb). split; [reflexivity|lia].
Qed.

(** X4. From a GEOID to its district name and back: for a FIPS code of
    [FIPS_STATE_MAP] followed by two digits or by ZZ, [getDistrictFromGeoid]
    gives a district name from which [getGeoidFromDistrict] derives the
    same GEOID again. *)
Theorem geoid_district_geoid (fips abbr dd : string) :
  FIPS_STATE_MAP !! fips = Some abbr ->
  dd = "ZZ"%string \/ (String.length dd = 2%nat /\ allDigits dd = true) ->
  getDistrictFromGeoid (fips +:+ dd) FIPS_STATE_MAP = abbr +:+ "-" +:+ dd /\
  getGeoidFromDistrict (Str (getDistrictFromGeoid (fips +:+ dd) FIPS_STATE_MAP))
  = Some (fips +:+ dd).
Proof.
  intros Hm Hdd.
  pose proof Hm as Hs. apply FIPS_STATE_MAP_inverse in Hs.
  destruct (STATE_FIPS_values _ _ Hs) as (Hlen & _ & Hi).
  destruct (STATE_FIPS_keys _ _ Hs) as [Hup Hne].
  assert (Hd : String.length dd = 2%nat) by (destruct Hdd as [->|[H _]]; [reflexivity|exact H]).
  rewrite (getDistrictFromGeoid_app _ _ _ Hlen Hd Hm). split; [reflexivity|].
  assert (Hdi : includes dd "-" = false).
  { destruct Hdd as [->|[_ Hall]]; [reflexivity|].
    destruct dd as [|a [|b [|? ?]]]; try discriminate. simpl in Hall.
    apply andb_prop in Hall as [Ha [Hb _]%andb_prop].
    destruct (isDigit_class a Ha) as (_ & _ & Ha' & _).
    destruct (isDigit_class b Hb) as (_ & _ & Hb' & _).
    simpl. now rewrite Ha', Hb'. }
  assert (Hsplit : split "-" (abbr +:+ "-" +:+ dd) = [abbr; dd]).
  { change (abbr +:+ "-" +:+ dd) with (abbr +:+ String "-" dd).
    rewrite (split_app _ _ _ Hi), (split_without _ _ Hdi). reflexivity. }
  assert (Hv : isValidDistrict (abbr +:+ "-" +:+ dd) = true).
  { unfold isValidDistrict. rewrite Hsplit. unfold isKnownState. rewrite Hup, Hs. simpl.
    unfold isDistrictNumber. destruct Hdd as [->|[_ Hall]]; [reflexivity|].
    destruct (twoDigits_decimalValue dd Hd Hall) as [_ Hle].
    unfold isNumeral. rewrite Hall. apply N.leb_le in Hle. rewrite Hle.
    destruct dd; [discriminate|]. simpl. apply orb_true_r. }
  destruct (getGeoidFromDistrict_valid _ Hv) as (ss' & dd' & fips' & Heq & Hm' & Hg & _).
  assert (Hparts : [ss'; dd'] = [abbr; dd]).
  { pose proof Hsplit as E. rewrite Heq in E.
    destruct (STATE_FIPS_values _ _ Hm') as (_ & _ & Hi').
    rewrite includes_toUpperCase in Hi'.
    change (ss' +:+ "-" +:+ dd') with (ss' +:+ String "-" dd') in E.
    rewrite (split_app _ _ _ Hi') in E. injection E as -> E.
    apply split_one_inv in E as [-> _]. reflexivity. }
  injection Hparts as -> ->. rewrite Hg. f_equal.
  rewrite Hup, Hs in Hm'. injection Hm' as <-. f_equal.
  unfold districtSuffix. destruct Hdd as [->|[_ Hall]]; [reflexivity|].
  destruct (String.eqb_spec (toUpperCase dd) "ZZ") as [E|_].
  - rewrite (toUpperCase_digits _ Hall) in E. subst dd. discriminate Hall.
  - apply twoDigits_decimalValue; assumption.
Qed.

Lemma geoid_district_geoid_witness :
  FIPS_STATE_MAP !! "48"%string = Some "TX"%string /\
  getDistrictFromGeoid ("48" +:+ "07") FIPS_STATE_MAP = "TX" +:+ "-" +:+ "07" /\
  getGeoidFromDistrict (Str (getDistrictFromGeoid ("48" +:+ "07") FIPS_STATE_MAP))
  = Some ("48" +:+ "07").
Proof.
  split; [vm_compute; reflexivity|].
  apply (geoid_district_geoid "48" "TX" "07"); [vm_compute; reflexivity|].
  right. split; reflexivity.
Defined.

End DistrictNames.

(** ** Groups, sums and distinct values *)

Section Groups.

Context {A : Type}.
Variable key : A -> string.

Lemma groupOf_filter_other k k0 (array : list A) :
  k <> k0 ->
  groupOf key k (List.filter (fun item => negb (String.eqb (key item) k0)) array)
  = groupOf key k array.
Proof.
  intros Hne. unfold groupOf. rewrite filter_filter_and. apply filter_ext_in'.
  intros item _. destruct (String.eqb_spec (key item) k0) as [E|_]; [|reflexivity].
  simpl. rewrite E. symmetry. apply String.eqb_neq. congruence.
Qed.

(** The groups of distinct keys that cover an array hold its items, each
    once. *)
Lemma groups_Permutation ks : forall array : list A,
  NoDup ks -> (forall item, In item array -> In (key item) ks) ->
  Permutation (concat (map (fun k => groupOf key k array) ks)) array.
Proof.
  induction ks as [|k0 ks IH]; intros array Hnd Hall.
  - destruct array as [|item r]; [reflexivity|]. now destruct (Hall item (or_introl eq_refl)).
  - apply NoDup_cons in Hnd as [Hk0 Hnd]. simpl.
    rewrite <- (filter_partition_Permutation (fun item => String.eqb (key item) k0) array) at 2.
    apply Permutation_app_head.
    rewrite <- (IH (List.filter (fun item => negb (String.eqb (key item) k0)) array) Hnd).
    + apply Permutation_refl'. f_equal. apply map_ext_in. intros k Hk.
      symmetry. apply groupOf_filter_other. intros ->. apply Hk0. now apply list_elem_of_In.
    + intros item [Hin Hne]%filter_In. destruct (Hall item Hin) as [E|Hin']; [|exact Hin'].
      rewrite E, String.eqb_refl in Hne. discriminate Hne.
Qed.

Lemma safeKeys_false (array : list A) :
  safeKeys key array = false <-> exists item, In item array /\ isInherited (key item) = true.
Proof.
  unfold safeKeys. induction array as [|x r IH]; simpl.
  - split; [discriminate|]. now intros (? & [] & _).
  - destruct (isInherited (key x)) eqn:E; simpl.
    + split; [|reflexivity]. intros _. exists x. split; [now left|exact E].
    + rewrite IH. split; intros (item & Hin & Hi); exists item; (split; [|exact Hi]).
      * now right.
      * destruct Hin as [<-|Hin]; [congruence|exact Hin].
Qed.

End Groups.

(** X5. [groupBy] fails, with a [TypeError], exactly when the key of some
    item names a property inherited from [Object.prototype]; otherwise it
    returns one group per distinct key, in order of first occurrence, the
    group of a key holding the items with that key in array order, so that
    the groups together hold every item once. *)
Theorem groupBy_groups {A : Type} (key : A -> string) (array : list A) :
  (groupBy array key = None <->
     exists item, In item array /\ isInherited (key item) = true) /\
  (forall groups, groupBy array key = Some groups ->
     map fst groups = firstKeys (map key array) /\
     NoDup (map fst groups) /\
     (forall k items, In (k, items) groups <->
        In k (map key array) /\
        items = List.filter (fun item => String.eqb (key item) k) array) /\
     (forall k items, In (k, items) groups -> items <> []) /\
     Permutation (concat (map snd groups)) array).
Proof.
  rewrite (groupBy_correct key array). split.
  - rewrite <- safeKeys_false. destruct (safeKeys key array); split; congruence.
  - intros groups H. destruct (safeKeys key array); [|discriminate]. injection H as <-.
    split; [apply groupsOf_keys|]. split; [rewrite groupsOf_keys; apply firstKeys_NoDup|].
    split; [intros k items; apply groupsOf_In|]. split.
    + intros k items [Hk ->]%groupsOf_In. now apply groupOf_nonempty.
    + unfold groupsOf. rewrite map_map. simpl.
      apply groups_Permutation; [apply firstKeys_NoDup|].
      intros item Hin. apply firstKeys_In. now apply in_map.
Qed.

Lemma groupBy_groups_witness :
  exists groups, groupBy ["b"; "a"; "b"]%string (fun s => s) = Some groups /\
    map fst groups = firstKeys (map (fun s => s) ["b"; "a"; "b"]%string) /\
    Permutation (concat (map snd groups)) ["b"; "a"; "b"]%string.
Proof.
  eexists. split; [vm_compute; reflexivity|].
  destruct (proj2 (groupBy_groups (fun s : string => s) ["b"; "a"; "b"]%string)
              [("b", ["b"; "b"]); ("a", ["a"])]%string eq_refl) as (H1 & _ & _ & _ & H2).
  split; [exact H1|exact H2].
Defined.

Example groupBy_samples :
  groupBy ["b"; "a"; "b"]%string (fun s => s)
    = Some [("b", ["b"; "b"]); ("a", ["a"])]%string /\
  groupBy ["a"; "toString"]%string (fun s => s) = None /\
  groupBy ([] : list string) (fun s => s) = Some [].
Proof. vm_compute. repeat split. Qed.

Import Notions.


(** ** Sums *)

Section Sums.

Lemma alike_refl x : alike x x.
Proof. now left. Qed.

Lemma alike_add x x' y : alike x x' -> alike (add x y) (add x' y).
Proof.
  intros [->|(a & b & -> & ->)]; [now left|].
  destruct y as [c| | |c m e]; simpl.
  - right. destruct a, b, c; simpl; eauto.
  - now left.
  - now left.
  - now left.
Qed.

Lemma alike_add_zero x : alike (add x posZero) x.
Proof.
  destruct x as [a| | |a m e]; simpl; try now left.
  right. destruct a; simpl; eauto.
Qed.

Lemma alike_trans x y z : alike x y -> alike y z -> alike x z.
Proof.
  intros [->|(a & b & -> & Hy)] [Hz|(c & d & Hy' & Hz)].
  - left. exact Hz.
  - right. eauto.
  - right. subst. eauto.
  - right. eauto.
Qed.

Lemma strictEq_refl x : isNaN x = false -> strictEq x x = true.
Proof.
  destruct x as [a|a| |a m e]; simpl; try discriminate; intros _;
    unfold strictEq, SFeqb, SFcompare.
  - reflexivity.
  - destruct a; reflexivity.
  - change (Pos.compare_cont Eq m m) with (Pos.compare m m).
    destruct a; rewrite Z.compare_refl, Pos.compare_refl; reflexivity.
Qed.

Lemma alike_sameValueZero x y : alike x y -> sameValueZero (Num x) (Num y) = true.
Proof.
  intros [->|(a & b & -> & ->)]; simpl.
  - destruct (isNaN y) eqn:E; [reflexivity|]. simpl. now apply strictEq_refl.
  - reflexivity.
Qed.

Context {A : Type}.
Variable field : A -> value.

Lemma sumBy_fold (array : list A) :
  sumBy array field = fold_left (fun sum item => add sum (addend field item)) array posZero.
Proof. reflexivity. Qed.

Lemma fold_alike (array : list A) : forall x x',
  alike x x' ->
  alike (fold_left (fun sum item => add sum (addend field item)) array x)
        (fold_left (fun sum item => add sum (addend field item))
           (List.filter (fun item => negb (addsNothing field item)) array) x').
Proof.
  induction array as [|item r IH]; intros x x' H; simpl; [exact H|].
  unfold addsNothing at 1.
  destruct (addend field item) as [[]| | |] eqn:E; simpl; rewrite ?E;
    try (apply IH; now apply alike_add).
  apply IH. eapply alike_trans; [apply alike_add_zero|exact H].
Qed.

End Sums.

(** X6. An item whose value is missing, empty, not numeric, NaN or zero
    adds +0 to the sum of [sumBy], and leaving such items out gives the same
    number (equal by [===], or NaN both times); the sum over no items
    is +0. *)
Theorem sumBy_ignores_empty_values {A : Type} (field : A -> value) (array : list A) :
  sameValueZero
    (Num (sumBy array field))
    (Num (sumBy (List.filter (fun item => negb (addsNothing field item)) array) field)) = true /\
  (forall item,
     addsNothing field item =
       match (match field item with
              | Num n => Some n
              | other => parseCurrency other
              end) with
       | Some n => negb (truthy n)
       | None => true
       end) /\
  (forall item,
     field item = Null \/ field item = Undefined \/ field item = Str EmptyString \/
     field item = Str "N/A" ->
     addsNothing field item = true) /\
  sumBy ([] : list A) field = posZero.
Proof.
  split; [|split; [|split]].
  - apply alike_sameValueZero. rewrite !sumBy_fold. apply fold_alike. apply alike_refl.
  - intros item. unfold addsNothing, addend, orZero.
    destruct (match field item with Num n => Some n | other => parseCurrency other end)
      as [[[]|[]| |[] m e]|]; reflexivity.
  - intros item [E|[E|[E|E]]]; unfold addsNothing, addend; rewrite E; reflexivity.
  - reflexivity.
Qed.

Lemma sumBy_ignores_empty_values_witness :
  addsNothing (fun v : value => v) (Str "N/A") = true.
Proof.
  apply (proj1 (proj2 (proj2 (sumBy_ignores_empty_values (fun v : value => v) [])))).
  right. right. right. reflexivity.
Defined.

Example sumBy_samples :
  sumBy [Str "$1,000"; Str "N/A"; Null; Str "$500.50"; Num (ofZ 2)] (fun v => v)
    = ofDecimal false 150250 (-2) /\
  sumBy [Str "$1,000"; Str "$500.50"; Num (ofZ 2)] (fun v => v)
    = ofDecimal false 150250 (-2).
Proof. vm_compute. repeat split. Qed.

(** ** Distinct values *)

Section DistinctValues.

Lemma existsb_sameValueZero_Str k seen :
  existsb (sameValueZero (Str k)) (map Str seen) = hasKey k seen.
Proof. induction seen as [|k' r IH]; simpl; [reflexivity|]. now rewrite IH. Qed.

Lemma setOf_strings l : forall seen,
  fold_left setAdd (map Str l) (map Str seen)
  = map Str (seen ++ List.filter (fun k => negb (hasKey k seen)) (firstKeys l)).
Proof.
  induction l as [|k r IH]; intros seen; simpl.
  - now rewrite app_nil_r.
  - unfold setAdd at 2. rewrite existsb_sameValueZero_Str.
    destruct (hasKey k seen) eqn:E; simpl.
    + rewrite IH. now rewrite (filter_unseen_old _ _ _ E).
    + change (map Str seen ++ [Str k]) with (map Str seen ++ map Str [k]).
      rewrite <- map_app, IH, <- app_assoc. simpl.
      now rewrite filter_unseen_new.
Qed.

Lemma setOf_length l : forall set,
  (length set <= length (fold_left setAdd l set) <= length set + length l)%nat.
Proof.
  induction l as [|v r IH]; intros set; simpl; [lia|].
  specialize (IH (setAdd set v)). unfold setAdd in *.
  destruct (existsb (sameValueZero v) set); [lia|]. rewrite length_app in IH. simpl in IH. lia.
Qed.

Lemma setOf_nonempty v l : fold_left setAdd (v :: l) [] <> [].
Proof.
  simpl. pose proof (setOf_length l (setAdd [] v)) as H. unfold setAdd in *. simpl in *.
  intros E. rewrite E in H. simpl in H. lia.
Qed.

Lemma countUnique_le {A : Type} (field : A -> value) (array : list A) :
  (countUnique array field <= length array)%nat.
Proof.
  unfold countUnique, setOf.
  pose proof (setOf_length (map field array) []) as H. rewrite length_map in H.
  simpl in H. lia.
Qed.

Lemma countUnique_strings {A : Type} (field : A -> value) (key : A -> string) (array : list A) :
  (forall item, In item array -> field item = Str (key item)) ->
  countUnique array field = length (firstKeys (map key array)).
Proof.
  intros Hkey. unfold countUnique, setOf.
  assert (E : map field array = map Str (map key array)).
  { rewrite map_map. apply map_ext_in. exact Hkey. }
  rewrite E. change (@nil value) with (map Str []). rewrite setOf_strings. simpl.
  rewrite length_map. f_equal. now apply filter_true.
Qed.

End DistinctValues.

(** X7. [countUnique] is at most the number of items and at least 1 on a
    non-empty array; when the values read are strings it is the number of
    distinct strings, which is the number of groups [groupBy] makes of the
    same array under the same key. *)
Theorem countUnique_distinct {A : Type} (field : A -> value) (array : list A) :
  (countUnique array field <= length array)%nat /\
  (array <> [] -> (1 <= countUnique array field)%nat) /\
  (forall key : A -> string,
     (forall item, In item array -> field item = Str (key item)) ->
     countUnique array field = length (firstKeys (map key array)) /\
     forall groups, groupBy array key = Some groups ->
       countUnique array field = length groups).
Proof.
  split; [apply countUnique_le|split].
  - destruct array as [|item r]; [congruence|]. intros _. unfold countUnique, setOf.
    pose proof (setOf_nonempty (field item) (map field r)) as H.
    change (map field (item :: r)) with (field item :: map field r).
    destruct (fold_left setAdd (field item :: map field r) []); [congruence|simpl; lia].
  - intros key Hkey. pose proof (countUnique_strings field key array Hkey) as Hc.
    split; [exact Hc|]. intros groups Hg.
    rewrite (groupBy_correct key array) in Hg.
    destruct (safeKeys key array); [|discriminate]. injection Hg as <-.
    rewrite Hc, <- (groupsOf_keys key array). now rewrite length_map.
Qed.

Lemma countUnique_distinct_witness :
  (1 <= countUnique ["CA-37"; "TX-07"; "CA-37"]%string Str)%nat /\
  countUnique ["CA-37"; "TX-07"; "CA-37"]%string Str
  = length (firstKeys (map (fun s => s) ["CA-37"; "TX-07"; "CA-37"]%string)).
Proof.
  split.
  - apply (countUnique_distinct Str ["CA-37"; "TX-07"; "CA-37"]%string). discriminate.
  - apply (proj2 (proj2 (countUnique_distinct Str ["CA-37"; "TX-07"; "CA-37"]%string))
             (fun s => s)).
    reflexivity.
Defined.

Example countUnique_samples :
  countUnique ["CA-37"; "TX-07"; "CA-37"]%string Str = 2%nat /\
  countUnique [Num S754_nan; Num S754_nan; Num (S754_zero true); Num posZero; Undefined; Null]
    (fun v => v) = 4%nat /\
  countUnique ([] : list value) (fun v => v) = 0%nat.
Proof. vm_compute. repeat split. Qed.

(** ** Table totals and the summary *)

Section TableTotals.
Import CancellationsDashboard.

Variable toFixed : number -> nat -> string.
Variable toLocaleString : number -> string.

Lemma list_sum_Permutation l l' : Permutation l l' -> list_sum l = list_sum l'.
Proof. induction 1; simpl; lia. Qed.

Lemma length_concat_sum {B : Type} (ls : list (list B)) :
  length (concat ls) = list_sum (map (@length B) ls).
Proof. induction ls as [|l r IH]; simpl; [reflexivity|]. now rewrite length_app, IH. Qed.

Lemma group_sizes_sum (key : CleanRow -> string) (data : list CleanRow) :
  list_sum (map (fun entry : string * list CleanRow => length (snd entry)) (groupsOf key data))
  = length data.
Proof.
  unfold groupsOf. rewrite map_map. simpl.
  rewrite <- (map_map (fun k => groupOf key k data) (@length CleanRow)).
  rewrite <- length_concat_sum. apply Permutation_length.
  apply groups_Permutation; [apply firstKeys_NoDup|].
  intros item Hin. apply firstKeys_In. now apply in_map.
Qed.

Lemma table_sizes_sum {E : Type} (after : E -> E -> bool)
    (entryOf : string * list CleanRow -> E) (count : E -> nat) key (data : list CleanRow) :
  (forall entry, count (entryOf entry) = length (snd entry)) ->
  list_sum (map count (sort after (map entryOf (entries (groupsOf key data))))) = length data.
Proof.
  intros Hcount. rewrite <- (group_sizes_sum key data).
  apply list_sum_Permutation.
  rewrite (Permutation_map count (sort_Permutation after _)), map_map.
  rewrite (Permutation_map _ (entries_Permutation (groupsOf key data))).
  apply Permutation_refl'. apply map_ext. exact Hcount.
Qed.

Lemma sorted_table_length {E : Type} (after : E -> E -> bool)
    (entryOf : string * list CleanRow -> E) key (data : list CleanRow) :
  length (sort after (map entryOf (entries (groupsOf key data))))
  = length (firstKeys (map key data)).
Proof.
  rewrite (Permutation_length (sort_Permutation after _)), length_map.
  rewrite (Permutation_length (entries_Permutation _)).
  unfold groupsOf. now rewrite length_map.
Qed.

Lemma sorted_table_groups {E : Type} (after : E -> E -> bool)
    (entryOf : string * list CleanRow -> E) key (data : list CleanRow) e :
  In e (sort after (map entryOf (entries (groupsOf key data)))) ->
  exists k, In k (map key data) /\ e = entryOf (k, groupOf key k data).
Proof.
  intros H. apply (Permutation_in _ (sort_Permutation after _)) in H.
  apply in_map_iff in H as ([k items] & <- & Hin).
  apply (Permutation_in _ (entries_Permutation _)) in Hin.
  apply groupsOf_In in Hin as [Hk ->]. now exists k.
Qed.

End TableTotals.

Section TableTotalsClaim.
Import CancellationsDashboard.

(** X8. In the districts table and in the recipients table every row
    counts at least one record, and the counts of a table add up to the
    number of cleaned records: each record is counted in exactly one row. *)
Theorem table_counts_add_up :
  forall (toFixed : number -> nat -> string) (toLocaleString : number -> string)
         (data : list CleanRow),
    (forall table, districtData toFixed toLocaleString data = Some table ->
       list_sum (map districtContractCount table) = length data /\
       forall e, In e table -> (1 <= districtContractCount e)%nat) /\
    (forall table, recipientData toFixed toLocaleString data = Some table ->
       list_sum (map recipientContractCount table) = length data /\
       forall e, In e table -> (1 <= recipientContractCount e)%nat).
Proof.
  intros toFixed toLocaleString data. split; intros table H.
  - rewrite districtData_unfold in H. destruct (safeKeys districtKey data); [|discriminate].
    injection H as <-. split; [now apply table_sizes_sum|].
    intros e (k & Hk & ->)%sorted_table_groups. simpl.
    pose proof (groupOf_nonempty districtKey data k Hk) as Hne.
    destruct (groupOf districtKey k data); [congruence|simpl; lia].
  - rewrite recipientData_unfold in H. destruct (safeKeys recipientKey data); [|discriminate].
    injection H as <-. split; [now apply table_sizes_sum|].
    intros e (k & Hk & ->)%sorted_table_groups. simpl.
    pose proof (groupOf_nonempty recipientKey data k Hk) as Hne.
    destruct (groupOf recipientKey k data); [congruence|simpl; lia].
Qed.

Lemma table_counts_add_up_witness :
  let data := [ clean (sampleRow "CA-37" "Acme" "$1,000,000" "2025-01-01");
                clean (sampleRow "TX-07" "Beta" "$500,000" "2025-02-01");
                clean (sampleRow "CA-37" "Beta" "$250,000" "2025-03-01") ] in
  exists table,
    districtData (fun _ _ => EmptyString) (fun _ => EmptyString) data = Some table /\
    list_sum (map districtContractCount table) = length data.
Proof.
  intros data. eexists. split; [vm_compute; reflexivity|].
  apply (proj1 (table_counts_add_up (fun _ _ => EmptyString) (fun _ => EmptyString) data)).
  vm_compute. reflexivity.
Defined.

(** X9. The summary agrees with the tables: [totalContracts] is the number
    of rows of the contracts table, the two unique counts are at most that
    number, and when every record has a District (a Recipient) column,
    [uniqueDistricts] ([uniqueRecipients]) is the number of rows of the
    districts (recipients) table. *)
Theorem summary_matches_tables :
  forall (toFixed : number -> nat -> string) (toLocaleString : number -> string)
         (data : list CleanRow),
    let stats := getSummaryStats toFixed toLocaleString data in
    totalContracts stats = length (renderContractsTable toFixed toLocaleString data) /\
    (uniqueRecipients stats <= totalContracts stats)%nat /\
    (uniqueDistricts stats <= totalContracts stats)%nat /\
    ((forall row, In row data -> is_Some (raw row !! "District"%string)) ->
     forall table, renderDistrictsTable toFixed toLocaleString data = Some table ->
       uniqueDistricts stats = length table) /\
    ((forall row, In row data -> is_Some (raw row !! "Recipient"%string)) ->
     forall table, renderRecipientsTable toFixed toLocaleString data = Some table ->
       uniqueRecipients stats = length table).
Proof.
  intros toFixed toLocaleString data stats. unfold stats, getSummaryStats. simpl.
  split; [unfold renderContractsTable; now rewrite length_map|].
  split; [apply countUnique_le|]. split; [apply countUnique_le|]. split.
  - intros Hcol table H. unfold renderDistrictsTable in H.
    rewrite districtData_unfold in H. destruct (safeKeys districtKey data); [|discriminate].
    injection H as <-. rewrite length_map, sorted_table_length.
    apply countUnique_strings. intros row Hin. destruct (Hcol row Hin) as [s Hs].
    unfold prop, districtKey, text. now rewrite Hs.
  - intros Hcol table H. unfold renderRecipientsTable in H.
    rewrite recipientData_unfold in H. destruct (safeKeys recipientKey data); [|discriminate].
    injection H as <-. rewrite length_map, sorted_table_length.
    apply countUnique_strings. intros row Hin. destruct (Hcol row Hin) as [s Hs].
    unfold prop, recipientKey, text. now rewrite Hs.
Qed.

Lemma summary_matches_tables_witness :
  let data := [ clean (sampleRow "CA-37" "Acme" "$1,000,000" "2025-01-01");
                clean (sampleRow "TX-07" "Beta" "$500,000" "2025-02-01");
                clean (sampleRow "CA-37" "Beta" "$250,000" "2025-03-01") ] in
  exists table,
    renderDistrictsTable (fun _ _ => EmptyString) (fun _ => EmptyString) data = Some table /\
    uniqueDistricts (getSummaryStats (fun _ _ => EmptyString) (fun _ => EmptyString) data)
    = length table.
Proof.
  intros data. eexists. split; [vm_compute; reflexivity|].
  apply (proj1 (proj2 (proj2 (proj2 (summary_matches_tables
           (fun _ _ => EmptyString) (fun _ => EmptyString) data))))).
  - intros row [<-|[<-|[<-|[]]]]; vm_compute; eauto.
  - vm_compute. reflexivity.
Defined.

End TableTotalsClaim.

(** ** The cleaned records and what is shown of them *)

Section CleanedRecords.
Import CancellationsDashboard.

Variable toFixed : number -> nat -> string.
Variable toLocaleString : number -> string.

Lemma filter_sublist {B : Type} (p : B -> bool) l : sublist (List.filter p l) l.
Proof.
  induction l as [|x r IH]; simpl; [constructor|].
  destruct (p x); now constructor.
Qed.

Lemma processData_raw rawData :
  map raw (processData rawData)
  = List.filter (fun row => match totalObligations (clean row) with
                            | Some _ => true
                            | None => false
                            end) (List.filter notTotal rawData).
Proof.
  unfold processData. induction (List.filter notTotal rawData) as [|row r IH]; [reflexivity|].
  simpl. destruct (parseCurrency (prop row "Total Obligations")); simpl; now rewrite IH.
Qed.

Lemma processData_cons row r :
  processData (row :: r) =
    if notTotal row && match totalObligations (clean row) with Some _ => true | None => false end
    then clean row :: processData r else processData r.
Proof.
  unfold processData. simpl. destruct (notTotal row); simpl; [|reflexivity].
  destruct (parseCurrency (prop row "Total Obligations")); reflexivity.
Qed.

Lemma parseCurrency_not_nan v n :
  CancellationsDashboard.parseCurrency v = Some n -> isNaN n = false.
Proof.
  destruct v as [| |x|s]; simpl; try discriminate.
  - destruct x; simpl; try discriminate; now intros [= <-].
  - destruct s as [|c r]; [discriminate|].
    destruct (isNaN (parseFloat _)) eqn:E; [discriminate|]. now intros [= <-].
Qed.

Lemma truncateText_length s maxLength r :
  CancellationsDashboard.truncateText (Str s) maxLength = Str r ->
  (String.length r <= Nat.max (Nat.min (String.length s) maxLength) (maxLength + 3))%nat.
Proof.
  unfold CancellationsDashboard.truncateText.
  destruct (String.eqb_spec s EmptyString) as [->|_]; simpl orb.
  { intros [= <-]. simpl. lia. }
  destruct (Nat.leb_spec (String.length s) maxLength).
  { intros [= <-]. lia. }
  intros [= <-]. rewrite lastIndexOfSpace_lastIndexOf.
  change (substring0 maxLength s) with (takeChars maxLength s).
  rewrite append_length, substring0_takeChars, takeChars_length.
  pose proof (lastIndexOf_from_spec " " (takeChars maxLength s) 0) as Hspec.
  destruct (lastIndexOf_from 0 (takeChars maxLength s) " ") as [[|i]|];
    simpl String.length; try lia.
  destruct Hspec as (Hj & _). rewrite takeChars_length in Hj. lia.
Qed.

Lemma fold_record_text es : forall st,
  NoDup (map fst es) -> forall k,
  hoverInfo (fold_left (recordDistrict toFixed toLocaleString) es st) !! k =
    match assoc k es with
    | Some contracts =>
        Some (("<b>Number of awards: " +:+ integerToString (Z.of_nat (length contracts))
               +:+ "</b>") +:+ "<br><br>"
              +:+ join "<br>" (map (hoverLine toFixed toLocaleString) contracts))
    | None => hoverInfo st !! k
    end.
Proof.
  induction es as [|[g c] r IH]; intros st Hnd k; [reflexivity|].
  cbn [fold_left assoc]. inversion Hnd as [|? ? Hnotin Hnd']; subst.
  rewrite (IH _ Hnd').
  destruct (String.eqb_spec k g) as [->|Hne].
  - destruct (assoc g r) as [c'|] eqn:E.
    + exfalso. apply Hnotin, list_elem_of_In.
      apply assoc_In in E; [|assumption]. now apply (in_map fst) in E.
    + simpl. apply lookup_insert_eq.
  - destruct (assoc k r); [reflexivity|]. simpl. apply lookup_insert_ne. congruence.
Qed.

End CleanedRecords.

Section CleanedRecordsClaim.
Import CancellationsDashboard.

(** X10. [processData] keeps records in their order: the raw rows of the
    cleaned records are a subsequence of the raw data.  Every cleaned record
    is [clean] of its raw row, does not read Total, and has a total
    obligation that is a number, never null and never NaN; cleaning the raw
    rows of the cleaned records again changes nothing. *)
Theorem processData_invariants (rawData : list (gmap string string)) :
  sublist (map raw (processData rawData)) rawData /\
  (length (processData rawData) <= length rawData)%nat /\
  (forall row, In row (processData rawData) ->
     row = clean (raw row) /\ notTotal (raw row) = true /\
     geoid row = getGeoidFromDistrict (prop (raw row) "District") /\
     exists n, totalObligations row = Some n /\ isNaN n = false) /\
  processData (map raw (processData rawData)) = processData rawData.
Proof.
  assert (Hsub : sublist (map raw (processData rawData)) rawData).
  { rewrite processData_raw. etransitivity; apply filter_sublist. }
  split; [exact Hsub|]. split; [|split].
  - apply sublist_length in Hsub. now rewrite length_map in Hsub.
  - intros row (r & _ & Hn & -> & Ho)%processData_In. simpl.
    split; [reflexivity|]. split; [exact Hn|]. split; [reflexivity|].
    simpl in Ho. destruct (parseCurrency (prop r "Total Obligations")) as [n|] eqn:E;
      [|congruence].
    exists n. split; [reflexivity|]. now apply parseCurrency_not_nan in E.
  - induction rawData as [|row r IH]; [reflexivity|].
    rewrite (processData_cons row r).
    assert (IH' : processData (map raw (processData r)) = processData r).
    { apply IH. rewrite processData_raw. etransitivity; apply filter_sublist. }
    destruct (notTotal row && _) eqn:E; [|exact IH'].
    cbn [map]. change (raw (clean row)) with row.
    rewrite (processData_cons row (map raw (processData r))), E. f_equal. exact IH'.
Qed.

Lemma processData_invariants_witness :
  let rawData := [ sampleRow "CA-37" "Acme" "$1,000,000" "2025-01-01";
                   sampleRow "CA-37" "Beta" "pending" "2025-02-01";
                   sampleRow "Total" "" "$1,000,000" "Total" ] in
  exists row, In row (processData rawData) /\
    row = clean (raw row) /\ notTotal (raw row) = true /\
    geoid row = getGeoidFromDistrict (prop (raw row) "District") /\
    exists n, totalObligations row = Some n /\ isNaN n = false.
Proof.
  intros rawData. exists (clean (sampleRow "CA-37" "Acme" "$1,000,000" "2025-01-01")).
  assert (Hin : In (clean (sampleRow "CA-37" "Acme" "$1,000,000" "2025-01-01"))
                  (processData rawData)) by (vm_compute; left; reflexivity).
  split; [exact Hin|].
  exact (proj1 (proj2 (proj2 (processData_invariants rawData))) _ Hin).
Defined.

(** X11. The contracts table has one row of ten cells per cleaned record,
    in the order of the records; the Description cell is the description
    cut by [truncateText] at 200, so a description is shown with at most 203
    characters. *)
Theorem renderContractsTable_rows :
  forall (toFixed : number -> nat -> string) (toLocaleString : number -> string)
         (data : list CleanRow),
    length (renderContractsTable toFixed toLocaleString data) = length data /\
    map (fun cells => nth 0 cells Undefined) (renderContractsTable toFixed toLocaleString data)
    = map (fun row => prop (raw row) "Award ID") data /\
    (forall cells, In cells (renderContractsTable toFixed toLocaleString data) ->
       length cells = 10%nat /\
       forall s, nth 8 cells Undefined = Str s -> (String.length s <= 203)%nat).
Proof.
  intros toFixed toLocaleString data. unfold renderContractsTable.
  split; [apply length_map|]. split; [now rewrite map_map|].
  intros cells (row & <- & _)%in_map_iff. split; [reflexivity|].
  intros s. cbn [nth]. unfold prop.
  destruct (raw row !! "Description"%string) as [d|]; [|discriminate].
  intros H%truncateText_length. lia.
Qed.

Lemma renderContractsTable_rows_witness :
  let data := [ clean (sampleRow "CA-37" "Acme" "$1,000,000" "2025-01-01") ] in
  exists cells,
    In cells (renderContractsTable (fun _ _ => EmptyString) (fun _ => EmptyString) data) /\
    length cells = 10%nat.
Proof.
  intros data.
  pose proof (renderContractsTable_rows (fun _ _ => EmptyString) (fun _ => EmptyString) data)
    as (Hlen & _ & Hcells).
  destruct (renderContractsTable (fun _ _ => EmptyString) (fun _ => EmptyString) data)
    as [|cells rest].
  - discriminate Hlen.
  - exists cells. split; [now left|]. apply (Hcells cells). now left.
Defined.

(** X12. Hover texts and counts go together: whenever
    [calculateDistrictData] returns, a GEOID has a hover text exactly when it
    has a count, and the text is the header with that count followed by one
    line per record of the GEOID, in the order of the records. *)
Theorem hoverInfo_lists_awards :
  forall (toFixed : number -> nat -> string) (toLocaleString : number -> string)
         (data : list CleanRow) (dd : DistrictData),
    calculateDistrictData toFixed toLocaleString data = Some dd ->
    dom (hoverInfo dd) = dom (districtCounts dd) /\
    forall g,
      hoverInfo dd !! g =
        match geoidRows g data with
        | [] => None
        | contracts =>
            Some (("<b>Number of awards: " +:+ integerToString (Z.of_nat (length contracts))
                   +:+ "</b>") +:+ "<br><br>"
                  +:+ join "<br>" (map (hoverLine toFixed toLocaleString) contracts))
        end.
Proof.
  intros toFixed toLocaleString data dd H.
  rewrite calculateDistrictData_unfold in H.
  destruct (safeKeys geoidKey (List.filter hasGeoid data)); [|discriminate].
  injection H as <-. split; [now apply fold_record_hover|].
  intros g. rewrite fold_record_text.
  - rewrite assoc_groupsOf, <- geoidRows_groupOf.
    destruct (geoidRows g data); reflexivity.
  - apply entries_NoDup. rewrite groupsOf_keys. apply firstKeys_NoDup.
Qed.

Lemma hoverInfo_lists_awards_witness :
  let data := [ clean (sampleRow "CA-37" "Acme" "$1,000,000" "2025-01-01") ] in
  exists dd,
    calculateDistrictData (fun _ _ => EmptyString) (fun _ => "1,000,000"%string) data = Some dd /\
    hoverInfo dd !! "0637"%string
    = Some "<b>Number of awards: 1</b><br><br><b>Acme</b><br>$1,000,000 (Award ID: undefined)"%string.
Proof.
  intros data.
  destruct (calculateDistrictData (fun _ _ => EmptyString) (fun _ => "1,000,000"%string) data)
    as [dd|] eqn:E; [|vm_compute in E; discriminate E].
  exists dd. split; [reflexivity|].
  rewrite (proj2 (hoverInfo_lists_awards _ _ data dd E) "0637"%string).
  vm_compute. reflexivity.
Defined.

End CleanedRecordsClaim.

(** ** Lines without quotes *)

Section PlainLines.

Lemma parseCSVLine_from_split line : forall result current,
  includes line "034" = false ->
  parseCSVLine_from line result current false =
    result ++ match split "," line with
              | h :: t => (current +:+ h) :: t
              | [] => [current]
              end.
Proof.
  induction line as [|c r IH]; intros result current Hq.
  - simpl. now rewrite append_nil_r.
  - simpl in Hq. apply orb_false_elim in Hq as [Hc Hq].
    cbn [parseCSVLine_from split]. rewrite Hc.
    destruct (Ascii.eqb c ","); simpl andb; cbv iota.
    + rewrite (IH _ _ Hq), <- app_assoc. simpl. rewrite append_nil_r.
      destruct (split "," r) as [|h t] eqn:E; [now apply split_nonempty in E|].
      now rewrite append_nil.
    + rewrite (IH _ _ Hq).
      destruct (split "," r) as [|h t] eqn:E; [now apply split_nonempty in E|].
      rewrite append_assoc. reflexivity.
Qed.

Lemma parseCSVLine_from_grows n : forall line result current inQuotes,
  (String.length line <= n)%nat ->
  (length result < length (parseCSVLine_from line result current inQuotes))%nat.
Proof.
  induction n as [|n IH]; intros line result current inQuotes Hn.
  - destruct line; [|simpl in Hn; lia]. simpl. rewrite length_app. simpl. lia.
  - destruct line as [|c r]; [simpl; rewrite length_app; simpl; lia|].
    simpl in Hn. cbn [parseCSVLine_from].
    destruct (Ascii.eqb c "034").
    + destruct r as [|d r']; [apply IH; simpl; lia|].
      destruct (inQuotes && Ascii.eqb d "034"); apply IH; simpl in *; lia.
    + destruct (Ascii.eqb c "," && negb inQuotes).
      * eapply Nat.lt_trans; [|apply IH; lia]. rewrite length_app. simpl. lia.
      * apply IH. lia.
Qed.

End PlainLines.

(** X13. A line always parses to at least one field; on a line without a
    quote character [parseCSVLine] is [split(',')]: one field more than the
    line has commas, none of them trimmed.  A text of one line, the header
    alone or nothing at all, gives no rows. *)
Theorem parseCSVLine_plain :
  (forall line, parseCSVLine line <> []) /\
  (forall line, includes line "034" = false ->
     parseCSVLine line = split "," line /\
     length (parseCSVLine line) = S (countChar "," line)) /\
  (forall csvText, includes (trim csvText) "010" = false -> parseCSV csvText = []).
Proof.
  split; [|split].
  - intros line E.
    pose proof (parseCSVLine_from_grows (String.length line) line [] EmptyString false
                  (Nat.le_refl _)) as H.
    unfold parseCSVLine in E. rewrite E in H. simpl in H. lia.
  - intros line Hq. unfold parseCSVLine. rewrite (parseCSVLine_from_split _ _ _ Hq). simpl.
    destruct (split "," line) as [|h t] eqn:E; [now apply split_nonempty in E|].
    rewrite append_nil. split; [reflexivity|]. rewrite <- E. apply split_length.
  - intros csvText H. unfold parseCSV. rewrite (split_without _ _ H). reflexivity.
Qed.

Lemma parseCSVLine_plain_witness :
  parseCSVLine "CA-37, Acme ,,$5" = split "," "CA-37, Acme ,,$5" /\
  length (parseCSVLine "CA-37, Acme ,,$5") = S (countChar "," "CA-37, Acme ,,$5").
Proof. apply (proj1 (proj2 parseCSVLine_plain)). reflexivity. Defined.

Example parseCSVLine_samples :
  parseCSVLine "CA-37, Acme ,,$5" = ["CA-37"; " Acme "; ""; "$5"]%string /\
  parseCSVLine EmptyString = [EmptyString] /\
  parseCSV "District,Recipient" = [] /\ parseCSV EmptyString = [].
Proof. vm_compute. repeat split. Qed.

(** ** The map build: colours as text, and districts with more parts *)

Section MapBuild.
Import SyncSpendingData.


End MapBuild.



(** X16. The map build reads the first two parts of a district string and
    ignores further ones: SS-DD-X gives what SS-DD gives, where
    [getGeoidFromDistrict] of the page gives null for more than one
    separator. *)
Theorem get_geoid_from_district_extra_parts (ss dd more : string) :
  includes ss "-" = false -> includes dd "-" = false ->
  SyncSpendingData.get_geoid_from_district (Str (ss +:+ "-" +:+ dd +:+ "-" +:+ more))
  = SyncSpendingData.get_geoid_from_district (Str (ss +:+ "-" +:+ dd)) /\
  getGeoidFromDistrict (Str (ss +:+ "-" +:+ dd +:+ "-" +:+ more)) = None.
Proof.
  intros Hs Hd.
  assert (E1 : split "-" (ss +:+ "-" +:+ dd +:+ "-" +:+ more) = ss :: dd :: split "-" more).
  { change (ss +:+ "-" +:+ dd +:+ "-" +:+ more) with (ss +:+ String "-" (dd +:+ String "-" more)).
    now rewrite (split_app _ _ _ Hs), (split_app _ _ _ Hd). }
  assert (E2 : split "-" (ss +:+ "-" +:+ dd) = [ss; dd]).
  { change (ss +:+ "-" +:+ dd) with (ss +:+ String "-" dd).
    now rewrite (split_app _ _ _ Hs), (split_without _ _ Hd). }
  assert (I1 : includes (ss +:+ "-" +:+ dd +:+ "-" +:+ more) "-" = true).
  { rewrite includes_countChar. pose proof (split_length "-" (ss +:+ "-" +:+ dd +:+ "-" +:+ more)) as H.
    rewrite E1 in H. simpl in H. destruct (countChar _ _); [discriminate|reflexivity]. }
  assert (I2 : includes (ss +:+ "-" +:+ dd) "-" = true).
  { rewrite includes_countChar. pose proof (split_length "-" (ss +:+ "-" +:+ dd)) as H.
    rewrite E2 in H. simpl in H. destruct (countChar _ _); [discriminate|reflexivity]. }
  split.
  - unfold SyncSpendingData.get_geoid_from_district. rewrite I1, I2, E1, E2. reflexivity.
  - unfold getGeoidFromDistrict. rewrite I1, E1.
    destruct (String.eqb _ EmptyString); [reflexivity|]. cbn [orb negb].
    destruct (split "-" more) as [|h t] eqn:E; [now apply split_nonempty in E|reflexivity].
Qed.

Lemma get_geoid_from_district_extra_parts_witness :
  SyncSpendingData.get_geoid_from_district (Str ("CA" +:+ "-" +:+ "37" +:+ "-" +:+ "1"))
  = SyncSpendingData.get_geoid_from_district (Str ("CA" +:+ "-" +:+ "37")) /\
  getGeoidFromDistrict (Str ("CA" +:+ "-" +:+ "37" +:+ "-" +:+ "1")) = None.
Proof. apply (get_geoid_from_district_extra_parts "CA" "37" "1"); reflexivity. Defined.

Example map_build_samples :
  SyncSpendingData.get_geoid_from_district (Str "CA-37-1") = Some "0637"%string /\
  getGeoidFromDistrict (Str "CA-37-1") = None /\
  SyncSpendingData.rgb_to_hex (156, 26, 14) = "#9c1a0e"%string /\
  SyncSpendingData.hex_to_rgb "#9C1A0E" = Some (156, 26, 14).
Proof. vm_compute. repeat split. Qed.

(** ** The largest value of a map *)

Section LargestValue.

Ltac order_cases :=
  repeat match goal with
    | H : context [Z.compare ?a ?b] |- _ => destruct (Z.compare_spec a b); simpl in H
    | H : context [Pos.compare ?a ?b] |- _ => destruct (Pos.compare_spec a b); simpl in H
    | |- context [Z.compare ?a ?b] => destruct (Z.compare_spec a b); simpl
    | |- context [Pos.compare ?a ?b] => destruct (Pos.compare_spec a b); simpl
    end;
  try discriminate; try reflexivity; try lia.

Lemma lt_le x y : lt x y = true -> le x y = true.
Proof.
  unfold le, lt, SFleb, SFltb.
  destruct (SFcompare x y) as [[]|]; try discriminate; reflexivity.
Qed.

Lemma le_refl x : isNaN x = false -> le x x = true.
Proof.
  unfold le, SFleb, SFcompare.
  destruct x as [[]|[]| |[] mx ex]; simpl; try discriminate; try reflexivity;
    change (Pos.compare_cont Eq) with Pos.compare; intros _;
    rewrite Z.compare_refl, Pos.compare_refl; reflexivity.
Qed.

Lemma le_total x y : isNaN x = false -> isNaN y = false -> lt x y = false -> le y x = true.
Proof.
  unfold le, lt, SFleb, SFltb, SFcompare.
  destruct x as [[]|[]| |[] mx ex], y as [[]|[]| |[] my ey];
    simpl; try discriminate; try reflexivity;
    change (Pos.compare_cont Eq) with Pos.compare; intros _ _ H; order_cases.
Qed.

Lemma lt_not_nan x y : lt x y = true -> isNaN x = false /\ isNaN y = false.
Proof.
  unfold lt, SFltb, SFcompare.
  destruct x as [[]|[]| |[] mx ex], y as [[]|[]| |[] my ey]; simpl; try discriminate; now split.
Qed.

(** [Math.max(a, b)] of two numbers is one of them and at least both. *)
Lemma max2_spec a b :
  isNaN a = false -> isNaN b = false ->
  (max2 a b = a \/ max2 a b = b) /\ le a (max2 a b) = true /\ le b (max2 a b) = true.
Proof.
  intros Ha Hb. unfold max2. rewrite Ha, Hb. simpl orb. cbv iota.
  destruct (lt a b) eqn:E1.
  - split; [now right|]. split; [now apply lt_le|now apply le_refl].
  - destruct (lt b a) eqn:E2.
    + split; [now left|]. split; [now apply le_refl|now apply lt_le].
    + assert (L1 : le b a = true) by now apply le_total.
      assert (L2 : le a b = true) by now apply le_total.
      destruct a as [[]| | |]; (split; [auto|]); split; auto using le_refl.
Qed.

Lemma max2_not_nan a b : isNaN a = false -> isNaN b = false -> isNaN (max2 a b) = false.
Proof.
  intros Ha Hb. destruct (max2_spec a b Ha Hb) as ([->| ->] & _); assumption.
Qed.

Lemma fold_max2 values : forall acc,
  isNaN acc = false -> Forall (fun v => isNaN v = false) values ->
  let m := fold_left max2 values acc in
  isNaN m = false /\ le acc m = true /\ (forall v, In v values -> le v m = true) /\
  (m = acc \/ In m values).
Proof.
  induction values as [|v r IH]; intros acc Ha Hall; simpl.
  - split; [exact Ha|]. split; [now apply le_refl|]. split; [intros v []|now left].
  - apply Forall_cons in Hall as [Hv Hall].
    destruct (max2_spec acc v Ha Hv) as (Hor & L1 & L2).
    destruct (IH (max2 acc v) (max2_not_nan _ _ Ha Hv) Hall) as (Hn & L & Hin & Hm).
    split; [exact Hn|]. split; [exact (le_trans _ _ _ L1 L)|]. split.
    + intros w [<-|Hw]; [exact (le_trans _ _ _ L2 L)|now apply Hin].
    + destruct Hm as [Hm|Hm]; [|right; now right].
      destruct Hor as [E|E]; [left|right; left]; congruence.
Qed.

Lemma lt_le_trans x y z : lt x y = true -> le y z = true -> lt x z = true.
Proof.
  unfold le, lt, SFleb, SFltb, SFcompare.
  destruct x as [[]|[]| |[] mx ex], y as [[]|[]| |[] my ey], z as [[]|[]| |[] mz ez];
    simpl; try discriminate; try reflexivity;
    change (Pos.compare_cont Eq) with Pos.compare; intros H1 H2; order_cases.
Qed.

Lemma positive_values (dataMap : list (string * number)) v :
  In v (List.filter (fun v => gt v posZero) (map snd (entries dataMap))) <->
  (exists k, In (k, v) dataMap) /\ gt v posZero = true.
Proof.
  rewrite filter_In, in_map_iff. split.
  - intros [([k w] & <- & Hin) Hg]. split; [|exact Hg]. exists k.
    now apply (Permutation_in _ (entries_Permutation dataMap)).
  - intros [[k Hin] Hg]. split; [|exact Hg]. exists (k, v). split; [reflexivity|].
    now apply (Permutation_in _ (Permutation_sym (entries_Permutation dataMap))).
Qed.

End LargestValue.

(** X14. When [setData] is given no maximum it takes the largest positive
    value of the data: the maximum it stores is positive; it is 1 when no
    value is positive, and otherwise it is one of the values and no
    positive value exceeds it.  A maximum that is given is stored as it
    is. *)
Theorem setData_maxValue_largest (dataMap : list (string * number)) :
  let m := ChoroplethMap.setData_maxValue dataMap None in
  gt m posZero = true /\
  (forall k v, In (k, v) dataMap -> gt v posZero = true -> le v m = true) /\
  ((forall k v, In (k, v) dataMap -> gt v posZero = false) -> m = ofZ 1) /\
  ((exists k v, In (k, v) dataMap /\ gt v posZero = true) -> exists k, In (k, m) dataMap) /\
  (forall given, ChoroplethMap.setData_maxValue dataMap (Some given) = given).
Proof.
  unfold ChoroplethMap.setData_maxValue. cbv zeta.
  set (values := List.filter (fun v => gt v posZero) (map snd (entries dataMap))).
  assert (Hvalues : forall v, In v values <-> (exists k, In (k, v) dataMap) /\ gt v posZero = true)
    by (intros v; apply positive_values).
  assert (Hnn : Forall (fun v => isNaN v = false) values).
  { apply Forall_forall. intros v Hv%list_elem_of_In. apply Hvalues in Hv as [_ Hg].
    now apply lt_not_nan in Hg as [_ Hg]. }
  destruct (fold_max2 values (S754_infinity true) eq_refl Hnn) as (_ & _ & Hle & Hm).
  fold (mathMax values) in Hle, Hm.
  destruct values as [|v0 r] eqn:E.
  - simpl. split; [reflexivity|]. split.
    + intros k v Hin Hg. exfalso. apply (proj2 (Hvalues v)). now split; [exists k|].
    + split; [reflexivity|]. split; [|reflexivity].
      intros (k & v & Hin & Hg). exfalso. apply (proj2 (Hvalues v)). now split; [exists k|].
  - cbn [length Nat.ltb Nat.leb]. rewrite <- E in *.
    assert (H0 : In v0 values) by (rewrite E; now left).
    assert (Hpos : gt (mathMax values) posZero = true).
    { apply (lt_le_trans _ v0); [now apply Hvalues in H0 as [_ Hg]|now apply Hle]. }
    split; [exact Hpos|]. split.
    + intros k v Hin Hg. apply Hle. apply Hvalues. now split; [exists k|].
    + split.
      * intros Hnone. apply Hvalues in H0 as [[k Hin] Hg]. rewrite (Hnone _ _ Hin) in Hg.
        discriminate Hg.
      * split; [|reflexivity]. intros _.
        destruct Hm as [Hm|Hm]; [rewrite Hm in Hpos; discriminate Hpos|].
        now apply Hvalues in Hm as [Hk _].
Qed.

Lemma setData_maxValue_largest_witness :
  le (ofZ 2) (ChoroplethMap.setData_maxValue
                [("0637"%string, ofZ 2); ("4807"%string, ofZ 5); ("0601"%string, posZero)] None)
  = true.
Proof.
  apply (proj1 (proj2 (setData_maxValue_largest
           [("0637"%string, ofZ 2); ("4807"%string, ofZ 5); ("0601"%string, posZero)]))
           "0637"%string (ofZ 2)).
  - left. reflexivity.
  - vm_compute. reflexivity.
Defined.

Example setData_maxValue_samples :
  ChoroplethMap.setData_maxValue
    [("0637"%string, ofZ 2); ("4807"%string, ofZ 5); ("0601"%string, posZero)] None = ofZ 5 /\
  ChoroplethMap.setData_maxValue [("0601"%string, posZero); ("0602"%string, S754_nan)] None
    = ofZ 1 /\
  ChoroplethMap.setData_maxValue [] None = ofZ 1 /\
  ChoroplethMap.setData_maxValue [("0637"%string, ofZ 2)] (Some (ofZ 9)) = ofZ 9.
Proof. vm_compute. repeat split. Qed.

(** ** Colours of the maps the constructor builds *)

Section BuiltMaps.
Import ChoroplethMap.

(** X17. For each of the four colour scales of [COLORS.choropleth],
    [getSteppedColor] returns a colour and never fails on an empty scale.
    On a scale without steps every positive value gets one colour, the
    configured high colour or the default [#037CC2] when there is none, and
    every other value the zero colour. *)
Theorem getSteppedColor_built_maps (colorScale : string) (value : number) :
  In colorScale ["spending"; "science"; "cancellations"; "missions"]%string ->
  (exists c, getSteppedColor (create colorScale) value = Some c /\ c <> EmptyString) /\
  (steppedScale (create colorScale) = None ->
   getSteppedColor (create colorScale) value =
     Some (if gt value posZero
           then orElse (high (colors (create colorScale))) "#037CC2"
           else orElse (zero (colors (create colorScale))) "#f0f0f0")) /\
  getSteppedColor (create "cancellations") value
    = Some (if gt value posZero then "#FF5D47" else "#FFFFFF")%string /\
  getSteppedColor (create "missions") value
    = Some (if gt value posZero then "#037CC2" else "#f0f0f0")%string.
Proof.
  intros Hname.
  assert (Hsign : negb (truthy value) || le value posZero = negb (gt value posZero)).
  { destruct value as [[]|[]| |[] m e]; reflexivity. }
  assert (Hplain : forall this, steppedScale this = None ->
            getSteppedColor this value =
              Some (if gt value posZero then orElse (high (colors this)) "#037CC2"
                    else orElse (zero (colors this)) "#f0f0f0")).
  { intros this Hs. unfold getSteppedColor. rewrite Hsign, Hs.
    destruct (gt value posZero); reflexivity. }
  split; [|split; [apply Hplain|split; apply Hplain; reflexivity]].
  destruct Hname as [<-|[<-|[<-|[<-|[]]]]];
    try (rewrite Hplain by reflexivity; destruct (gt value posZero);
         eexists; (split; [reflexivity|discriminate])).
  - unfold getSteppedColor. rewrite Hsign. destruct (gt value posZero); simpl negb; cbv iota;
      [|eexists; split; [reflexivity|discriminate]].
    change (steppedScale (create "spending")) with (Some spendingSteps).
    cbn [spendingSteps firstBelow threshold color].
    repeat match goal with
           | |- context [if lt value ?t then _ else _] => destruct (lt value t)
           end; eexists; (split; [reflexivity|discriminate]).
  - unfold getSteppedColor. rewrite Hsign. destruct (gt value posZero); simpl negb; cbv iota;
      [|eexists; split; [reflexivity|discriminate]].
    change (steppedScale (create "science")) with (Some scienceSteps).
    cbn [scienceSteps firstBelow threshold color].
    repeat match goal with
           | |- context [if lt value ?t then _ else _] => destruct (lt value t)
           end; eexists; (split; [reflexivity|discriminate]).
Qed.

Lemma getSteppedColor_built_maps_witness :
  exists c, getSteppedColor (create "science") (ofZ 7000000) = Some c /\ c <> EmptyString.
Proof.
  apply (getSteppedColor_built_maps "science" (ofZ 7000000)). right. left. reflexivity.
Defined.

Example getSteppedColor_built_maps_samples :
  getSteppedColor (create "science") (ofZ 7000000) = Some "#9ecae1"%string /\
  getSteppedColor (create "cancellations") (ofZ 3) = Some "#FF5D47"%string /\
  getSteppedColor (create "missions") S754_nan = Some "#f0f0f0"%string.
Proof. vm_compute. repeat split. Qed.

End BuiltMaps.

(** ** The district data of the science dashboard *)

Section ScienceData.
Import NASAScienceDashboard.


Lemma amount_not_nan row name : isNaN (amount row name) = false.
Proof.
  unfold amount. cbv zeta.
  destruct (match row !! name with Some s => parseFloat s | None => S754_nan end);
    reflexivity.
Qed.

Lemma amount_missing row name :
  row !! name = None \/ (exists s, row !! name = Some s /\ isNaN (parseFloat s) = true) ->
  amount row name = posZero.
Proof.
  unfold amount. intros [-> | (s & -> & H)]; [reflexivity|].
  cbv zeta. destruct (parseFloat s); try discriminate H. reflexivity.
Qed.

Lemma hasGeoid_districtRow r :
  hasGeoid (districtRow r) = true <->
  exists g, getGeoidFromDistrict (CancellationsDashboard.prop r "district") = Some g.
Proof.
  unfold hasGeoid. cbn [geoid districtRow].
  destruct (getGeoidFromDistrict _) as [g|] eqn:E.
  - apply getGeoidFromDistrict_first_digit in E as (c & s & -> & _).
    split; [eauto | reflexivity].
  - split; [discriminate | intros [g Hg]; discriminate Hg].
Qed.

Lemma buildDistrictMapData_from (districtData : list DistrictRow) (m : gmap string number) g :
  g <> EmptyString ->
  fold_left (fun districtDataMap row =>
               match geoid row with
               | Some g =>
                   if negb (String.eqb g EmptyString)
                   then <[g := average row]> districtDataMap
                   else districtDataMap
               | None => districtDataMap
               end) districtData m !! g
  = match last (List.filter (fun row => bool_decide (geoid row = Some g)) districtData) with
    | Some row => Some (average row)
    | None => m !! g
    end.
Proof.
  intros Hg. revert m. induction districtData as [|row rest IH]; intros m; [reflexivity|].
  cbn [fold_left List.filter]. rewrite IH.
  destruct (bool_decide (geoid row = Some g)) eqn:E.
  - apply bool_decide_eq_true in E.
    destruct (List.filter _ rest) as [|r1 rs] eqn:Ef.
    + cbn [last]. rewrite E.
      destruct (String.eqb g EmptyString) eqn:E0; [apply String.eqb_eq in E0; contradiction|].
      cbn [negb]. now rewrite lookup_insert_eq.
    + rewrite last_cons_cons. destruct (last (r1 :: rs)) eqn:El; [reflexivity|].
      apply last_None in El. discriminate El.
  - apply bool_decide_eq_false in E.
    destruct (last (List.filter _ rest)); [reflexivity|].
    destruct (geoid row) as [g'|]; [|reflexivity].
    destruct (negb (String.eqb g' EmptyString)); [|reflexivity].
    apply lookup_insert_ne. congruence.
Qed.

Lemma buildDistrictMapData_empty_key (districtData : list DistrictRow) (m : gmap string number) :
  fold_left (fun districtDataMap row =>
               match geoid row with
               | Some g =>
                   if negb (String.eqb g EmptyString)
                   then <[g := average row]> districtDataMap
                   else districtDataMap
               | None => districtDataMap
               end) districtData m !! EmptyString
  = m !! EmptyString.
Proof.
  revert m. induction districtData as [|row rest IH]; intros m; [reflexivity|].
  cbn [fold_left]. rewrite IH.
  destruct (geoid row) as [g'|]; [|reflexivity].
  destruct (String.eqb g' EmptyString) eqn:E0; [reflexivity|].
  cbn [negb]. apply lookup_insert_ne. intros ->. discriminate E0.
Qed.

End ScienceData.

Section ScienceDataClaim.
Import NASAScienceDashboard.

(** X18. The science dashboard keeps a district row exactly when
    [getGeoidFromDistrict] derives a GEOID from its district column, in the
    order of the raw rows: a row with a valid district string is kept, a row
    without the column is dropped.  A yearly amount is never NaN: a column
    that is missing or does not start with a number counts as +0, and a row
    without any amount has the average +0. *)
Theorem science_processData_rows (districtRawData : list (gmap string string)) :
  sublist (processData districtRawData) (map districtRow districtRawData) /\
  (forall r, In (districtRow r) (processData districtRawData) <->
     In (districtRow r) (map districtRow districtRawData) /\
     exists g, getGeoidFromDistrict (CancellationsDashboard.prop r "district") = Some g) /\
  (forall r s, In r districtRawData -> r !! "district"%string = Some s ->
     isValidDistrict s = true -> In (districtRow r) (processData districtRawData)) /\
  (forall r, r !! "district"%string = None ->
     ~ In (districtRow r) (processData districtRawData)) /\
  (forall row, In row (processData districtRawData) ->
     isNaN (fy2024 row) = false /\ isNaN (fy2023 row) = false /\ isNaN (fy2022 row) = false) /\
  (forall r name,
     r !! name = None \/ (exists s, r !! name = Some s /\ isNaN (parseFloat s) = true) ->
     amount r name = posZero) /\
  (forall r, r !! "fy_2024_obligations"%string = None ->
     r !! "fy_2023_obligations"%string = None ->
     r !! "fy_2022_obligations"%string = None ->
     average (districtRow r) = posZero).
Proof.
  unfold processData.
  assert (Hnn : forall row, In row (List.filter hasGeoid (map districtRow districtRawData)) ->
            isNaN (fy2024 row) = false /\ isNaN (fy2023 row) = false /\
            isNaN (fy2022 row) = false).
  { intros row [(r & <- & _)%in_map_iff _]%filter_In. repeat split; apply amount_not_nan. }
  split; [apply filter_sublist|].
  split.
  { intros r. rewrite filter_In, hasGeoid_districtRow. reflexivity. }
  split.
  { intros r s Hr Hs Hv. apply filter_In. split; [now apply in_map|].
    apply hasGeoid_districtRow. unfold CancellationsDashboard.prop. rewrite Hs.
    destruct (getGeoidFromDistrict_valid s Hv) as (ss & dd & fips & _ & _ & H & _).
    eauto. }
  split.
  { intros r Hnone [_ H]%filter_In. apply hasGeoid_districtRow in H as [g Hg].
    unfold CancellationsDashboard.prop in Hg. rewrite Hnone in Hg. discriminate Hg. }
  split; [exact Hnn|].
  split; [intros r name; apply amount_missing|].
  intros r H1 H2 H3. cbn [average districtRow].
  rewrite !amount_missing by (now left). vm_compute. reflexivity.
Qed.

Lemma science_processData_rows_witness :
  In (districtRow (<["district" := "ca-7"]> (<["fy_2024_obligations" := "n/a"]> ∅)))
     (processData [ <["district" := "ca-7"]> (<["fy_2024_obligations" := "n/a"]> ∅) ]) /\
  amount (<["district" := "ca-7"]> (<["fy_2024_obligations" := "n/a"]> ∅))
         "fy_2024_obligations" = posZero.
Proof.
  pose proof (science_processData_rows
                [ <["district" := "ca-7"]> (<["fy_2024_obligations" := "n/a"]> ∅) ])
    as (_ & _ & Hkept & _ & _ & Hzero & _).
  split.
  - apply (Hkept _ "ca-7"%string); [now left | reflexivity | reflexivity].
  - apply Hzero. right. exists "n/a"%string. split; reflexivity.
Defined.

(** X19. The map data of the science dashboard holds, for every GEOID of a
    district row, the average of the last row with that GEOID: a later row
    replaces an earlier one.  Every value of the map is the average of a
    row, no entry has an empty key, and every row [processData] keeps has
    an entry. *)
Theorem districtDataMap_last_row (districtData : list DistrictRow) :
  (forall g, g <> EmptyString ->
     buildDistrictMapData districtData !! g
     = average <$> last (List.filter (fun row => bool_decide (geoid row = Some g))
                                     districtData)) /\
  buildDistrictMapData districtData !! EmptyString = None /\
  (forall row g, In row districtData -> geoid row = Some g -> g <> EmptyString ->
     is_Some (buildDistrictMapData districtData !! g)) /\
  (forall g v, buildDistrictMapData districtData !! g = Some v ->
     exists row, In row districtData /\ geoid row = Some g /\ average row = v) /\
  (forall districtRawData row,
     districtData = processData districtRawData -> In row districtData ->
     exists g, geoid row = Some g /\ is_Some (buildDistrictMapData districtData !! g)).
Proof.
  assert (H1 : forall g, g <> EmptyString ->
     buildDistrictMapData districtData !! g
     = average <$> last (List.filter (fun row => bool_decide (geoid row = Some g))
                                     districtData)).
  { intros g Hg. unfold buildDistrictMapData.
    rewrite (buildDistrictMapData_from districtData ∅ g Hg).
    destruct (last _); [reflexivity | apply lookup_empty]. }
  assert (H2 : buildDistrictMapData districtData !! EmptyString = None).
  { unfold buildDistrictMapData. rewrite buildDistrictMapData_empty_key. apply lookup_empty. }
  assert (H3 : forall row g, In row districtData -> geoid row = Some g -> g <> EmptyString ->
     is_Some (buildDistrictMapData districtData !! g)).
  { intros row g Hin Hrow Hg. rewrite (H1 g Hg).
    destruct (last _) as [r|] eqn:El; [now exists (average r)|].
    apply last_None in El.
    assert (Hf : In row (List.filter (fun row => bool_decide (geoid row = Some g)) districtData))
      by (apply filter_In; split; [assumption | now apply bool_decide_eq_true]).
    rewrite El in Hf. destruct Hf. }
  repeat split; try assumption.
  - intros g v Hv.
    destruct (String.eqb g EmptyString) eqn:E0.
    { apply String.eqb_eq in E0. subst g. rewrite H2 in Hv. discriminate Hv. }
    apply String.eqb_neq in E0. rewrite (H1 g E0) in Hv.
    destruct (last _) as [r|] eqn:El; [|discriminate Hv].
    apply last_Some in El as [l' El].
    assert (Hf : In r (List.filter (fun row => bool_decide (geoid row = Some g)) districtData))
      by (rewrite El; apply in_or_app; right; now left).
    apply filter_In in Hf as [Hin Hb]. apply bool_decide_eq_true in Hb.
    exists r. repeat split; try assumption. now injection Hv.
  - intros districtRawData row -> Hin.
    pose proof Hin as [_ Hg]%filter_In. unfold hasGeoid in Hg.
    destruct (geoid row) as [g|] eqn:E; [|discriminate Hg].
    exists g. split; [reflexivity|]. apply (H3 row g Hin E).
    intros ->. discriminate Hg.
Qed.

Lemma districtDataMap_last_row_witness :
  buildDistrictMapData
    (processData [ <["district" := "CA-37"]> (<["fy_2024_obligations" := "30"]> ∅);
                   <["district" := "ca-37"]> (<["fy_2024_obligations" := "60"]> ∅) ])
    !! "0637"%string
  = Some (ofZ 20).
Proof.
  rewrite (proj1 (districtDataMap_last_row _) "0637"%string) by discriminate.
  vm_compute. reflexivity.
Defined.

End ScienceDataClaim.
